(** * EngPal backend: validation, prompt building, response parsing and the
      TTL caches of the review and assignment handlers

    The Go program is embedded shallowly and the definitions keep the names
    of the Go functions they follow.

    - A Go [string] is a sequence of bytes and is modelled by
      [String.string]; runes are decoded from it as [unicode/utf8] does.
    - A Go [int] is modelled by [Z]: the arithmetic of the program
      (a quotient, a remainder, increments by one, differences of lengths)
      does not overflow on 64-bit integers.
    - Slices are lists and Go maps are [gmap]s.  A slice that the JSON
      decoder stores into comes with what its backing array holds after
      its elements, since the decoder stores into that; the order in which
      a map is ranged over is a parameter.
    - An [error] is a value; [nil] is [None] or the left injection.
    - A run-time panic (a division by zero, a slice bound out of range) is
      an outcome of its own.
    - The package variables (the two caches), the upstream client and the
      clock are threaded through a state monad.
    - The parts of the Go standard library that the handlers call
      ([unicode/utf8], [unicode], [strings], [strconv], [encoding/json])
      are modelled in modules that keep the Go names; of [net/http] only
      the response that a handler writes is kept.

    The definitions come first, the properties after them. *)

From Stdlib Require Import ZArith Lia List Ascii String Bool.
From Stdlib Require DecimalString HexadecimalString.
From stdpp Require Import base option list gmap strings.

Local Open Scope Z_scope.

(** ** Bytes and byte strings *)

Definition byte_val (c : ascii) : Z := Z.of_N (N_of_ascii c).
Definition byte_of (z : Z) : ascii := ascii_of_N (Z.to_N z).

Fixpoint str_take (n : nat) (s : string) : string :=
  match n, s with
  | S n', String c s' => String c (str_take n' s')
  | _, _ => EmptyString
  end.

Fixpoint str_drop (n : nat) (s : string) : string :=
  match n, s with
  | S n', String _ s' => str_drop n' s'
  | _, _ => s
  end.

Definition str_len (s : string) : Z := Z.of_nat (String.length s).

Fixpoint str_concat (l : list string) : string :=
  match l with
  | [] => EmptyString
  | s :: l' => s +:+ str_concat l'
  end.

(** ** unicode/utf8 *)

Module utf8.

Definition RuneError : Z := 0xFFFD.
Definition RuneSelf : Z := 0x80.
Definition MaxRune : Z := 0x10FFFF.

(** The [first] table of the Go package: what the first byte of a
    sequence announces (its size and the range accepted for the second
    byte). *)
Inductive firstInfo : Type :=
| AS
| XX
| SZ (size : nat) (lo hi : Z).

Definition first (b : Z) : firstInfo :=
  if b <? 0x80 then AS
  else if b <? 0xC2 then XX
  else if b <? 0xE0 then SZ 2 0x80 0xBF
  else if b =? 0xE0 then SZ 3 0xA0 0xBF
  else if b =? 0xED then SZ 3 0x80 0x9F
  else if b <? 0xF0 then SZ 3 0x80 0xBF
  else if b =? 0xF0 then SZ 4 0x90 0xBF
  else if b <? 0xF4 then SZ 4 0x80 0xBF
  else if b =? 0xF4 then SZ 4 0x80 0x8F
  else XX.

Definition locb : Z := 0x80.
Definition hicb : Z := 0xBF.
Definition maskx : Z := 0x3F.
Definition mask2 : Z := 0x1F.
Definition mask3 : Z := 0x0F.
Definition mask4 : Z := 0x07.

(** [utf8.DecodeRuneInString]: the first rune of [s] and its width in
    bytes; [(RuneError, 0)] on the empty string and [(RuneError, 1)] on
    an invalid encoding. *)
Definition DecodeRuneInString (s : string) : Z * nat :=
  match s with
  | EmptyString => (RuneError, 0%nat)
  | String c0 t0 =>
    let s0 := byte_val c0 in
    match first s0 with
    | AS => (s0, 1%nat)
    | XX => (RuneError, 1%nat)
    | SZ sz lo hi =>
      if (String.length s <? sz)%nat then (RuneError, 1%nat) else
      match t0 with
      | EmptyString => (RuneError, 1%nat)
      | String c1 t1 =>
        let s1 := byte_val c1 in
        if (s1 <? lo) || (hi <? s1) then (RuneError, 1%nat) else
        if (sz <=? 2)%nat then
          (Z.lor (Z.shiftl (Z.land s0 mask2) 6) (Z.land s1 maskx), 2%nat)
        else
        match t1 with
        | EmptyString => (RuneError, 1%nat)
        | String c2 t2 =>
          let s2 := byte_val c2 in
          if (s2 <? locb) || (hicb <? s2) then (RuneError, 1%nat) else
          if (sz <=? 3)%nat then
            (Z.lor (Z.lor (Z.shiftl (Z.land s0 mask3) 12)
                          (Z.shiftl (Z.land s1 maskx) 6))
                   (Z.land s2 maskx), 3%nat)
          else
          match t2 with
          | EmptyString => (RuneError, 1%nat)
          | String c3 _ =>
            let s3 := byte_val c3 in
            if (s3 <? locb) || (hicb <? s3) then (RuneError, 1%nat) else
            (Z.lor (Z.lor (Z.lor (Z.shiftl (Z.land s0 mask4) 18)
                                 (Z.shiftl (Z.land s1 maskx) 12))
                          (Z.shiftl (Z.land s2 maskx) 6))
                   (Z.land s3 maskx), 4%nat)
          end
        end
      end
    end
  end.

(** [utf8.AppendRune] on an empty buffer: the UTF-8 encoding of a rune;
    surrogates and runes out of range are encoded as [RuneError]. *)
Definition EncodeRune (r : Z) : string :=
  let b z := String (byte_of z) EmptyString in
  if (0 <=? r) && (r <=? 0x7F) then b r
  else if (0 <=? r) && (r <=? 0x7FF) then
    b (Z.lor 0xC0 (Z.shiftr r 6)) +:+ b (Z.lor 0x80 (Z.land r maskx))
  else if (r <? 0) || (MaxRune <? r) || ((0xD800 <=? r) && (r <=? 0xDFFF)) then
    b 0xEF +:+ b 0xBF +:+ b 0xBD
  else if r <=? 0xFFFF then
    b (Z.lor 0xE0 (Z.shiftr r 12))
    +:+ b (Z.lor 0x80 (Z.land (Z.shiftr r 6) maskx))
    +:+ b (Z.lor 0x80 (Z.land r maskx))
  else
    b (Z.lor 0xF0 (Z.shiftr r 18))
    +:+ b (Z.lor 0x80 (Z.land (Z.shiftr r 12) maskx))
    +:+ b (Z.lor 0x80 (Z.land (Z.shiftr r 6) maskx))
    +:+ b (Z.lor 0x80 (Z.land r maskx)).

(** What [for i, r := range s] visits: each rune of [s] in order, with
    the bytes it was decoded from. *)
Fixpoint rangeString (fuel : nat) (s : string) : list (Z * string) :=
  match fuel with
  | O => []
  | S fuel' =>
    match s with
    | EmptyString => []
    | String _ _ =>
      let '(r, size) := DecodeRuneInString s in
      (r, str_take size s) :: rangeString fuel' (str_drop size s)
    end
  end.

Definition runes (s : string) : list (Z * string) :=
  rangeString (String.length s) s.

End utf8.

(** ** unicode *)

Module unicode.

Definition MaxLatin1 : Z := 0xFF.

(** [unicode.IsSpace]: the Latin-1 cases of the Go function, then the
    [White_Space] range table. *)
Definition IsSpace (r : Z) : bool :=
  if (0 <=? r) && (r <=? MaxLatin1) then
    (r =? 0x09) || (r =? 0x0A) || (r =? 0x0B) || (r =? 0x0C) || (r =? 0x0D)
    || (r =? 0x20) || (r =? 0x85) || (r =? 0xA0)
  else
    (r =? 0x1680) || ((0x2000 <=? r) && (r <=? 0x200A))
    || (r =? 0x2028) || (r =? 0x2029) || (r =? 0x202F) || (r =? 0x205F)
    || (r =? 0x3000).

Definition MaxASCII : Z := 0x7F.

(** The case tables of the package ([unicode.CaseRanges], reached
    through [unicode.To]) and the simple case-folding orbits are data of
    the Go distribution; the program is verified for whatever they hold.
    [To_Upper] and [To_Lower] are [To(UpperCase, r)] and
    [To(LowerCase, r)]; [foldOrbitMin r] is the smallest rune that
    [unicode.SimpleFold] reaches from [r]. *)
Class Tables : Type := {
  To_Upper : Z → Z;
  To_Lower : Z → Z;
  foldOrbitMin : Z → Z
}.

(** [unicode.ToUpper]. *)
Definition ToUpper `{Tables} (r : Z) : Z :=
  if r <=? MaxASCII then
    if (0x61 <=? r) && (r <=? 0x7A) then r - (0x61 - 0x41) else r
  else To_Upper r.

(** [unicode.ToLower]. *)
Definition ToLower `{Tables} (r : Z) : Z :=
  if r <=? MaxASCII then
    if (0x41 <=? r) && (r <=? 0x5A) then r + (0x61 - 0x41) else r
  else To_Lower r.

End unicode.

(** ** strings *)

Module strings.

(** The bytes spanned by a run of decoded runes. *)
Definition bytesOf (cs : list (Z * string)) : string :=
  str_concat (map snd cs).

(** [strings.FieldsFunc]: the loop over [range s] that records a span
    each time a run of runes not satisfying [f] ends.  [cur] is the text
    of the span that is open ([start >= 0] in the Go code), [spans] the
    spans recorded so far. *)
Fixpoint fieldsLoop (f : Z → bool) (cs : list (Z * string))
    (cur : option string) (spans : list string) : list string :=
  match cs with
  | [] =>
    match cur with
    | Some t => spans ++ [t]
    | None => spans
    end
  | (r, raw) :: cs' =>
    if f r then
      match cur with
      | Some t => fieldsLoop f cs' None (spans ++ [t])
      | None => fieldsLoop f cs' None spans
      end
    else
      match cur with
      | Some t => fieldsLoop f cs' (Some (t +:+ raw)) spans
      | None => fieldsLoop f cs' (Some raw) spans
      end
  end.

Definition FieldsFunc (s : string) (f : Z → bool) : list string :=
  fieldsLoop f (utf8.runes s) None [].

(** [strings.Fields]: splits around each run of white space as defined
    by [unicode.IsSpace] (the ASCII fast path of the Go function computes
    the same slice). *)
Definition Fields (s : string) : list string :=
  FieldsFunc s unicode.IsSpace.

Fixpoint trimLeft (f : Z → bool) (cs : list (Z * string))
    : list (Z * string) :=
  match cs with
  | [] => []
  | c :: cs' => if f c.1 then trimLeft f cs' else cs
  end.

Fixpoint trimRight (f : Z → bool) (cs : list (Z * string))
    : list (Z * string) :=
  match cs with
  | [] => []
  | c :: cs' =>
    match trimRight f cs' with
    | [] => if f c.1 then [] else [c]
    | l => c :: l
    end
  end.

(** [strings.TrimFunc]: [s] without its leading and trailing runes
    satisfying [f]. *)
Definition TrimFunc (s : string) (f : Z → bool) : string :=
  bytesOf (trimRight f (trimLeft f (utf8.runes s))).

(** [strings.TrimSpace]: all leading and trailing white space removed,
    as defined by Unicode. *)
Definition TrimSpace (s : string) : string :=
  TrimFunc s unicode.IsSpace.

Definition HasPrefix (s pre : string) : bool :=
  String.eqb (str_take (String.length pre) s) pre.

Definition HasSuffix (s suf : string) : bool :=
  (String.length suf <=? String.length s)%nat
  && String.eqb (str_drop (String.length s - String.length suf) s) suf.

Definition TrimPrefix (s pre : string) : string :=
  if HasPrefix s pre then str_drop (String.length pre) s else s.

Definition TrimSuffix (s suf : string) : string :=
  if HasSuffix s suf
  then str_take (String.length s - String.length suf) s
  else s.

Fixpoint Join (elems : list string) (sep : string) : string :=
  match elems with
  | [] => EmptyString
  | [x] => x
  | x :: rest => x +:+ sep +:+ Join rest sep
  end.

(** [strings.Contains]. *)
Fixpoint Contains (s sub : string) : bool :=
  HasPrefix s sub ||
  match s with
  | EmptyString => false
  | String _ s' => Contains s' sub
  end.

(** [strings.Map]: the encodings of the mapped runes, a negative result
    dropping the rune. *)
Definition Map (mapping : Z → Z) (s : string) : string :=
  str_concat
    (map (λ c : Z * string,
            let r := mapping c.1 in
            if r <? 0 then EmptyString else utf8.EncodeRune r)
         (utf8.runes s)).

(** [strings.ToUpper] and [strings.ToLower] (their ASCII fast paths
    compute the same string). *)
Definition ToUpper `{unicode.Tables} (s : string) : string :=
  Map unicode.ToUpper s.

Definition ToLower `{unicode.Tables} (s : string) : string :=
  Map unicode.ToLower s.

End strings.

(** ** strconv and fmt *)

Module strconv.

(** [strconv.Itoa], which is also what the verb [%d] prints. *)
Definition Itoa (i : Z) : string :=
  DecimalString.NilZero.string_of_int (Z.to_int i).

(** What the verb [%x] prints for an [int]. *)
Definition FormatHex (i : Z) : string :=
  HexadecimalString.NilZero.string_of_int (Z.to_hex_int i).


Definition digitVal (c : ascii) : Z := byte_val c - 0x30.

Fixpoint digitsFrom (acc : Z) (s : string) : Z :=
  match s with
  | String c s' => digitsFrom (acc * 10 + digitVal c) s'
  | EmptyString => acc
  end.

Fixpoint allDigits (s : string) : bool :=
  match s with
  | String c s' => (0x30 <=? byte_val c) && (byte_val c <=? 0x39) && allDigits s'
  | EmptyString => true
  end.

Fixpoint takeDigits (s : string) : string * string :=
  match s with
  | String c s' =>
    if (0x30 <=? byte_val c) && (byte_val c <=? 0x39)
    then let '(d, rest) := takeDigits s' in (String c d, rest)
    else (EmptyString, s)
  | EmptyString => (EmptyString, s)
  end.

Definition dropSign (s : string) : bool * string :=
  match s with
  | String c s' =>
    if byte_val c =? 0x2D then (true, s')
    else if byte_val c =? 0x2B then (false, s')
    else (false, s)
  | EmptyString => (false, s)
  end.

(** [strconv.ParseInt(lit, 10, 64)] on a JSON number literal: the value,
    or [None] for a literal with a fraction or an exponent or a value out
    of the range of [int64]. *)
Definition ParseInt64 (lit : string) : option Z :=
  let '(neg, ds) := dropSign lit in
  match ds with
  | EmptyString => None
  | String _ _ =>
    if allDigits ds then
      let n := if neg then - digitsFrom 0 ds else digitsFrom 0 ds in
      if (- 2 ^ 63 <=? n) && (n <=? 2 ^ 63 - 1) then Some n else None
    else None
  end.

(** A JSON number literal as [m * 10 ^ e]. *)
Definition decimalOf (lit : string) : Z * Z :=
  let '(_, s0) := dropSign lit in
  let '(ip, s1) := takeDigits s0 in
  let '(fp, s2) :=
    match s1 with
    | String c s' => if byte_val c =? 0x2E then takeDigits s' else (EmptyString, s1)
    | EmptyString => (EmptyString, s1)
    end in
  let ex :=
    match s2 with
    | String _ s' =>
      let '(neg, ds) := dropSign s' in
      if neg then - digitsFrom 0 ds else digitsFrom 0 ds
    | EmptyString => 0
    end in
  (digitsFrom 0 (ip +:+ fp), ex - str_len fp).

(** Whether [strconv.ParseFloat(lit, 64)] succeeds on a JSON number
    literal: it fails exactly when the magnitude rounds to infinity, that
    is from [2^1024 - 2^970] on. *)
Definition ParseFloat64_ok (lit : string) : bool :=
  let '(m, e) := decimalOf lit in
  let bound := 2 ^ 1024 - 2 ^ 970 in
  if m =? 0 then true
  else if 0 <=? e then m * 10 ^ e <? bound
  else m <? bound * 10 ^ (- e).

End strconv.

(** ** The word counters *)

(** [utils.GetTotalWords]. *)
Definition GetTotalWords (input : string) : Z :=
  Z.of_nat (length (strings.Fields input)).

(** [getTotalWords] of the review handler. *)
Definition getTotalWords (input : string) : Z :=
  if String.eqb (strings.TrimSpace input) EmptyString then 0
  else Z.of_nat (length (strings.Fields input)).

(** ** Whitespace-delimited tokens

    [Tokens f cs toks]: [toks] are, in order, the maximal non-empty runs of
    runes of [cs] that do not satisfy [f]; the runes between, before and
    after them all satisfy [f]. *)
Inductive Tokens (f : Z → bool)
    : list (Z * string) → list (list (Z * string)) → Prop :=
| Tokens_end (ws : list (Z * string)) :
    Forall (λ c, f c.1 = true) ws →
    Tokens f ws []
| Tokens_word (ws w rest : list (Z * string)) (toks : list (list (Z * string))) :
    Forall (λ c, f c.1 = true) ws →
    w ≠ [] →
    Forall (λ c, f c.1 = false) w →
    (rest = [] ∨ ∃ c rest', rest = c :: rest' ∧ f c.1 = true) →
    Tokens f rest toks →
    Tokens f (ws ++ w ++ rest) (w :: toks).

(** A string made of white space only (the empty string included). *)
Definition whitespaceOnly (s : string) : Prop :=
  Forall (λ c : Z * string, unicode.IsSpace c.1 = true) (utf8.runes s).

(** A byte string that does not start with a UTF-8 continuation byte. *)
Definition startsRune (s : string) : Prop :=
  match s with
  | EmptyString => True
  | String c _ => byte_val c < utf8.locb ∨ utf8.hicb < byte_val c
  end.

(** ** Numbers read from text

    A [float64] is represented by the decimal literal it was read from:
    the program stores such numbers and hands them on, and never computes
    with them. *)
Inductive float64 : Type :=
| Float64 (lit : string).

Definition float64_zero : float64 := Float64 "0".



(** ** Errors *)

Inductive error : Type :=
| SyntaxError
| UnmarshalTypeError
| errorString (msg : string)
| wrapError (msg : string) (err : error).

(** ** encoding/json

    [json.Unmarshal] first checks that the whole input is one valid JSON
    text, then stores it into the Go value by reflection.  A value of the
    wrong JSON kind for its target does not stop the decoding: the error is
    saved, the target is left as it is, the rest of the input is still
    stored, and the saved error is returned at the end. *)

Module json.

#[warnings="-register-all"]
Inductive value : Type :=
| Null
| Bool (b : bool)
| Number (lit : string)
| Str (s : string)
| Array (elems : list value)
| Object (members : list (string * value)).

Definition maxNestingDepth : Z := 10000.

(** *** The scanner *)

Definition isSpace (b : Z) : bool :=
  (b =? 0x20) || (b =? 0x09) || (b =? 0x0D) || (b =? 0x0A).

Definition isDigit (b : Z) : bool := (0x30 <=? b) && (b <=? 0x39).

Fixpoint skipSpace (s : string) : string :=
  match s with
  | String c s' => if isSpace (byte_val c) then skipSpace s' else s
  | EmptyString => s
  end.

Definition hexVal (b : Z) : option Z :=
  if (0x30 <=? b) && (b <=? 0x39) then Some (b - 0x30)
  else if (0x61 <=? b) && (b <=? 0x66) then Some (b - 0x61 + 10)
  else if (0x41 <=? b) && (b <=? 0x46) then Some (b - 0x41 + 10)
  else None.

(** [getu4]: the code unit of a [\uXXXX] escape at the head of [s], or
    [-1]. *)
Definition getu4 (s : string) : Z :=
  match s with
  | String c0 (String c1 (String h0 (String h1 (String h2 (String h3 _))))) =>
    if (byte_val c0 =? 0x5C) && (byte_val c1 =? 0x75) then
      match hexVal (byte_val h0), hexVal (byte_val h1),
            hexVal (byte_val h2), hexVal (byte_val h3) with
      | Some a, Some b, Some c, Some d => ((a * 16 + b) * 16 + c) * 16 + d
      | _, _, _, _ => -1
      end
    else -1
  | _ => -1
  end.

(** [utf16.DecodeRune]. *)
Definition utf16_DecodeRune (r1 r2 : Z) : Z :=
  if (0xD800 <=? r1) && (r1 <? 0xDC00) && (0xDC00 <=? r2) && (r2 <? 0xE000)
  then Z.lor (Z.shiftl (r1 - 0xD800) 10) (r2 - 0xDC00) + 0x10000
  else utf8.RuneError.

Definition single (b : Z) : string := String (byte_of b) EmptyString.

(** The text of a string literal whose opening quote was read: the
    unquoted string and what follows the closing quote. *)
Fixpoint scanString (fuel : nat) (s : string) : option (string * string) :=
  match fuel with
  | O => None
  | S fuel' =>
    let emit (w rest : string) :=
      match scanString fuel' rest with
      | Some (t, rest') => Some (w +:+ t, rest')
      | None => None
      end in
    match s with
    | EmptyString => None
    | String c s' =>
      let b := byte_val c in
      if b =? 0x22 then Some (EmptyString, s')
      else if b =? 0x5C then
        match s' with
        | EmptyString => None
        | String e s'' =>
          let x := byte_val e in
          if (x =? 0x22) || (x =? 0x5C) || (x =? 0x2F) then emit (single x) s''
          else if x =? 0x62 then emit (single 0x08) s''
          else if x =? 0x66 then emit (single 0x0C) s''
          else if x =? 0x6E then emit (single 0x0A) s''
          else if x =? 0x72 then emit (single 0x0D) s''
          else if x =? 0x74 then emit (single 0x09) s''
          else if x =? 0x75 then
            let rr := getu4 s in
            if rr <? 0 then None
            else
              let after := str_drop 6 s in
              if (0xD800 <=? rr) && (rr <? 0xE000) then
                let dec := utf16_DecodeRune rr (getu4 after) in
                if dec =? utf8.RuneError
                then emit (utf8.EncodeRune utf8.RuneError) after
                else emit (utf8.EncodeRune dec) (str_drop 6 after)
              else emit (utf8.EncodeRune rr) after
          else None
        end
      else if b <? 0x20 then None
      else if b <? utf8.RuneSelf then emit (single b) s'
      else
        let '(rr, size) := utf8.DecodeRuneInString s in
        emit (utf8.EncodeRune rr) (str_drop size s)
    end
  end.

Fixpoint scanDigits (s : string) : string * string :=
  match s with
  | String c s' =>
    if isDigit (byte_val c)
    then let '(d, rest) := scanDigits s' in (String c d, rest)
    else (EmptyString, s)
  | EmptyString => (EmptyString, s)
  end.

(** A number literal at the head of [s] and what follows it. *)
Definition scanNumber (s : string) : option (string * string) :=
  let '(sign, s1) :=
    match s with
    | String c s' => if byte_val c =? 0x2D then (single 0x2D, s') else (EmptyString, s)
    | EmptyString => (EmptyString, s)
    end in
  let int_part :=
    match s1 with
    | String c s' =>
      if byte_val c =? 0x30 then Some (single 0x30, s')
      else if isDigit (byte_val c) then
        let '(d, rest) := scanDigits s' in Some (String c d, rest)
      else None
    | EmptyString => None
    end in
  match int_part with
  | None => None
  | Some (ip, s2) =>
    let frac :=
      match s2 with
      | String c s' =>
        if byte_val c =? 0x2E then
          match scanDigits s' with
          | (EmptyString, _) => None
          | (d, rest) => Some (String c d, rest)
          end
        else Some (EmptyString, s2)
      | EmptyString => Some (EmptyString, s2)
      end in
    match frac with
    | None => None
    | Some (fp, s3) =>
      let expo :=
        match s3 with
        | String c s' =>
          if (byte_val c =? 0x65) || (byte_val c =? 0x45) then
            let '(sg, s4) :=
              match s' with
              | String g s'' =>
                if (byte_val g =? 0x2B) || (byte_val g =? 0x2D)
                then (String g EmptyString, s'') else (EmptyString, s')
              | EmptyString => (EmptyString, s')
              end in
            match scanDigits s4 with
            | (EmptyString, _) => None
            | (d, rest) => Some (String c (sg +:+ d), rest)
            end
          else Some (EmptyString, s3)
        | EmptyString => Some (EmptyString, s3)
        end in
      match expo with
      | None => None
      | Some (ep, s5) => Some (sign +:+ ip +:+ fp +:+ ep, s5)
      end
    end
  end.

(** One JSON value at the head of [s] (after white space) and what
    follows it.  [depth] counts the arrays and objects that are open. *)
Fixpoint scanValue (fuel : nat) (depth : Z) (s : string)
    : option (value * string) :=
  match fuel with
  | O => None
  | S fuel' =>
    match skipSpace s with
    | EmptyString => None
    | String c s' as s0 =>
      let b := byte_val c in
      if b =? 0x7B then
        if maxNestingDepth <=? depth then None
        else
          match skipSpace s' with
          | String c1 s1 =>
            if byte_val c1 =? 0x7D then Some (Object [], s1)
            else
              match scanMembers fuel' (depth + 1) (String c1 s1) with
              | Some (ms, rest) => Some (Object ms, rest)
              | None => None
              end
          | EmptyString => None
          end
      else if b =? 0x5B then
        if maxNestingDepth <=? depth then None
        else
          match skipSpace s' with
          | String c1 s1 =>
            if byte_val c1 =? 0x5D then Some (Array [], s1)
            else
              match scanElems fuel' (depth + 1) (String c1 s1) with
              | Some (vs, rest) => Some (Array vs, rest)
              | None => None
              end
          | EmptyString => None
          end
      else if b =? 0x22 then
        match scanString (S (String.length s')) s' with
        | Some (t, rest) => Some (Str t, rest)
        | None => None
        end
      else if strings.HasPrefix s0 "true" then Some (Bool true, str_drop 4 s0)
      else if strings.HasPrefix s0 "false" then Some (Bool false, str_drop 5 s0)
      else if strings.HasPrefix s0 "null" then Some (Null, str_drop 4 s0)
      else
        match scanNumber s0 with
        | Some (lit, rest) => Some (Number lit, rest)
        | None => None
        end
    end
  end

(** The elements of an array after its first one was found to exist, up
    to the closing bracket. *)
with scanElems (fuel : nat) (depth : Z) (s : string)
    : option (list value * string) :=
  match fuel with
  | O => None
  | S fuel' =>
    match scanValue fuel' depth s with
    | None => None
    | Some (v, rest) =>
      match skipSpace rest with
      | String c r1 =>
        if byte_val c =? 0x5D then Some ([v], r1)
        else if byte_val c =? 0x2C then
          match scanElems fuel' depth r1 with
          | Some (vs, r2) => Some (v :: vs, r2)
          | None => None
          end
        else None
      | EmptyString => None
      end
    end
  end

(** The members of an object, from the quote of its next key up to the
    closing brace. *)
with scanMembers (fuel : nat) (depth : Z) (s : string)
    : option (list (string * value) * string) :=
  match fuel with
  | O => None
  | S fuel' =>
    match s with
    | String q s1 =>
      if byte_val q =? 0x22 then
        match scanString (S (String.length s1)) s1 with
        | None => None
        | Some (key, r0) =>
          match skipSpace r0 with
          | String colon r1 =>
            if byte_val colon =? 0x3A then
              match scanValue fuel' depth r1 with
              | None => None
              | Some (v, r2) =>
                match skipSpace r2 with
                | String c r3 =>
                  if byte_val c =? 0x7D then Some ([(key, v)], r3)
                  else if byte_val c =? 0x2C then
                    match scanMembers fuel' depth (skipSpace r3) with
                    | Some (ms, r4) => Some ((key, v) :: ms, r4)
                    | None => None
                    end
                  else None
                | EmptyString => None
                end
              end
            else None
          | EmptyString => None
          end
        end
      else None
    | EmptyString => None
    end
  end.

(** The whole input as one JSON text ([checkValid] and the tree the
    decoder walks); [None] is a syntax error. *)
Definition parse (data : string) : option value :=
  match scanValue (2 * String.length data + 4) 0 data with
  | Some (v, rest) =>
    match skipSpace rest with
    | EmptyString => Some v
    | String _ _ => None
    end
  | None => None
  end.


(** *** Storing into Go values

    A [decoder] stores a JSON value into a Go value of its type: it
    returns the new Go value and whether an error was saved. *)

Definition decoder (A : Type) : Type := value → A → A * bool.

Definition storeString : decoder string := λ v old,
  match v with
  | Null => (old, false)
  | Str s => (s, false)
  | _ => (old, true)
  end.

Definition storeInt : decoder Z := λ v old,
  match v with
  | Null => (old, false)
  | Number lit =>
    match strconv.ParseInt64 lit with
    | Some n => (n, false)
    | None => (old, true)
    end
  | _ => (old, true)
  end.

Definition storeFloat64 : decoder float64 := λ v old,
  match v with
  | Null => (old, false)
  | Number lit =>
    if strconv.ParseFloat64_ok lit then (Float64 lit, false) else (old, true)
  | _ => (old, true)
  end.

(** A slice that the decoder stores into: its elements, and the
    elements of its backing array that lie after them and were written
    by an earlier store (what a slice that is cut shorter leaves behind);
    the rest of the backing array is zero. *)
Record slice (A : Type) : Type := {
  elems : list A;
  spare : list A
}.
Arguments elems {A} s.
Arguments spare {A} s.

(** The nil slice, which is also what [make] and a composite literal
    give as far as the elements after the length are concerned. *)
Definition nilSlice {A : Type} : slice A := {| elems := []; spare := [] |}.

Definition sliceOf {A : Type} (l : list A) : slice A :=
  {| elems := l; spare := [] |}.

(** The loop of [decodeState.array]: the element at index [i] of the
    array is stored into the element at index [i] of the backing array
    ([v.Index(i)] after [v.SetLen(i + 1)]), which is zero once the
    backing array had to grow. *)
Fixpoint storeElems {A : Type} (zero : A) (elem : decoder A)
    (vs : list value) (backing : list A) : list A * bool :=
  match vs with
  | [] => ([], false)
  | x :: vs' =>
    let target := match backing with a :: _ => a | [] => zero end in
    let '(a, e) := elem x target in
    let '(rest, e') := storeElems zero elem vs' (tail backing) in
    (a :: rest, e || e')
  end.

(** A JSON array into a slice: each element is stored into the element
    that the backing array holds at its index, the length becomes the
    number of elements, and what the backing array holds after them stays;
    the empty array gives a new empty slice and [null] the nil slice. *)
Definition storeSlice {A : Type} (zero : A) (elem : decoder A)
    : decoder (slice A) := λ v old,
  match v with
  | Null => (nilSlice, false)
  | Array [] => (nilSlice, false)
  | Array vs =>
    let backing := elems old ++ spare old in
    let '(xs, e) := storeElems zero elem vs backing in
    ({| elems := xs; spare := drop (length vs) backing |}, e)
  | _ => (old, true)
  end.

(** [foldName]: the key under which a field is found when no field has
    exactly the name of the member. *)
Definition foldName `{unicode.Tables} (name : string) : string :=
  str_concat
    (map (λ c : Z * string,
            match c.2 with
            | String b EmptyString =>
              if byte_val b <? utf8.RuneSelf then
                if (0x61 <=? byte_val b) && (byte_val b <=? 0x7A)
                then single (byte_val b - (0x61 - 0x41))
                else c.2
              else utf8.EncodeRune (unicode.foldOrbitMin c.1)
            | _ => utf8.EncodeRune (unicode.foldOrbitMin c.1)
            end)
         (utf8.runes name)).

(** The fields of a struct type: the name given by the [json] tag and
    the decoder that stores into that field. *)
Definition fields (S : Type) : Type := list (string * decoder S).

Definition findField `{unicode.Tables} {S : Type} (fs : fields S)
    (key : string) : option (decoder S) :=
  match find (λ f : string * decoder S, String.eqb f.1 key) fs with
  | Some f => Some f.2
  | None =>
    match find (λ f : string * decoder S,
                  String.eqb (foldName f.1) (foldName key)) fs with
    | Some f => Some f.2
    | None => None
    end
  end.

(** A JSON object into a struct: the members are stored in the order of
    the text, a later member with the same key stores over an earlier
    one, and members that name no field are skipped. *)
Definition storeStruct `{unicode.Tables} {S : Type} (fs : fields S)
    : decoder S := λ v old,
  match v with
  | Null => (old, false)
  | Object ms =>
    fold_left
      (λ (acc : S * bool) (m : string * value),
         match findField fs m.1 with
         | Some dec => let '(s, e) := dec m.2 acc.1 in (s, acc.2 || e)
         | None => acc
         end)
      ms (old, false)
  | _ => (old, true)
  end.

(** [json.Unmarshal(data, &v)]: the value stored into [v] and the error
    returned. *)
Definition Unmarshal {A : Type} (dec : decoder A) (data : string) (v : A)
    : A * option error :=
  match parse data with
  | None => (v, Some SyntaxError)
  | Some j =>
    let '(a, e) := dec j v in
    (a, if e then Some UnmarshalTypeError else None)
  end.

End json.

(** * The assignment handler *)

(** ** Request and response types *)

Record GenerateQuizzesRequest : Type := {
  Topic : string;
  AssignmentTypes : list string;
  EnglishLevel : string;
  TotalQuestions : Z
}.

Record Quiz : Type := {
  ID : Z;
  Type' : string;
  Question : string;
  Answer : string;
  Options : list string;
  CorrectIndex : Z;
  Explanation : string
}.

Record QuizResponse : Type := {
  qrTopic : string;
  qrLevel : string;
  qrTotal : Z;
  qrGenerated : Z;
  qrQuizzes : list Quiz
}.

Record GeminiQuiz : Type := {
  gType : string;
  gQuestion : string;
  gAnswer : string;
  gOptions : json.slice string;
  gCorrectIndex : Z;
  gExplanation : string
}.

Record GeminiQuizData : Type := {
  Quizzes : json.slice GeminiQuiz
}.

Definition GeminiQuiz_zero : GeminiQuiz :=
  {| gType := EmptyString; gQuestion := EmptyString; gAnswer := EmptyString;
     gOptions := json.nilSlice; gCorrectIndex := 0;
     gExplanation := EmptyString |}.

Definition GeminiQuizData_zero : GeminiQuizData :=
  {| Quizzes := json.nilSlice |}.

(** The [json] tags of [GeminiQuiz] and [GeminiQuizData]. *)
Definition GeminiQuiz_fields : json.fields GeminiQuiz :=
  [ ("type", λ v q,
       let '(x, e) := json.storeString v (gType q) in
       ({| gType := x; gQuestion := gQuestion q; gAnswer := gAnswer q;
           gOptions := gOptions q; gCorrectIndex := gCorrectIndex q;
           gExplanation := gExplanation q |}, e));
    ("question", λ v q,
       let '(x, e) := json.storeString v (gQuestion q) in
       ({| gType := gType q; gQuestion := x; gAnswer := gAnswer q;
           gOptions := gOptions q; gCorrectIndex := gCorrectIndex q;
           gExplanation := gExplanation q |}, e));
    ("answer", λ v q,
       let '(x, e) := json.storeString v (gAnswer q) in
       ({| gType := gType q; gQuestion := gQuestion q; gAnswer := x;
           gOptions := gOptions q; gCorrectIndex := gCorrectIndex q;
           gExplanation := gExplanation q |}, e));
    ("options", λ v q,
       let '(x, e) :=
         json.storeSlice EmptyString json.storeString v (gOptions q) in
       ({| gType := gType q; gQuestion := gQuestion q; gAnswer := gAnswer q;
           gOptions := x; gCorrectIndex := gCorrectIndex q;
           gExplanation := gExplanation q |}, e));
    ("correct_index", λ v q,
       let '(x, e) := json.storeInt v (gCorrectIndex q) in
       ({| gType := gType q; gQuestion := gQuestion q; gAnswer := gAnswer q;
           gOptions := gOptions q; gCorrectIndex := x;
           gExplanation := gExplanation q |}, e));
    ("explanation", λ v q,
       let '(x, e) := json.storeString v (gExplanation q) in
       ({| gType := gType q; gQuestion := gQuestion q; gAnswer := gAnswer q;
           gOptions := gOptions q; gCorrectIndex := gCorrectIndex q;
           gExplanation := x |}, e)) ].

Definition GeminiQuizData_fields `{unicode.Tables}
    : json.fields GeminiQuizData :=
  [ ("quizzes", λ v d,
       let '(x, e) :=
         json.storeSlice GeminiQuiz_zero (json.storeStruct GeminiQuiz_fields)
           v (Quizzes d) in
       ({| Quizzes := x |}, e)) ].

(** ** Validation *)

(** [validateRequest]: [None] is the nil error. *)
Definition validateRequest (request : GenerateQuizzesRequest) : option error :=
  let topic := strings.TrimSpace (Topic request) in
  if String.eqb topic EmptyString then
    Some (errorString "tên chủ đề không được để trống")
  else if 10 <? Z.of_nat (length (strings.Fields topic)) then
    Some (errorString "chủ đề không được chứa nhiều hơn 10 từ")
  else if (TotalQuestions request <? 1) || (50 <? TotalQuestions request) then
    Some (errorString "số lượng câu hỏi phải nằm trong khoảng 1 đến 50")
  else if TotalQuestions request <? Z.of_nat (length (AssignmentTypes request)) then
    Some (errorString "số lượng câu hỏi không được nhỏ hơn số dạng câu hỏi mà bạn chọn")
  else if Z.of_nat (length (AssignmentTypes request)) =? 0 then
    Some (errorString "phải chọn ít nhất một loại câu hỏi")
  else None.

(** ** Distribution of the question types *)

(** The loop of [distributeQuestionTypes]; [i] is the index of the head of
    [types] in the slice that is ranged over. *)
Fixpoint distributeLoop (baseCount remainder : Z) (i : Z) (types : list string)
    (distribution : gmap string Z) : gmap string Z :=
  match types with
  | [] => distribution
  | questionType :: rest =>
    let d1 := <[questionType := baseCount]> distribution in
    let d2 :=
      if i <? remainder
      then <[questionType := default 0 (d1 !! questionType) + 1]> d1
      else d1 in
    distributeLoop baseCount remainder (i + 1) rest d2
  end.

(** [distributeQuestionTypes]; [None] is the run-time panic of the integer
    division by zero on an empty slice of types. *)
Definition distributeQuestionTypes (types : list string) (total : Z)
    : option (gmap string Z) :=
  let n := Z.of_nat (length types) in
  if n =? 0 then None
  else
    let baseCount := Z.quot total n in
    let remainder := Z.rem total n in
    Some (distributeLoop baseCount remainder 0 types ∅).

(** The sum of the counts of a distribution. *)
Definition distributionTotal (d : gmap string Z) : Z :=
  map_fold (λ _ count acc, count + acc) 0 d.

(** ** Validation of a generated quiz *)

(** [contains]. *)
Fixpoint contains (slice : list string) (item : string) : bool :=
  match slice with
  | [] => false
  | s :: rest => if String.eqb s item then true else contains rest item
  end.

(** [isValidQuiz]. *)
Definition isValidQuiz (quiz : Quiz) : bool :=
  if String.eqb (Question quiz) EmptyString then false
  else if String.eqb (Type' quiz) "Multiple Choice" then
    (2 <=? Z.of_nat (length (Options quiz)))
    && (0 <=? CorrectIndex quiz)
    && (CorrectIndex quiz <? Z.of_nat (length (Options quiz)))
  else if String.eqb (Type' quiz) "Fill in the Blank" then
    negb (String.eqb (Answer quiz) EmptyString)
  else if String.eqb (Type' quiz) "Short Answer" then
    negb (String.eqb (Answer quiz) EmptyString)
  else if String.eqb (Type' quiz) "Essay" then true
  else false.

(** The count that the type at index [i] is meant to receive: the floor of
    the division, and one more for the first [remainder] indices. *)
Definition share (baseCount remainder i : Z) : Z :=
  baseCount + (if i <? remainder then 1 else 0).

(** A request that passes [validateRequest] and names the same type
    twice. *)
Definition repeatedTypeRequest : GenerateQuizzesRequest :=
  {| Topic := "Travel";
     AssignmentTypes := ["Essay"; "Essay"];
     EnglishLevel := "B1 - Intermediate";
     TotalQuestions := 3 |}.

(** * The review handler *)

(** ** Request and response types *)

Record GenerateCommentRequest : Type := {
  Content : string;
  UserLevel : string;
  Requirement : string;
  Category : string;
  Language : string
}.

Record ReviewCriteria : Type := {
  Grammar : float64;
  Vocabulary : float64;
  Coherence : float64;
  TaskResponse : float64;
  Overall : float64
}.

Record ReviewSuggestion : Type := {
  sCategory : string;
  Issue : string;
  Suggestion : string;
  Example : string;
  Priority : string
}.

Record GeminiReviewData : Type := {
  EstimatedLevel : string;
  Scores : ReviewCriteria;
  OverallFeedback : string;
  StrengthPoints : json.slice string;
  ImprovementAreas : json.slice string;
  Suggestions : json.slice ReviewSuggestion;
  CorrectedVersion : string
}.

(** The anonymous struct of the fallback of [parseGeminiReviewResponse],
    whose suggestions are plain strings. *)
Record fallbackReviewData : Type := {
  fEstimatedLevel : string;
  fScores : ReviewCriteria;
  fOverallFeedback : string;
  fStrengthPoints : json.slice string;
  fImprovementAreas : json.slice string;
  fSuggestions : json.slice string;
  fCorrectedVersion : string
}.

(** [ProcessingTime] is kept as the elapsed nanoseconds; the program
    divides them by [1e6] in floating point. *)
Record ReviewResponse : Type := {
  rrContent : string;
  rrUserLevel : string;
  rrRequirement : string;
  rrWordCount : Z;
  rrEstimatedLevel : string;
  rrScores : ReviewCriteria;
  rrOverallFeedback : string;
  rrStrengthPoints : list string;
  rrImprovementAreas : list string;
  rrSuggestions : list ReviewSuggestion;
  rrCorrectedVersion : string;
  rrGeneratedAt : Z;
  rrProcessingTime : Z
}.

Definition ReviewCriteria_zero : ReviewCriteria :=
  {| Grammar := float64_zero; Vocabulary := float64_zero;
     Coherence := float64_zero; TaskResponse := float64_zero;
     Overall := float64_zero |}.

Definition ReviewSuggestion_zero : ReviewSuggestion :=
  {| sCategory := EmptyString; Issue := EmptyString;
     Suggestion := EmptyString; Example := EmptyString;
     Priority := EmptyString |}.

Definition GeminiReviewData_zero : GeminiReviewData :=
  {| EstimatedLevel := EmptyString; Scores := ReviewCriteria_zero;
     OverallFeedback := EmptyString; StrengthPoints := json.nilSlice;
     ImprovementAreas := json.nilSlice; Suggestions := json.nilSlice;
     CorrectedVersion := EmptyString |}.

Definition fallbackReviewData_zero : fallbackReviewData :=
  {| fEstimatedLevel := EmptyString; fScores := ReviewCriteria_zero;
     fOverallFeedback := EmptyString; fStrengthPoints := json.nilSlice;
     fImprovementAreas := json.nilSlice; fSuggestions := json.nilSlice;
     fCorrectedVersion := EmptyString |}.

(** The [json] tags of the review types. *)
Definition ReviewCriteria_fields : json.fields ReviewCriteria :=
  [ ("grammar", λ v c,
       let '(x, e) := json.storeFloat64 v (Grammar c) in
       ({| Grammar := x; Vocabulary := Vocabulary c; Coherence := Coherence c;
           TaskResponse := TaskResponse c; Overall := Overall c |}, e));
    ("vocabulary", λ v c,
       let '(x, e) := json.storeFloat64 v (Vocabulary c) in
       ({| Grammar := Grammar c; Vocabulary := x; Coherence := Coherence c;
           TaskResponse := TaskResponse c; Overall := Overall c |}, e));
    ("coherence", λ v c,
       let '(x, e) := json.storeFloat64 v (Coherence c) in
       ({| Grammar := Grammar c; Vocabulary := Vocabulary c; Coherence := x;
           TaskResponse := TaskResponse c; Overall := Overall c |}, e));
    ("task_response", λ v c,
       let '(x, e) := json.storeFloat64 v (TaskResponse c) in
       ({| Grammar := Grammar c; Vocabulary := Vocabulary c;
           Coherence := Coherence c; TaskResponse := x;
           Overall := Overall c |}, e));
    ("overall", λ v c,
       let '(x, e) := json.storeFloat64 v (Overall c) in
       ({| Grammar := Grammar c; Vocabulary := Vocabulary c;
           Coherence := Coherence c; TaskResponse := TaskResponse c;
           Overall := x |}, e)) ].

Definition ReviewSuggestion_fields : json.fields ReviewSuggestion :=
  [ ("category", λ v s,
       let '(x, e) := json.storeString v (sCategory s) in
       ({| sCategory := x; Issue := Issue s; Suggestion := Suggestion s;
           Example := Example s; Priority := Priority s |}, e));
    ("issue", λ v s,
       let '(x, e) := json.storeString v (Issue s) in
       ({| sCategory := sCategory s; Issue := x; Suggestion := Suggestion s;
           Example := Example s; Priority := Priority s |}, e));
    ("suggestion", λ v s,
       let '(x, e) := json.storeString v (Suggestion s) in
       ({| sCategory := sCategory s; Issue := Issue s; Suggestion := x;
           Example := Example s; Priority := Priority s |}, e));
    ("example", λ v s,
       let '(x, e) := json.storeString v (Example s) in
       ({| sCategory := sCategory s; Issue := Issue s;
           Suggestion := Suggestion s; Example := x;
           Priority := Priority s |}, e));
    ("priority", λ v s,
       let '(x, e) := json.storeString v (Priority s) in
       ({| sCategory := sCategory s; Issue := Issue s;
           Suggestion := Suggestion s; Example := Example s;
           Priority := x |}, e)) ].

Definition GeminiReviewData_fields `{unicode.Tables}
    : json.fields GeminiReviewData :=
  [ ("estimated_level", λ v d,
       let '(x, e) := json.storeString v (EstimatedLevel d) in
       ({| EstimatedLevel := x; Scores := Scores d;
           OverallFeedback := OverallFeedback d;
           StrengthPoints := StrengthPoints d;
           ImprovementAreas := ImprovementAreas d;
           Suggestions := Suggestions d;
           CorrectedVersion := CorrectedVersion d |}, e));
    ("scores", λ v d,
       let '(x, e) := json.storeStruct ReviewCriteria_fields v (Scores d) in
       ({| EstimatedLevel := EstimatedLevel d; Scores := x;
           OverallFeedback := OverallFeedback d;
           StrengthPoints := StrengthPoints d;
           ImprovementAreas := ImprovementAreas d;
           Suggestions := Suggestions d;
           CorrectedVersion := CorrectedVersion d |}, e));
    ("overall_feedback", λ v d,
       let '(x, e) := json.storeString v (OverallFeedback d) in
       ({| EstimatedLevel := EstimatedLevel d; Scores := Scores d;
           OverallFeedback := x;
           StrengthPoints := StrengthPoints d;
           ImprovementAreas := ImprovementAreas d;
           Suggestions := Suggestions d;
           CorrectedVersion := CorrectedVersion d |}, e));
    ("strength_points", λ v d,
       let '(x, e) :=
         json.storeSlice EmptyString json.storeString v (StrengthPoints d) in
       ({| EstimatedLevel := EstimatedLevel d; Scores := Scores d;
           OverallFeedback := OverallFeedback d;
           StrengthPoints := x;
           ImprovementAreas := ImprovementAreas d;
           Suggestions := Suggestions d;
           CorrectedVersion := CorrectedVersion d |}, e));
    ("improvement_areas", λ v d,
       let '(x, e) :=
         json.storeSlice EmptyString json.storeString v (ImprovementAreas d) in
       ({| EstimatedLevel := EstimatedLevel d; Scores := Scores d;
           OverallFeedback := OverallFeedback d;
           StrengthPoints := StrengthPoints d;
           ImprovementAreas := x;
           Suggestions := Suggestions d;
           CorrectedVersion := CorrectedVersion d |}, e));
    ("suggestions", λ v d,
       let '(x, e) :=
         json.storeSlice ReviewSuggestion_zero
           (json.storeStruct ReviewSuggestion_fields) v (Suggestions d) in
       ({| EstimatedLevel := EstimatedLevel d; Scores := Scores d;
           OverallFeedback := OverallFeedback d;
           StrengthPoints := StrengthPoints d;
           ImprovementAreas := ImprovementAreas d;
           Suggestions := x;
           CorrectedVersion := CorrectedVersion d |}, e));
    ("corrected_version", λ v d,
       let '(x, e) := json.storeString v (CorrectedVersion d) in
       ({| EstimatedLevel := EstimatedLevel d; Scores := Scores d;
           OverallFeedback := OverallFeedback d;
           StrengthPoints := StrengthPoints d;
           ImprovementAreas := ImprovementAreas d;
           Suggestions := Suggestions d;
           CorrectedVersion := x |}, e)) ].

Definition fallbackReviewData_fields `{unicode.Tables}
    : json.fields fallbackReviewData :=
  [ ("estimated_level", λ v d,
       let '(x, e) := json.storeString v (fEstimatedLevel d) in
       ({| fEstimatedLevel := x; fScores := fScores d;
           fOverallFeedback := fOverallFeedback d;
           fStrengthPoints := fStrengthPoints d;
           fImprovementAreas := fImprovementAreas d;
           fSuggestions := fSuggestions d;
           fCorrectedVersion := fCorrectedVersion d |}, e));
    ("scores", λ v d,
       let '(x, e) := json.storeStruct ReviewCriteria_fields v (fScores d) in
       ({| fEstimatedLevel := fEstimatedLevel d; fScores := x;
           fOverallFeedback := fOverallFeedback d;
           fStrengthPoints := fStrengthPoints d;
           fImprovementAreas := fImprovementAreas d;
           fSuggestions := fSuggestions d;
           fCorrectedVersion := fCorrectedVersion d |}, e));
    ("overall_feedback", λ v d,
       let '(x, e) := json.storeString v (fOverallFeedback d) in
       ({| fEstimatedLevel := fEstimatedLevel d; fScores := fScores d;
           fOverallFeedback := x;
           fStrengthPoints := fStrengthPoints d;
           fImprovementAreas := fImprovementAreas d;
           fSuggestions := fSuggestions d;
           fCorrectedVersion := fCorrectedVersion d |}, e));
    ("strength_points", λ v d,
       let '(x, e) :=
         json.storeSlice EmptyString json.storeString v (fStrengthPoints d) in
       ({| fEstimatedLevel := fEstimatedLevel d; fScores := fScores d;
           fOverallFeedback := fOverallFeedback d;
           fStrengthPoints := x;
           fImprovementAreas := fImprovementAreas d;
           fSuggestions := fSuggestions d;
           fCorrectedVersion := fCorrectedVersion d |}, e));
    ("improvement_areas", λ v d,
       let '(x, e) :=
         json.storeSlice EmptyString json.storeString v (fImprovementAreas d) in
       ({| fEstimatedLevel := fEstimatedLevel d; fScores := fScores d;
           fOverallFeedback := fOverallFeedback d;
           fStrengthPoints := fStrengthPoints d;
           fImprovementAreas := x;
           fSuggestions := fSuggestions d;
           fCorrectedVersion := fCorrectedVersion d |}, e));
    ("suggestions", λ v d,
       let '(x, e) :=
         json.storeSlice EmptyString json.storeString v (fSuggestions d) in
       ({| fEstimatedLevel := fEstimatedLevel d; fScores := fScores d;
           fOverallFeedback := fOverallFeedback d;
           fStrengthPoints := fStrengthPoints d;
           fImprovementAreas := fImprovementAreas d;
           fSuggestions := x;
           fCorrectedVersion := fCorrectedVersion d |}, e));
    ("corrected_version", λ v d,
       let '(x, e) := json.storeString v (fCorrectedVersion d) in
       ({| fEstimatedLevel := fEstimatedLevel d; fScores := fScores d;
           fOverallFeedback := fOverallFeedback d;
           fStrengthPoints := fStrengthPoints d;
           fImprovementAreas := fImprovementAreas d;
           fSuggestions := fSuggestions d;
           fCorrectedVersion := x |}, e)) ].

(** ** Constants and tables *)

(** Durations and instants are counted in nanoseconds. *)
Definition Minute : Z := 60 * 1000000000.
Definition Hour : Z := 60 * Minute.

Definition MIN_TOTAL_WORDS : Z := 10.
Definition MAX_TOTAL_WORDS : Z := 1000.
Definition CACHE_DURATION : Z := 1 * Hour.

Definition reviewEnglishLevels : gmap string string :=
  list_to_map
    [ ("A1", "A1 - Beginner");
      ("A2", "A2 - Elementary");
      ("B1", "B1 - Intermediate");
      ("B2", "B2 - Upper Intermediate");
      ("C1", "C1 - Advanced");
      ("C2", "C2 - Proficient") ].

Definition writingCategories : gmap string string :=
  list_to_map
    [ ("essay", "Academic Essay");
      ("letter", "Formal/Informal Letter");
      ("report", "Report Writing");
      ("article", "Article Writing");
      ("story", "Creative Writing");
      ("email", "Email Writing");
      ("description", "Descriptive Writing");
      ("opinion", "Opinion Writing") ].

Definition difficultyMapping : gmap string string :=
  list_to_map
    [ ("A1 - Beginner", "very basic vocabulary and simple grammar structures");
      ("A2 - Elementary", "basic vocabulary with simple past and present tenses");
      ("B1 - Intermediate", "intermediate vocabulary with complex sentence structures");
      ("B2 - Upper Intermediate", "advanced vocabulary with sophisticated grammar");
      ("C1 - Advanced", "complex vocabulary with nuanced language usage");
      ("C2 - Proficient", "expert-level vocabulary with native-like complexity") ].

(** ** The state of the process and the outside world

    The two caches are package variables.  The upstream model and the
    clock are outside the program: [callNo] counts the calls made to the
    upstream client and [ticks] the readings of [time.Now], so that the
    client and the clock can answer differently each time. *)

(** What an [interface{}] stored in a cache holds. *)
Inductive any : Type :=
| anyQuizResponse (r : QuizResponse)
| anyReviewResponse (r : ReviewResponse).

Record cacheItem : Type := {
  Data : any;
  ExpiresAt : Z
}.

Record reviewCacheItem : Type := {
  rData : any;
  rExpiresAt : Z
}.

Record State : Type := {
  cache : gmap string cacheItem;
  reviewCache : gmap string reviewCacheItem;
  callNo : nat;
  ticks : nat
}.

Inductive outcome (A : Type) : Type :=
| Done (a : A) (st : State)
| Panicked (st : State).
Arguments Done {A} a st.
Arguments Panicked {A} st.

(** A computation that reads and writes the state and may panic. *)
Definition M (A : Type) : Type := State → outcome A.

#[export] Instance M_ret : MRet M := λ A a st, Done a st.
#[export] Instance M_bind : MBind M := λ A B f m st,
  match m st with
  | Done a st' => f a st'
  | Panicked st' => Panicked st'
  end.

Definition panic {A : Type} : M A := λ st, Panicked st.

Definition orPanic {A : Type} (o : option A) : M A :=
  match o with
  | Some a => mret a
  | None => panic
  end.


(** [t.After(u)]. *)
Definition After (t u : Z) : bool := u <? t.

(** The lookup that opens both handlers:
    [item, found := cache[key]; found && item.ExpiresAt.After(now)].
    The result is the pair of [found] with the data of the item when the
    entry is a hit, and [None] otherwise. *)
Definition cacheHit (c : gmap string cacheItem) (key : string) (now : Z)
    : option any :=
  match c !! key with
  | Some item => if After (ExpiresAt item) now then Some (Data item) else None
  | None => None
  end.

Definition reviewCacheHit (c : gmap string reviewCacheItem) (key : string)
    (now : Z) : option any :=
  match c !! key with
  | Some item => if After (rExpiresAt item) now then Some (rData item) else None
  | None => None
  end.

(** [s[:n]]; [None] is the panic of a slice bound out of range. *)
Definition sliceTo (s : string) (n : Z) : option string :=
  if (0 <=? n) && (n <=? str_len s) then Some (str_take (Z.to_nat n) s)
  else None.

Definition sliceListTo {A : Type} (l : list A) (n : Z) : option (list A) :=
  if (0 <=? n) && (n <=? Z.of_nat (length l)) then Some (take (Z.to_nat n) l)
  else None.

(** A double quote. *)
Definition dq : string := String (ascii_of_nat 34) EmptyString.

(** ** HTTP responses *)

Inductive body : Type :=
| bodyText (text : string)
| bodyJSON (v : any)
| bodyJSONMap (m : list (string * string)).

Record Response : Type := {
  Status : Z;
  Header : gmap string string;
  Body : body
}.

Definition StatusOK : Z := 200.
Definition StatusCreated : Z := 201.
Definition StatusBadRequest : Z := 400.
Definition StatusInternalServerError : Z := 500.
Definition StatusServiceUnavailable : Z := 503.

(** [http.Error] on a response whose header is [h]. *)
Definition httpError (h : gmap string string) (msg : string) (code : Z)
    : Response :=
  {| Status := code;
     Header := <["X-Content-Type-Options" := "nosniff"]>
                 (<["Content-Type" := "text/plain; charset=utf-8"]> h);
     Body := bodyText (msg +:+ String (ascii_of_nat 10) EmptyString) |}.

(** The text of an error, as [err.Error()] gives it.  The texts of the
    errors of [encoding/json] are not modelled: they only reach the log. *)
Fixpoint errorText (e : error) : string :=
  match e with
  | SyntaxError => "json: syntax error"
  | UnmarshalTypeError => "json: cannot unmarshal"
  | errorString msg => msg
  | wrapError msg err => msg +:+ errorText err
  end.

(** ** Validation of a review request *)

(** [validateReviewRequest]: [None] is the nil error. *)
Definition validateReviewRequest `{unicode.Tables}
    (request : GenerateCommentRequest) : option error :=
  let content := strings.TrimSpace (Content request) in
  if String.eqb content EmptyString then
    Some (errorString "nội dung bài viết không được để trống")
  else
    let wordCount := getTotalWords content in
    if wordCount <? MIN_TOTAL_WORDS then
      Some (errorString ("bài viết phải dài tối thiểu "
                         +:+ strconv.Itoa MIN_TOTAL_WORDS +:+ " từ"))
    else if MAX_TOTAL_WORDS <? wordCount then
      Some (errorString ("bài viết không được dài hơn "
                         +:+ strconv.Itoa MAX_TOTAL_WORDS +:+ " từ"))
    else if negb (String.eqb (UserLevel request) EmptyString) then
      match reviewEnglishLevels !! strings.ToUpper (UserLevel request) with
      | Some _ => None
      | None =>
        Some (errorString
                "trình độ tiếng Anh không hợp lệ (A1, A2, B1, B2, C1, C2)")
      end
    else None.

(** ** The prompts *)

(** The level description that [buildReviewPrompt] puts in the prompt. *)
Definition userLevelDescOf `{unicode.Tables} (req : GenerateCommentRequest)
    : string :=
  if negb (String.eqb (UserLevel req) EmptyString) then
    match reviewEnglishLevels !! strings.ToUpper (UserLevel req) with
    | Some level => level
    | None => "intermediate"
    end
  else "intermediate".

Definition categoryOf `{unicode.Tables} (req : GenerateCommentRequest)
    : string :=
  if negb (String.eqb (Category req) EmptyString) then
    match writingCategories !! strings.ToLower (Category req) with
    | Some cat => cat
    | None => "general writing"
    end
  else "general writing".

Definition responseLanguagePromptOf (req : GenerateCommentRequest) : string :=
  if String.eqb (Language req) "vi" then "Tiếng Việt" else "English".

(** The format of [buildReviewPrompt] applied to its six arguments. *)
Definition reviewPromptText (req : GenerateCommentRequest)
    (userLevelDesc category : string) (wordCount : Z)
    (responseLanguagePrompt : string) : string :=
  "You are an expert English teacher and IELTS examiner. Analyze the following English writing sample and provide a comprehensive review.

WRITING SAMPLE TO ANALYZE:
" +:+ dq
    +:+ Content req +:+ dq +:+ "

CONTEXT INFORMATION:
- Student's declared level: "
    +:+ userLevelDesc +:+ "
- Writing category: "
    +:+ category +:+ "
- Specific requirement: "
    +:+ Requirement req +:+ "
- Word count: "
    +:+ strconv.Itoa wordCount +:+ "

ANALYSIS REQUIREMENTS:
1. Estimate the actual English level (A1-C2) based on the writing quality
2. Score each criterion from 0-10:
   - Grammar: Accuracy, complexity, range of structures
   - Vocabulary: Range, accuracy, appropriateness
   - Coherence: Logical flow, linking, organization
   - Task Response: Meeting requirements, completeness
   - Overall: Holistic impression

3. Provide specific feedback covering:
   - 3-5 strength points (what the student does well)
   - 3-5 improvement areas (what needs work)
   - 5-8 detailed suggestions with examples
   - overall_feedback: Tổng nhận xét chung về bài viết (bắt buộc)

4. If there are significant errors, provide a corrected version

FORMATTING REQUIREMENTS:
Return ONLY valid JSON without markdown formatting.
JSON phải có các trường sau (bắt buộc):
- " +:+ dq +:+ "estimated_level" +:+ dq +:+ "
- " +:+ dq +:+ "scores" +:+ dq +:+ " (bao gồm: " +:+ dq +:+ "grammar" +:+ dq +:+ ", " +:+ dq +:+ "vocabulary" +:+ dq +:+ ", " +:+ dq +:+ "coherence" +:+ dq +:+ ", " +:+ dq +:+ "task_response" +:+ dq +:+ ", " +:+ dq +:+ "overall" +:+ dq +:+ ", tất cả đều là số từ 0 đến 10)
- " +:+ dq +:+ "overall_feedback" +:+ dq +:+ "
- " +:+ dq +:+ "strength_points" +:+ dq +:+ "
- " +:+ dq +:+ "improvement_areas" +:+ dq +:+ "
- " +:+ dq +:+ "suggestions" +:+ dq +:+ " (mảng các object, mỗi object gồm: " +:+ dq +:+ "category" +:+ dq +:+ ", " +:+ dq +:+ "issue" +:+ dq +:+ ", " +:+ dq +:+ "suggestion" +:+ dq +:+ ", " +:+ dq +:+ "example" +:+ dq +:+ ", " +:+ dq +:+ "priority" +:+ dq +:+ ")
- " +:+ dq +:+ "corrected_version" +:+ dq +:+ " (nếu có)

Ví dụ trường " +:+ dq +:+ "suggestions" +:+ dq +:+ ":
" +:+ dq +:+ "suggestions" +:+ dq +:+ ": [
  {
    " +:+ dq +:+ "category" +:+ dq +:+ ": " +:+ dq +:+ "Grammar" +:+ dq +:+ ",
    " +:+ dq +:+ "issue" +:+ dq +:+ ": " +:+ dq +:+ "Subject-verb agreement" +:+ dq +:+ ",
    " +:+ dq +:+ "suggestion" +:+ dq +:+ ": " +:+ dq +:+ "Kiểm tra sự hòa hợp giữa chủ ngữ và động từ." +:+ dq +:+ ",
    " +:+ dq +:+ "example" +:+ dq +:+ ": " +:+ dq +:+ "Incorrect: 'She go to school.' Correct: 'She goes to school.'" +:+ dq +:+ ",
    " +:+ dq +:+ "priority" +:+ dq +:+ ": " +:+ dq +:+ "High" +:+ dq +:+ "
  }
]

Nếu không có thông tin cho trường nào, vẫn phải trả về trường đó với giá trị hợp lệ (ví dụ: 0 cho điểm số, chuỗi rỗng cho text).

IMPORTANT: Tất cả phản hồi (bao gồm nhận xét, điểm số, gợi ý, bản sửa lỗi) PHẢI được viết hoàn toàn bằng "
    +:+ responseLanguagePrompt +:+ ".

Analyze the writing sample now:".

(** [buildReviewPrompt]. *)
Definition buildReviewPrompt `{unicode.Tables} (req : GenerateCommentRequest)
    : string :=
  let userLevelDesc := userLevelDescOf req in
  let category := categoryOf req in
  let responseLanguagePrompt := responseLanguagePromptOf req in
  let wordCount := getTotalWords (Content req) in
  reviewPromptText req userLevelDesc category wordCount responseLanguagePrompt.

(** Go ranges over a map in an order that is not specified and that
    changes from one range to the next.  A [mapOrder] is the order in
    which one range visits the entries of a map; [fairOrder] says that it
    visits each entry once. *)
Definition mapOrder : Type := gmap string Z → list (string * Z).

Definition fairOrder (rangeOrder : mapOrder) : Prop :=
  ∀ dist, rangeOrder dist ≡ₚ map_to_list dist.

(** [formatTypeDistribution]; [rangeOrder] is the order in which its
    range visits [dist]. *)
Definition formatTypeDistribution (rangeOrder : mapOrder)
    (dist : gmap string Z) : string :=
  strings.Join
    (map (λ p : string * Z,
            "- " +:+ p.1 +:+ ": " +:+ strconv.Itoa p.2 +:+ " questions")
         (rangeOrder dist))
    (String (ascii_of_nat 10) EmptyString).

(** The format of [buildGeminiPrompt] applied to its arguments. *)
Definition quizPromptText (rangeOrder : mapOrder)
    (req : GenerateQuizzesRequest) (difficulty : string)
    (typeDistribution : gmap string Z) : string :=
  "Create "
    +:+ strconv.Itoa (TotalQuestions req) +:+ " high-quality quiz questions about " +:+ dq
    +:+ Topic req +:+ dq +:+ " for "
    +:+ EnglishLevel req +:+ " English level students.

REQUIREMENTS:
- English Level: "
    +:+ EnglishLevel req +:+ " ("
    +:+ difficulty +:+ ")
- Topic: "
    +:+ Topic req +:+ "
- Total Questions: "
    +:+ strconv.Itoa (TotalQuestions req) +:+ "
- Each question must be unique and non-repetitive
- Questions should be similar in style to IELTS/TOEIC exams
- Include detailed explanations for answers

QUESTION DISTRIBUTION:
"
    +:+ formatTypeDistribution rangeOrder typeDistribution +:+ "

FORMATTING RULES:
- Return ONLY valid JSON without any markdown formatting or code blocks
- Use this exact JSON structure:
{
  " +:+ dq +:+ "quizzes" +:+ dq +:+ ": [
    {
      " +:+ dq +:+ "type" +:+ dq +:+ ": " +:+ dq +:+ "Multiple Choice" +:+ dq +:+ ",
      " +:+ dq +:+ "question" +:+ dq +:+ ": " +:+ dq +:+ "question text here" +:+ dq +:+ ",
      " +:+ dq +:+ "options" +:+ dq +:+ ": [" +:+ dq +:+ "A" +:+ dq +:+ ", " +:+ dq +:+ "B" +:+ dq +:+ ", " +:+ dq +:+ "C" +:+ dq +:+ ", " +:+ dq +:+ "D" +:+ dq +:+ "],
      " +:+ dq +:+ "correct_index" +:+ dq +:+ ": 0,
      " +:+ dq +:+ "explanation" +:+ dq +:+ ": " +:+ dq +:+ "detailed explanation" +:+ dq +:+ "
    },
    {
      " +:+ dq +:+ "type" +:+ dq +:+ ": " +:+ dq +:+ "Fill in the Blank" +:+ dq +:+ ",
      " +:+ dq +:+ "question" +:+ dq +:+ ": " +:+ dq +:+ "Complete this sentence: The weather today is _____ than yesterday." +:+ dq +:+ ",
      " +:+ dq +:+ "answer" +:+ dq +:+ ": " +:+ dq +:+ "better" +:+ dq +:+ ",
      " +:+ dq +:+ "explanation" +:+ dq +:+ ": " +:+ dq +:+ "explanation here" +:+ dq +:+ "
    },
    {
      " +:+ dq +:+ "type" +:+ dq +:+ ": " +:+ dq +:+ "Short Answer" +:+ dq +:+ ",
      " +:+ dq +:+ "question" +:+ dq +:+ ": " +:+ dq +:+ "question text here" +:+ dq +:+ ",
      " +:+ dq +:+ "answer" +:+ dq +:+ ": " +:+ dq +:+ "expected answer" +:+ dq +:+ ",
      " +:+ dq +:+ "explanation" +:+ dq +:+ ": " +:+ dq +:+ "explanation here" +:+ dq +:+ " 
    },
    {
      " +:+ dq +:+ "type" +:+ dq +:+ ": " +:+ dq +:+ "Essay" +:+ dq +:+ ",
      " +:+ dq +:+ "question" +:+ dq +:+ ": " +:+ dq +:+ "essay question here" +:+ dq +:+ ",
      " +:+ dq +:+ "answer" +:+ dq +:+ ": " +:+ dq +:+ "sample key points or structure" +:+ dq +:+ ",
      " +:+ dq +:+ "explanation" +:+ dq +:+ ": " +:+ dq +:+ "grading criteria and expectations" +:+ dq +:+ "
    }
  ]
}

QUALITY STANDARDS:
- Multiple Choice: 4 options, only one correct, plausible distractors
- Fill in the Blank: Clear context, single correct answer
- Short Answer: Specific, measurable expected responses
- Essay: Clear prompts with specific requirements
- All questions must test different aspects of the topic
- Vary sentence structures and vocabulary within the appropriate level
- Include practical, real-world applications when possible

Generate exactly "
    +:+ strconv.Itoa (TotalQuestions req) +:+ " questions now:".

(** [buildGeminiPrompt]; [None] is the panic of [distributeQuestionTypes],
    and [rangeOrder] the order of the range of [formatTypeDistribution]. *)
Definition buildGeminiPrompt (rangeOrder : mapOrder)
    (req : GenerateQuizzesRequest) : option string :=
  let difficulty :=
    match difficultyMapping !! EnglishLevel req with
    | Some d => d
    | None => "intermediate level"
    end in
  match distributeQuestionTypes (AssignmentTypes req) (TotalQuestions req) with
  | Some typeDistribution =>
    Some (quizPromptText rangeOrder req difficulty typeDistribution)
  | None => None
  end.

(** The prompt of [generateAdditionalQuizzes]. *)
Definition additionalPromptText (req : GenerateQuizzesRequest) (needed : Z)
    : string :=
  "Generate "
    +:+ strconv.Itoa needed +:+ " additional unique quiz questions about " +:+ dq
    +:+ Topic req +:+ dq +:+ " for "
    +:+ EnglishLevel req +:+ " level. 
Make sure these questions are completely different from any previous questions about this topic.
Focus on different aspects, use different vocabulary, and vary the question formats.

Use the same JSON format as before and ensure high quality, IELTS/TOEIC-style questions.".

(** ** Parsing the answers of the model *)

(** The cleaning that both parsers start with. *)
Definition stripFences (response : string) : string :=
  let response := strings.TrimSpace response in
  let response := strings.TrimPrefix response "```json" in
  let response := strings.TrimSuffix response "```" in
  strings.TrimSpace response.

Definition defaultSuggestion : ReviewSuggestion :=
  {| sCategory := "General";
     Issue := "Continue practicing";
     Suggestion := "Keep writing regularly to improve your skills";
     Example := "Practice different types of writing";
     Priority := "Medium" |}.

(** [parseGeminiReviewResponse]. *)
Definition parseGeminiReviewResponse `{unicode.Tables} (response : string)
    : GeminiReviewData + error :=
  let response := stripFences response in
  let '(reviewData, err) :=
    json.Unmarshal (json.storeStruct GeminiReviewData_fields) response
      GeminiReviewData_zero in
  match err with
  | Some err =>
    let '(fallback, err2) :=
      json.Unmarshal (json.storeStruct fallbackReviewData_fields) response
        fallbackReviewData_zero in
    match err2 with
    | None =>
      let sugs :=
        map (λ s, {| sCategory := EmptyString; Issue := EmptyString;
                     Suggestion := s; Example := EmptyString;
                     Priority := EmptyString |})
            (json.elems (fSuggestions fallback)) in
      inl {| EstimatedLevel := fEstimatedLevel fallback;
             Scores := fScores fallback;
             OverallFeedback := fOverallFeedback fallback;
             StrengthPoints := fStrengthPoints fallback;
             ImprovementAreas := fImprovementAreas fallback;
             Suggestions := json.sliceOf sugs;
             CorrectedVersion := fCorrectedVersion fallback |}
    | Some _ => inr (wrapError "failed to parse review JSON: " err)
    end
  | None =>
    let estimatedLevel :=
      if String.eqb (EstimatedLevel reviewData) EmptyString then "B1"
      else EstimatedLevel reviewData in
    if String.eqb (OverallFeedback reviewData) EmptyString then
      inr (errorString "missing overall feedback in API response")
    else
      let suggestions :=
        if Z.of_nat (length (json.elems (Suggestions reviewData))) =? 0
        then json.sliceOf [defaultSuggestion]
        else Suggestions reviewData in
      inl {| EstimatedLevel := estimatedLevel;
             Scores := Scores reviewData;
             OverallFeedback := OverallFeedback reviewData;
             StrengthPoints := StrengthPoints reviewData;
             ImprovementAreas := ImprovementAreas reviewData;
             Suggestions := suggestions;
             CorrectedVersion := CorrectedVersion reviewData |}
  end.

(** The body of the loop of [parseGeminiResponse]: the quizzes kept. *)
Definition keepQuiz (requestedTypes : list string) (gQuiz : GeminiQuiz)
    : option Quiz :=
  let quiz :=
    {| ID := 0;
       Type' := gType gQuiz;
       Question := strings.TrimSpace (gQuestion gQuiz);
       Answer := strings.TrimSpace (gAnswer gQuiz);
       Options := json.elems (gOptions gQuiz);
       CorrectIndex := gCorrectIndex gQuiz;
       Explanation := strings.TrimSpace (gExplanation gQuiz) |} in
  if negb (contains requestedTypes (Type' quiz)) then None
  else if negb (isValidQuiz quiz) then None
  else Some quiz.

(** [parseGeminiResponse]. *)
Definition parseGeminiResponse `{unicode.Tables} (response : string)
    (requestedTypes : list string) : list Quiz + error :=
  let response := stripFences response in
  let '(geminiData, err) :=
    json.Unmarshal (json.storeStruct GeminiQuizData_fields) response
      GeminiQuizData_zero in
  match err with
  | Some err => inr (wrapError "failed to parse JSON: " err)
  | None =>
    inl (omap (keepQuiz requestedTypes) (json.elems (Quizzes geminiData)))
  end.

(** ** Cache keys *)

(** [generateCacheKey]. *)
Definition generateCacheKey `{unicode.Tables} (req : GenerateQuizzesRequest)
    : string :=
  strings.ToLower (Topic req) +:+ "-"
  +:+ strings.Join (AssignmentTypes req) "-" +:+ "-"
  +:+ EnglishLevel req +:+ "-" +:+ strconv.Itoa (TotalQuestions req).

(** [generateReviewCacheKey]. *)
Definition generateReviewCacheKey `{unicode.Tables}
    (req : GenerateCommentRequest) : string :=
  let key := strings.ToLower (Content req) +:+ "-" +:+ UserLevel req +:+ "-"
             +:+ Requirement req +:+ "-" +:+ Category req in
  strconv.FormatHex (str_len key) +:+ "-"
  +:+ strconv.Itoa (getTotalWords (Content req)).

(** ** Statements about the validation of a review request *)

(** "Whenever the word count of the trimmed content is out of bounds, the
    request is rejected with a message that names the violated bound." *)
Definition rejection_names_bound (U : unicode.Tables) : Prop :=
  ∀ request : GenerateCommentRequest,
    let wordCount := getTotalWords (strings.TrimSpace (Content request)) in
    (wordCount < MIN_TOTAL_WORDS →
       ∃ msg, validateReviewRequest request = Some (errorString msg)
              ∧ strings.Contains msg (strconv.Itoa MIN_TOTAL_WORDS) = true)
    ∧ (MAX_TOTAL_WORDS < wordCount →
       ∃ msg, validateReviewRequest request = Some (errorString msg)
              ∧ strings.Contains msg (strconv.Itoa MAX_TOTAL_WORDS) = true).

(** "Every request with an empty user level is accepted, and its prompt
    uses the default level description." *)
Definition empty_level_accepted (U : unicode.Tables) : Prop :=
  ∀ request : GenerateCommentRequest,
    UserLevel request = EmptyString →
    validateReviewRequest request = None
    ∧ userLevelDescOf request = "intermediate".

(** Unicode tables that leave every rune outside ASCII as it is; they are
    used to run the program on ASCII inputs. *)
Definition identityTables : unicode.Tables :=
  {| unicode.To_Upper := λ r, r;
     unicode.To_Lower := λ r, r;
     unicode.foldOrbitMin := λ r, r |}.

Definition emptyReviewRequest : GenerateCommentRequest :=
  {| Content := EmptyString; UserLevel := EmptyString;
     Requirement := EmptyString; Category := EmptyString;
     Language := EmptyString |}.

Definition fiveWordReviewRequest : GenerateCommentRequest :=
  {| Content := "I like to read books"; UserLevel := "B1";
     Requirement := "Describe a hobby"; Category := "essay";
     Language := "en" |}.

Definition elevenWordReviewRequest : GenerateCommentRequest :=
  {| Content := "I like to read books when it rains in the evening";
     UserLevel := EmptyString;
     Requirement := "Describe a hobby"; Category := "essay";
     Language := "en" |}.

(** An answer of the model in which the member "suggestions" occurs
    twice, first as a list of one string and then as the empty list:
    {"overall_feedback":"ok","suggestions":["x"],"suggestions":[]} *)
Definition duplicateSuggestionsAnswer : string :=
  "{" +:+ dq +:+ "overall_feedback" +:+ dq +:+ ":" +:+ dq +:+ "ok" +:+ dq
  +:+ "," +:+ dq +:+ "suggestions" +:+ dq +:+ ":[" +:+ dq +:+ "x" +:+ dq +:+ "],"
  +:+ dq +:+ "suggestions" +:+ dq +:+ ":[]}".

(** ** The handlers *)

Definition setCache (c : gmap string cacheItem) : M unit := λ st,
  Done tt {| cache := c; reviewCache := reviewCache st;
             callNo := callNo st; ticks := ticks st |}.

Definition setReviewCache (c : gmap string reviewCacheItem) : M unit := λ st,
  Done tt {| cache := cache st; reviewCache := c;
             callNo := callNo st; ticks := ticks st |}.

Definition getState : M State := λ st, Done st st.

Definition jsonHeader : gmap string string :=
  {["Content-Type" := "application/json"]}.

Section Handlers.

Context `{unicode.Tables}.

(** [internal.GeminiClient]: nil, or a client whose [n]-th call to
    [Models.GenerateContent], for a model and a prompt, answers with a
    text or an error. *)
Variable GeminiClient : option (nat → string → string → string + error).

(** The successive readings of [time.Now]. *)
Variable clock : nat → Z.

Definition timeNow : M Z := λ st,
  Done (clock (ticks st))
       {| cache := cache st; reviewCache := reviewCache st;
          callNo := callNo st; ticks := S (ticks st) |}.

Definition generateContent (model prompt : string) : M (string + error) :=
  match GeminiClient with
  | None => mret (inr (errorString "Gemini client not initialized"))
  | Some client => λ st,
    Done (client (callNo st) model prompt)
         {| cache := cache st; reviewCache := reviewCache st;
            callNo := S (callNo st); ticks := ticks st |}
  end.

(** [callGeminiAPI]. *)
Definition callGeminiAPI (prompt : string) : M (string + error) :=
  generateContent "gemini-2.0-flash" prompt.

(** [callGeminiForReview]. *)
Definition callGeminiForReview (prompt : string) : M (string + error) :=
  generateContent "gemini-2.0-flash-exp" prompt.

(** [generateAdditionalQuizzes]. *)
Definition generateAdditionalQuizzes (req : GenerateQuizzesRequest)
    (currentCount : Z) : M (list Quiz + error) :=
  let needed := TotalQuestions req - currentCount in
  if needed <=? 0 then mret (inl [])
  else
    let prompt := additionalPromptText req needed in
    response ← callGeminiAPI prompt;
    match response with
    | inr err => mret (inr err)
    | inl response => mret (parseGeminiResponse response (AssignmentTypes req))
    end.

(** The loop that numbers the quizzes. *)
Definition addIDs (quizzes : list Quiz) : list Quiz :=
  imap (λ i quiz,
          {| ID := Z.of_nat i + 1; Type' := Type' quiz;
             Question := Question quiz; Answer := Answer quiz;
             Options := Options quiz; CorrectIndex := CorrectIndex quiz;
             Explanation := Explanation quiz |})
       quizzes.

(** [generateQuizzesWithGemini]; [rangeOrder] is the order in which the
    range of this call visits the distribution of the types. *)
Definition generateQuizzesWithGemini (rangeOrder : mapOrder)
    (req : GenerateQuizzesRequest) : M (QuizResponse + error) :=
  prompt ← orPanic (buildGeminiPrompt rangeOrder req);
  geminiResp ← callGeminiAPI prompt;
  match geminiResp with
  | inr err => mret (inr (wrapError "gemini API call failed: " err))
  | inl geminiResp =>
    match parseGeminiResponse geminiResp (AssignmentTypes req) with
    | inr err => mret (inr (wrapError "failed to parse gemini response: " err))
    | inl quizzes =>
      quizzes ←
        (if Z.of_nat (length quizzes) <? TotalQuestions req then
           additionalQuizzes ←
             generateAdditionalQuizzes req (Z.of_nat (length quizzes));
           match additionalQuizzes with
           | inl more => mret (quizzes ++ more)
           | inr _ => mret quizzes
           end
         else mret quizzes);
      quizzes ←
        (if TotalQuestions req <? Z.of_nat (length quizzes)
         then orPanic (sliceListTo quizzes (TotalQuestions req))
         else mret quizzes);
      let quizzes := addIDs quizzes in
      mret (inl {| qrTopic := Topic req;
                   qrLevel := EnglishLevel req;
                   qrTotal := TotalQuestions req;
                   qrGenerated := Z.of_nat (length quizzes);
                   qrQuizzes := quizzes |})
    end
  end.

(** [GenerateAssignment]; [decoded] is what decoding the body gave,
    [None] when it failed, and [rangeOrder] the order in which the range
    of this request visits the distribution of the types. *)
Definition GenerateAssignment (rangeOrder : mapOrder)
    (decoded : option GenerateQuizzesRequest) : M Response :=
  match decoded with
  | None => mret (httpError ∅ "Invalid JSON request" StatusBadRequest)
  | Some request =>
    match validateRequest request with
    | Some err => mret (httpError ∅ (errorText err) StatusBadRequest)
    | None =>
      let cacheKey := generateCacheKey request in
      now ← timeNow;
      st ← getState;
      match cacheHit (cache st) cacheKey now with
      | Some data =>
        mret {| Status := StatusOK; Header := jsonHeader;
                Body := bodyJSON data |}
      | None =>
        quizResponse ← generateQuizzesWithGemini rangeOrder request;
        match quizResponse with
        | inr err =>
          mret (httpError ∅ "Failed to generate quizzes"
                  StatusInternalServerError)
        | inl quizResponse =>
          st ← getState;
          setCache (<[cacheKey :=
                        {| Data := anyQuizResponse quizResponse;
                           ExpiresAt := now + 10 * Minute |}]> (cache st));;
          mret {| Status := StatusCreated; Header := jsonHeader;
                  Body := bodyJSON (anyQuizResponse quizResponse) |}
        end
      end
    end
  end.

(** [generateReviewWithGemini]. *)
Definition generateReviewWithGemini (req : GenerateCommentRequest)
    (startTime : Z) : M (ReviewResponse + error) :=
  let prompt := buildReviewPrompt req in
  geminiResp ← callGeminiForReview prompt;
  match geminiResp with
  | inr err => mret (inr (wrapError "gemini API call failed: " err))
  | inl geminiResp =>
    match parseGeminiReviewResponse geminiResp with
    | inr err => mret (inr (wrapError "failed to parse gemini response: " err))
    | inl reviewData =>
      since ← timeNow;
      let processingTime := since - startTime in
      generatedAt ← timeNow;
      mret (inl {| rrContent := Content req;
                   rrUserLevel := UserLevel req;
                   rrRequirement := Requirement req;
                   rrWordCount := getTotalWords (Content req);
                   rrEstimatedLevel := EstimatedLevel reviewData;
                   rrScores := Scores reviewData;
                   rrOverallFeedback := OverallFeedback reviewData;
                   rrStrengthPoints := json.elems (StrengthPoints reviewData);
                   rrImprovementAreas :=
                     json.elems (ImprovementAreas reviewData);
                   rrSuggestions := json.elems (Suggestions reviewData);
                   rrCorrectedVersion := CorrectedVersion reviewData;
                   rrGeneratedAt := generatedAt;
                   rrProcessingTime := processingTime |})
    end
  end.

Definition reviewHeader : gmap string string :=
  <["Cache-Control" :=
      "public, max-age=" +:+ strconv.Itoa (CACHE_DURATION `quot` 1000000000)]>
    jsonHeader.

Definition unavailableMessage : list (string * string) :=
  [("error", "service_unavailable");
   ("message",
    "## CẢNH BÁO" +:+ String (ascii_of_nat 10)
    "EngPal đang bận đi pha cà phê nên tạm thời vắng mặt. bé yêu vui lòng ngồi chơi 3 phút rồi gửi lại cho EngPal nhận xét nha."
    +:+ String (ascii_of_nat 10) "Yêu bé yêu nhiều lắm luôn á!")].

(** [GenerateReview].  On a hit the handler logs the first ten bytes of
    the key, [cacheKey[:10]], before it writes the cached value. *)
Definition GenerateReview (decoded : option GenerateCommentRequest)
    : M Response :=
  startTime ← timeNow;
  match decoded with
  | None =>
    mret (httpError reviewHeader "Invalid JSON request" StatusBadRequest)
  | Some request =>
    match validateReviewRequest request with
    | Some err =>
      mret (httpError reviewHeader (errorText err) StatusBadRequest)
    | None =>
      let cacheKey := generateReviewCacheKey request in
      now ← timeNow;
      st ← getState;
      match reviewCacheHit (reviewCache st) cacheKey now with
      | Some data =>
        orPanic (sliceTo cacheKey 10);;
        mret {| Status := StatusOK; Header := reviewHeader;
                Body := bodyJSON data |}
      | None =>
        reviewResponse ← generateReviewWithGemini request startTime;
        match reviewResponse with
        | inr err =>
          mret {| Status := StatusServiceUnavailable;
                  Header := reviewHeader;
                  Body := bodyJSONMap unavailableMessage |}
        | inl reviewResponse =>
          st ← getState;
          setReviewCache
            (<[cacheKey :=
                 {| rData := anyReviewResponse reviewResponse;
                    rExpiresAt := now + CACHE_DURATION |}]> (reviewCache st));;
          mret {| Status := StatusOK; Header := reviewHeader;
                  Body := bodyJSON (anyReviewResponse reviewResponse) |}
        end
      end
    end
  end.

(** [ClearReviewCache]. *)
Definition ClearReviewCache : M Response :=
  setReviewCache ∅;;
  mret {| Status := StatusOK; Header := jsonHeader;
          Body := bodyJSONMap
                    [("status", "success");
                     ("message", "Review cache cleared successfully")] |}.

End Handlers.

(** What the second call to the model adds to the [quizzes] of the first
    answer, [n] being the number of the first call: nothing when no quiz
    is missing; else the quizzes of the answer to the prompt for the
    missing ones, and nothing when that call fails or its answer does not
    parse. *)
Definition backfill `{unicode.Tables}
    (client : nat → string → string → string + error)
    (req : GenerateQuizzesRequest) (n : nat) (quizzes : list Quiz)
    : list Quiz :=
  let missing := TotalQuestions req - Z.of_nat (length quizzes) in
  if 0 <? missing then
    match client (S n) "gemini-2.0-flash" (additionalPromptText req missing) with
    | inl text =>
      match parseGeminiResponse text (AssignmentTypes req) with
      | inl more => more
      | inr _ => []
      end
    | inr _ => []
    end
  else [].

(** ** Sample runs *)

Definition jsonString (s : string) : string := dq +:+ s +:+ dq.

(** An answer of the model with three essay questions. *)
Definition threeEssaysAnswer : string :=
  let essay (text : string) :=
    "{" +:+ jsonString "type" +:+ ":" +:+ jsonString "Essay" +:+ ","
    +:+ jsonString "question" +:+ ":" +:+ jsonString text +:+ "}" in
  "```json" +:+ "{" +:+ jsonString "quizzes" +:+ ":["
  +:+ essay "Describe your last journey." +:+ ","
  +:+ essay "Why do people travel?" +:+ ","
  +:+ essay "Compare two cities you know." +:+ "]}" +:+ "```".

(** An answer of the model to a review prompt. *)
Definition reviewAnswer : string :=
  "{" +:+ jsonString "estimated_level" +:+ ":" +:+ jsonString "B1" +:+ ","
  +:+ jsonString "overall_feedback" +:+ ":" +:+ jsonString "Clear and simple."
  +:+ "," +:+ jsonString "suggestions" +:+ ":[]}".

(** A client that always answers with the same text. *)
Definition constantClient (answer : string)
    : option (nat → string → string → string + error) :=
  Some (λ _ _ _, inl answer).

Definition twoEssaysRequest : GenerateQuizzesRequest :=
  {| Topic := "Travel"; AssignmentTypes := ["Essay"];
     EnglishLevel := "B1 - Intermediate"; TotalQuestions := 2 |}.

Definition initialState : State :=
  {| cache := ∅; reviewCache := ∅; callNo := 0; ticks := 0 |}.

(** A clock that advances by one second at each reading. *)
Definition secondsClock (n : nat) : Z := Z.of_nat n * 1000000000.

Definition cachedReviewRequest : GenerateCommentRequest :=
  {| Content := "I like to read books when it rains in the evening";
     UserLevel := "b1";
     Requirement := "Describe a hobby"; Category := "essay";
     Language := "en" |}.

(** Two states with the same caches. *)
Definition sameCaches (st st' : State) : Prop :=
  cache st' = cache st ∧ reviewCache st' = reviewCache st.

(** * The rest of the program *)

(** ** The enumerations of the package entities and the tables the
    handlers serve *)

Module entities.

(** [AssignmentType] and [EnglishLevel] are integer types whose constants
    count from 1. *)
Definition MultipleChoice : Z := 1.
Definition FillInTheBlank : Z := 2.
Definition ShortAnswer : Z := 3.
Definition Essay : Z := 4.

Definition AssignmentTypeNames : gmap Z string :=
  list_to_map
    [ (MultipleChoice, "Multiple Choice");
      (FillInTheBlank, "Fill in the Blank");
      (ShortAnswer, "Short Answer");
      (Essay, "Essay") ].

(** [AssignmentType.String]: the name, or the empty string of a missing
    key. *)
Definition AssignmentType_String (a : Z) : string :=
  default EmptyString (AssignmentTypeNames !! a).

Definition A1Beginner : Z := 1.
Definition A2Elementary : Z := 2.
Definition B1Intermediate : Z := 3.
Definition B2UpperIntermediate : Z := 4.
Definition C1Advanced : Z := 5.
Definition C2Proficient : Z := 6.

Definition EnglishLevelNames : gmap Z string :=
  list_to_map
    [ (A1Beginner, "A1 - Beginner");
      (A2Elementary, "A2 - Elementary");
      (B1Intermediate, "B1 - Intermediate");
      (B2UpperIntermediate, "B2 - Upper Intermediate");
      (C1Advanced, "C1 - Advanced");
      (C2Proficient, "C2 - Proficient") ].

(** [EnglishLevel.String]. *)
Definition EnglishLevel_String (e : Z) : string :=
  default EmptyString (EnglishLevelNames !! e).

End entities.

(** [englishLevels] and [assignmentTypes] of the assignment handler, which
    [GetEnglishLevels] and [GetAssignmentTypes] serve. *)
Definition englishLevels : gmap Z string :=
  list_to_map
    [ (1, "A1 - Beginner");
      (2, "A2 - Elementary");
      (3, "B1 - Intermediate");
      (4, "B2 - Upper Intermediate");
      (5, "C1 - Advanced");
      (6, "C2 - Proficient") ].

Definition assignmentTypes : gmap Z string :=
  list_to_map
    [ (1, "Multiple Choice");
      (2, "Fill in the Blank");
      (3, "Short Answer");
      (4, "Essay") ].

(** A request of four words for three questions of two types. *)
Definition climateRequest : GenerateQuizzesRequest :=
  {| Topic := "  Climate change and cities ";
     AssignmentTypes := ["Multiple Choice"; "Essay"];
     EnglishLevel := "B2 - Upper Intermediate";
     TotalQuestions := 3 |}.

(** The state after one reading of the clock. *)
Definition afterTick (st : State) : State :=
  {| cache := cache st; reviewCache := reviewCache st;
     callNo := callNo st; ticks := S (ticks st) |}.

(** The request of [twoEssaysRequest] with its topic in capitals. *)
Definition capitalsRequest : GenerateQuizzesRequest :=
  {| Topic := "TRAVEL"; AssignmentTypes := ["Essay"];
     EnglishLevel := "B1 - Intermediate"; TotalQuestions := 2 |}.

(** What [parseGeminiResponse] keeps: valid quizzes of a requested type,
    whose texts have been trimmed. *)
Definition keptQuiz `{unicode.Tables} (requestedTypes : list string)
    (quiz : Quiz) : Prop :=
  isValidQuiz quiz = true
  ∧ Type' quiz ∈ requestedTypes
  ∧ Type' quiz ∈ ["Multiple Choice"; "Fill in the Blank"; "Short Answer";
                  "Essay"]
  ∧ Question quiz ≠ EmptyString
  ∧ strings.TrimSpace (Question quiz) = Question quiz
  ∧ strings.TrimSpace (Answer quiz) = Answer quiz
  ∧ strings.TrimSpace (Explanation quiz) = Explanation quiz.

(** Membership in a list that is written out. *)
Ltac in_list :=
  repeat first [apply list_elem_of_here | apply list_elem_of_further].

(** The text whose length [generateReviewCacheKey] prints. *)
Definition reviewKeyText `{unicode.Tables} (req : GenerateCommentRequest)
    : string :=
  strings.ToLower (Content req) +:+ "-" +:+ UserLevel req +:+ "-"
  +:+ Requirement req +:+ "-" +:+ Category req.

(** [check] on the [fuel] integers from [n] on. *)
Fixpoint checkFrom (check : Z → bool) (fuel : nat) (n : Z) : bool :=
  match fuel with
  | O => true
  | S fuel => check n && checkFrom check fuel (n + 1)
  end.

(** ** The package utils *)

(** [unicode.IsLetter] and [unicode.IsDigit] are range tables of the Go
    distribution; [IsEnglish] is verified for whatever they hold. *)
Class Categories : Type := {
  Is_Letter : Z → bool;
  Is_Digit : Z → bool
}.

(** The loop of [IsEnglish] over the runes of its input. *)
Fixpoint isEnglishLoop `{Categories} (cs : list (Z * string)) : bool :=
  match cs with
  | [] => true
  | (c, _) :: cs' =>
    if Is_Letter c && (unicode.MaxASCII <? c) then false
    else if (unicode.MaxASCII <? c) && negb (unicode.IsSpace c)
            && negb (Is_Digit c) then false
    else isEnglishLoop cs'
  end.

(** [utils.IsEnglish]. *)
Definition IsEnglish `{Categories} (input : string) : bool :=
  isEnglishLoop (utf8.runes input).

(** A string whose bytes are all below 0x80. *)
Fixpoint allASCII (s : string) : bool :=
  match s with
  | EmptyString => true
  | String c t => (byte_val c <? 0x80) && allASCII t
  end.

(** What [IsEnglish] lets through: a rune of ASCII, or a rune that is not
    a letter and is a space or a digit. *)
Definition englishRune `{Categories} (c : Z) : Prop :=
  c <= unicode.MaxASCII
  ∨ (Is_Letter c = false ∧ (unicode.IsSpace c = true ∨ Is_Digit c = true)).

(** ** The chatbot *)

Record Conversation : Type := {
  cQuestion : string
}.

Record ChatResponse : Type := {
  MessageInMarkdown : string
}.

(** What [GenerateAnswer] writes: the status (200 when [WriteHeader] is
    not called before the body is written) and the body. *)
Inductive chatBody : Type :=
| chatText (text : string)
| chatMap (m : list (string * string))
| chatJSON (r : ChatResponse).

Record ChatReply : Type := {
  chatStatus : Z;
  chatBodyOf : chatBody
}.

Definition newline : string := String (ascii_of_nat 10) EmptyString.

Definition emptyQuestionMessage : string :=
  "Gửi vội vậy bé yêu! Chưa nhập câu hỏi kìa.".

Definition longQuestionMessage : string :=
  "Hỏi ngắn thôi bé yêu, bộ mắc hỏi quá hay gì 💢" +:+ newline
  +:+ "Hỏi câu nào dưới 30 từ thôi, để thời gian cho anh suy nghĩ với chứ.".

Definition busyMessage : string :=
  "Nhắn từ từ thôi bé yêu, bộ mắc đi đẻ quá hay gì 💢" +:+ newline
  +:+ "Ngồi đợi 1 phút cho anh đi uống ly cà phê đã. Sau 1 phút mà vẫn lỗi thì xóa lịch sử trò chuyện rồi thử lại nha!".

Definition sampleAnswer : string := "Đây là câu trả lời mẫu từ chatbot! 🚀".

(** [generateChatbotResponse]. *)
Definition generateChatbotResponse (request : Conversation)
    (username gender age englishLevel : string)
    (enableReasoning enableSearching : bool) : ChatResponse + error :=
  if strings.Contains (cQuestion request) "error" then
    inr (errorString "error generating response")
  else inl {| MessageInMarkdown := sampleAnswer |}.

(** [GenerateAnswer]; [decoded] is what decoding the body gave, [query]
    is [r.URL.Query().Get]. *)
Definition GenerateAnswer (decoded : option Conversation)
    (query : string → string) : ChatReply :=
  match decoded with
  | None =>
    {| chatStatus := StatusBadRequest;
       chatBodyOf := chatText ("Invalid JSON request" +:+ newline) |}
  | Some request =>
    let username := query "username" in
    let gender := query "gender" in
    let age := query "age" in
    let englishLevel := query "english_level" in
    let enableReasoning := String.eqb (query "enable_reasoning") "true" in
    let enableSearching := String.eqb (query "enable_searching") "true" in
    let request := {| cQuestion := strings.TrimSpace (cQuestion request) |} in
    if String.eqb (cQuestion request) EmptyString then
      {| chatStatus := StatusOK;
         chatBodyOf := chatMap [("message", emptyQuestionMessage)] |}
    else if 30 <? GetTotalWords (cQuestion request) then
      {| chatStatus := StatusOK;
         chatBodyOf := chatMap [("message", longQuestionMessage)] |}
    else
      match generateChatbotResponse request username gender age englishLevel
              enableReasoning enableSearching with
      | inr _ =>
        {| chatStatus := StatusOK;
           chatBodyOf := chatJSON {| MessageInMarkdown := busyMessage |} |}
      | inl result =>
        {| chatStatus := StatusOK; chatBodyOf := chatJSON result |}
      end
  end.

(** ** The suggestion of topics *)

(** [topics[i], topics[j] = topics[j], topics[i]]; [None] is the panic of
    an index out of range. *)
Definition swap (topics : list string) (i j : nat) : option (list string) :=
  match topics !! i, topics !! j with
  | Some x, Some y => Some (<[j := x]> (<[i := y]> topics))
  | _, _ => None
  end.

(** The loop of [rand.Shuffle], from the index [i] down to 1; [int31n k n]
    is what the [k]-th call to the generator answers for the bound [n]. *)
Fixpoint shuffleLoop (int31n : nat → nat → nat) (k i : nat)
    (topics : list string) : option (list string) :=
  match i with
  | O => Some topics
  | S i' =>
    let j := int31n k (i + 1)%nat in
    topics ← swap topics i j;
    shuffleLoop int31n (S k) i' topics
  end.

(** [rand.Shuffle(len(topics), swap)]. *)
Definition Shuffle (int31n : nat → nat → nat) (topics : list string)
    : option (list string) :=
  shuffleLoop int31n 0 (length topics - 1) topics.

Definition topicPool : list string :=
  [ "Business Communication"; "Environmental Science";
    "Technology Innovation"; "Global Economics"; "Cultural Diversity";
    "Health and Wellness"; "Digital Marketing"; "Sustainable Development";
    "Artificial Intelligence"; "International Relations"; "Climate Change";
    "Social Media Impact" ].

(** [SuggestTopics]: the list written under "topics", with the status
    200; [None] is a panic. *)
Definition SuggestTopics (int31n : nat → nat → nat) : option (list string) :=
  topics ← Shuffle int31n topicPool;
  sliceListTo topics 5.

(** A request with another text of the same length and the same number of
    words as the one of [cachedReviewRequest]. *)
Definition otherReviewRequest : GenerateCommentRequest :=
  {| Content := "I want to play chess when it snows in the morning";
     UserLevel := "b1";
     Requirement := "Describe a hobby"; Category := "essay";
     Language := "en" |}.

(** An answer of the model with one essay question, and a client that
    gives it to the first call and [threeEssaysAnswer] to the later ones. *)
Definition oneEssayAnswer : string :=
  "{" +:+ jsonString "quizzes" +:+ ":[{"
  +:+ jsonString "type" +:+ ":" +:+ jsonString "Essay" +:+ ","
  +:+ jsonString "question" +:+ ":" +:+ jsonString "What is a journey?"
  +:+ "}]}".

Definition shortThenLongClient : nat → string → string → string + error :=
  λ n _ _, inl (match n with O => oneEssayAnswer | S _ => threeEssaysAnswer end).

(** Answers of the model in which the member "quizzes" comes more than
    once:
    {"quizzes":[{"type":"Essay","question":"Q"}],"quizzes":[{}]}
    and, [a], [b], [x] and [p] being essay questions,
    {"quizzes":[a,b],"quizzes":[x],"quizzes":[p,{}]} *)
Definition repeatedQuizzesAnswer : string :=
  "{" +:+ jsonString "quizzes" +:+ ":[{"
  +:+ jsonString "type" +:+ ":" +:+ jsonString "Essay" +:+ ","
  +:+ jsonString "question" +:+ ":" +:+ jsonString "Q" +:+ "}],"
  +:+ jsonString "quizzes" +:+ ":[{}]}".

Definition thriceQuizzesAnswer : string :=
  let essay (text : string) :=
    "{" +:+ jsonString "type" +:+ ":" +:+ jsonString "Essay" +:+ ","
    +:+ jsonString "question" +:+ ":" +:+ jsonString text +:+ "}" in
  "{" +:+ jsonString "quizzes" +:+ ":[" +:+ essay "a" +:+ "," +:+ essay "b"
  +:+ "]," +:+ jsonString "quizzes" +:+ ":[" +:+ essay "x" +:+ "],"
  +:+ jsonString "quizzes" +:+ ":[" +:+ essay "p" +:+ ",{}]}".

(** * Properties *)

(** ** Byte strings *)

Lemma str_app_cons (c : ascii) (s t : string) :
  String c s +:+ t = String c (s +:+ t).
Proof. reflexivity. Qed.

Lemma str_app_nil_l (s : string) : EmptyString +:+ s = s.
Proof. reflexivity. Qed.

Lemma str_app_nil_r (s : string) : s +:+ EmptyString = s.
Proof.
  induction s as [|c s IH]; [done |]. by rewrite str_app_cons, IH.
Qed.

Lemma str_app_assoc (a b c : string) : (a +:+ b) +:+ c = a +:+ (b +:+ c).
Proof.
  induction a as [|x a IH]; [done |]. by rewrite !str_app_cons, IH.
Qed.

Lemma str_app_length (a b : string) :
  String.length (a +:+ b) = (String.length a + String.length b)%nat.
Proof.
  induction a as [|x a IH]; [done |]. rewrite str_app_cons. simpl. by rewrite IH.
Qed.

Lemma str_take_drop (n : nat) (s : string) : str_take n s +:+ str_drop n s = s.
Proof.
  revert s; induction n as [|n IH]; intros [|c s]; simpl; try done.
  rewrite str_app_cons. f_equal. apply IH.
Qed.

Lemma str_drop_length (n : nat) (s : string) :
  String.length (str_drop n s) = (String.length s - n)%nat.
Proof.
  revert s; induction n as [|n IH]; intros [|c s]; simpl; try done.
Qed.

Lemma str_app_eq_nil (a b : string) :
  a +:+ b = EmptyString → a = EmptyString ∧ b = EmptyString.
Proof. destruct a; [done | rewrite str_app_cons; discriminate]. Qed.

(** ** Decoding *)

#[local] Arguments utf8.DecodeRuneInString : simpl never.

Lemma DecodeRune_size (s : string) :
  s ≠ EmptyString →
  (1 <= (utf8.DecodeRuneInString s).2 <= String.length s)%nat.
Proof.
  intros Hs. destruct s as [|c0 t0]; [done | clear Hs].
  unfold utf8.DecodeRuneInString.
  destruct (utf8.first (byte_val c0)) as [| |sz lo hi]; simpl; try lia.
  destruct (Nat.ltb_spec (S (String.length t0)) sz); simpl; [lia |].
  destruct t0 as [|c1 t1]; simpl; [lia |].
  destruct (_ || _); simpl; [lia |].
  destruct (sz <=? 2)%nat; simpl; [lia |].
  destruct t1 as [|c2 t2]; simpl; [lia |].
  destruct (_ || _); simpl; [lia |].
  destruct (sz <=? 3)%nat; simpl; [lia |].
  destruct t2 as [|c3 t3]; simpl; [lia |].
  destruct (_ || _); simpl; lia.
Qed.

Lemma rangeString_fuel (n m : nat) (s : string) :
  (String.length s <= n)%nat → (String.length s <= m)%nat →
  utf8.rangeString n s = utf8.rangeString m s.
Proof.
  revert m s; induction n as [|n IH]; intros m s Hn Hm.
  - destruct s; simpl in Hn; [| lia]. by destruct m.
  - destruct m as [|m].
    + destruct s; simpl in Hm; [done | lia].
    + destruct s as [|c t]; [done |].
      cbn [utf8.rangeString].
      destruct (utf8.DecodeRuneInString (String c t)) as [r size] eqn:Hd.
      f_equal.
      pose proof (DecodeRune_size (String c t) ltac:(done)) as Hsz.
      rewrite Hd in Hsz; simpl in Hsz.
      apply IH; rewrite str_drop_length; simpl in *; lia.
Qed.

(** One step of the range loop. *)
Lemma runes_cons (c : ascii) (t : string) :
  utf8.runes (String c t) =
  ((utf8.DecodeRuneInString (String c t)).1,
   str_take (utf8.DecodeRuneInString (String c t)).2 (String c t))
  :: utf8.runes (str_drop (utf8.DecodeRuneInString (String c t)).2 (String c t)).
Proof.
  unfold utf8.runes. cbn [String.length utf8.rangeString].
  pose proof (DecodeRune_size (String c t) ltac:(done)) as Hsz.
  destruct (utf8.DecodeRuneInString (String c t)) as [r size]; simpl in *.
  f_equal. apply rangeString_fuel; [| done].
  destruct size as [|size]; [lia |]. simpl. rewrite str_drop_length. lia.
Qed.

(** An induction principle that follows the range loop. *)
Lemma runes_ind (P : string → Prop) :
  P EmptyString →
  (∀ s, s ≠ EmptyString →
        P (str_drop (utf8.DecodeRuneInString s).2 s) → P s) →
  ∀ s, P s.
Proof.
  intros H0 Hstep s.
  remember (String.length s) as n eqn:Hn.
  revert s Hn. induction n as [n IH] using lt_wf_ind. intros s ->.
  destruct s as [|c t]; [done |].
  apply Hstep; [done |].
  pose proof (DecodeRune_size (String c t) ltac:(done)) as Hsz.
  eapply IH; [| reflexivity]. rewrite str_drop_length. lia.
Qed.

Lemma bytesOf_runes (s : string) : strings.bytesOf (utf8.runes s) = s.
Proof.
  induction s as [| s Hs IH] using runes_ind; [done |].
  destruct s as [|c t]; [done |].
  rewrite runes_cons. unfold strings.bytesOf in *. cbn [map str_concat snd].
  rewrite IH. apply str_take_drop.
Qed.

Lemma runes_raw_nonempty (s : string) :
  Forall (λ c : Z * string, c.2 ≠ EmptyString) (utf8.runes s).
Proof.
  induction s as [| s Hs IH] using runes_ind; [constructor |].
  destruct s as [|c t]; [done |].
  rewrite runes_cons. constructor; [| done].
  pose proof (DecodeRune_size (String c t) ltac:(done)) as Hsz.
  destruct (utf8.DecodeRuneInString (String c t)) as [r [|size]];
    simpl in *; [lia | done].
Qed.

(** ** Fields and TrimSpace *)

Lemma fieldsLoop_spans f cs cur spans :
  strings.fieldsLoop f cs cur spans = spans ++ strings.fieldsLoop f cs cur [].
Proof.
  revert cur spans. induction cs as [|[r raw] cs IH]; intros cur spans.
  - destruct cur; simpl; [done | by rewrite app_nil_r].
  - simpl. destruct (f r), cur; try apply IH.
    rewrite IH, (IH None [s]). by rewrite app_assoc.
Qed.

Lemma fieldsLoop_spaces f ws cs spans :
  Forall (λ c : Z * string, f c.1 = true) ws →
  strings.fieldsLoop f (ws ++ cs) None spans = strings.fieldsLoop f cs None spans.
Proof.
  induction 1 as [|[r raw] ws Hr _ IH]; [done |].
  simpl in *. by rewrite Hr.
Qed.

Lemma fieldsLoop_word f w cs t spans :
  Forall (λ c : Z * string, f c.1 = false) w →
  strings.fieldsLoop f (w ++ cs) (Some t) spans =
  strings.fieldsLoop f cs (Some (t +:+ strings.bytesOf w)) spans.
Proof.
  intros Hw. revert t. induction Hw as [|[r raw] w Hr _ IH]; intros t.
  - simpl. unfold strings.bytesOf. simpl. by rewrite str_app_nil_r.
  - simpl in *. rewrite Hr, IH. unfold strings.bytesOf. simpl.
    by rewrite str_app_assoc.
Qed.

Lemma fieldsLoop_all_space f cs :
  Forall (λ c : Z * string, f c.1 = true) cs →
  strings.fieldsLoop f cs None [] = [].
Proof.
  intros H. rewrite <- (app_nil_r cs). by rewrite fieldsLoop_spaces.
Qed.

(** The loop of [FieldsFunc] returns the maximal runs. *)
Lemma fieldsLoop_Tokens f cs toks :
  Tokens f cs toks →
  strings.fieldsLoop f cs None [] = map strings.bytesOf toks.
Proof.
  induction 1 as [ws Hws | ws w rest toks Hws Hne Hw Hrest Htok IH].
  - by apply fieldsLoop_all_space.
  - rewrite fieldsLoop_spaces by done.
    destruct w as [|[r raw] w]; [done |].
    apply Forall_cons in Hw as [Hr Hw]. simpl in Hr.
    cbn [app strings.fieldsLoop]. rewrite Hr.
    rewrite fieldsLoop_word by done.
    change (raw +:+ strings.bytesOf w) with (strings.bytesOf ((r, raw) :: w)).
    destruct Hrest as [-> | (c & rest' & -> & Hc)].
    + inversion Htok as [ws' _ |]; subst; [done |].
      by destruct ws, w0.
    + destruct c as [rc rawc]. simpl in Hc.
      cbn [strings.fieldsLoop]. rewrite Hc.
      rewrite fieldsLoop_spans. cbn [map app]. f_equal.
      rewrite <- IH. cbn [strings.fieldsLoop]. by rewrite Hc.
Qed.

(** The longest prefix of runes satisfying [f]. *)
Lemma span_spaces (f : Z → bool) (cs : list (Z * string)) :
  ∃ ws tl, cs = ws ++ tl ∧ Forall (λ c, f c.1 = true) ws
           ∧ (tl = [] ∨ ∃ c tl', tl = c :: tl' ∧ f c.1 = false).
Proof.
  induction cs as [|c cs (ws & tl & -> & Hws & Htl)].
  - exists [], []. split; [done |]. split; [constructor | by left].
  - destruct (f c.1) eqn:Hc.
    + exists (c :: ws), tl. split; [done |]. split; [by constructor | done].
    + exists [], (c :: ws ++ tl). split; [done |].
      split; [constructor | right; eauto].
Qed.

(** Two decompositions of the same runes have the same number of
    tokens, made of the same bytes. *)
Lemma Tokens_bytes_unique f cs toks1 toks2 :
  Tokens f cs toks1 → Tokens f cs toks2 →
  map strings.bytesOf toks1 = map strings.bytesOf toks2
  ∧ length toks1 = length toks2.
Proof.
  intros H1%fieldsLoop_Tokens H2%fieldsLoop_Tokens.
  assert (map strings.bytesOf toks1 = map strings.bytesOf toks2) as Heq
    by congruence.
  split; [done |]. by rewrite <- (length_map strings.bytesOf), Heq, length_map.
Qed.

(** Every rune sequence has a decomposition into maximal runs. *)
Lemma Tokens_exists f cs : ∃ toks, Tokens f cs toks.
Proof.
  remember (length cs) as n eqn:Hn. revert cs Hn.
  induction n as [n IH] using lt_wf_ind. intros cs ->.
  destruct (span_spaces f cs) as (ws & tl & -> & Hws & Htl).
  destruct tl as [|c tl].
  - exists []. rewrite app_nil_r. by constructor.
  - destruct (span_spaces (λ r, negb (f r)) (c :: tl))
      as (w & rest & Heq & Hw & Hrest).
    destruct (IH (length rest)) with (cs := rest) as [toks Htoks]; [| done |].
    { rewrite Heq, !length_app. destruct w; simpl.
      - destruct Htl as [| (c' & tl' & Hctl & Hc')]; [done |].
        destruct Hrest as [-> | (c'' & rest' & -> & Hc'')]; [done |].
        simpl in Heq. simplify_eq. destruct (f c'.1); done.
      - lia. }
    exists (w :: toks). rewrite Heq. constructor; try done.
    + destruct w; [| done].
      destruct Htl as [| (c' & tl' & Hctl & Hc')]; [done |].
      destruct Hrest as [-> | (c'' & rest' & -> & Hc'')]; [done |].
      simpl in Heq. simplify_eq. destruct (f c'.1); done.
    + eapply Forall_impl; [exact Hw |]. intros x Hx. simpl in Hx.
      by destruct (f x.1).
    + destruct Hrest as [-> | (c'' & rest' & -> & Hc'')]; [by left | right].
      exists c'', rest'. split; [done |]. by destruct (f c''.1).
Qed.

Lemma trimLeft_split f cs :
  ∃ ws, cs = ws ++ strings.trimLeft f cs ∧ Forall (λ c, f c.1 = true) ws.
Proof.
  induction cs as [|c cs (ws & Heq & Hws)]; [by exists [] |].
  simpl. destruct (f c.1) eqn:Hc.
  - exists (c :: ws). split; [by rewrite <- app_comm_cons, <- Heq | by constructor].
  - by exists [].
Qed.

Lemma trimRight_split f cs :
  ∃ ws, cs = strings.trimRight f cs ++ ws ∧ Forall (λ c, f c.1 = true) ws.
Proof.
  induction cs as [|c cs (ws & Heq & Hws)]; [by exists [] |].
  simpl. destruct (strings.trimRight f cs) as [|c' l] eqn:Ht.
  - destruct (f c.1) eqn:Hc.
    + exists (c :: ws). simpl in Heq. split; [by rewrite <- Heq | by constructor].
    + exists ws. simpl in *. split; [by rewrite <- Heq | done].
  - exists ws. split; [| done]. rewrite <- app_comm_cons. by rewrite <- Heq.
Qed.

Lemma trim_nil_all_space f cs :
  strings.trimRight f (strings.trimLeft f cs) = [] →
  Forall (λ c, f c.1 = true) cs.
Proof.
  intros Hnil.
  destruct (trimLeft_split f cs) as (ws & Heq & Hws).
  destruct (trimRight_split f (strings.trimLeft f cs)) as (ws' & Heq' & Hws').
  rewrite Hnil in Heq'. simpl in Heq'. rewrite Heq, Heq'.
  by apply Forall_app.
Qed.

Lemma all_space_trim_nil f cs :
  Forall (λ c, f c.1 = true) cs →
  strings.trimRight f (strings.trimLeft f cs) = [].
Proof.
  induction 1 as [|c cs Hc _ IH]; [done |]. simpl. by rewrite Hc.
Qed.

Lemma bytesOf_nil cs :
  Forall (λ c : Z * string, c.2 ≠ EmptyString) cs →
  strings.bytesOf cs = EmptyString → cs = [].
Proof.
  destruct 1 as [|c cs Hc _]; [done |].
  unfold strings.bytesOf. simpl. intros [? _]%str_app_eq_nil. done.
Qed.

Lemma Forall_sublist_app {A} (P : A → Prop) (l a b c : list A) :
  l = a ++ b ++ c → Forall P l → Forall P b.
Proof.
  intros -> H. apply Forall_app in H as [_ H]. by apply Forall_app in H as [H _].
Qed.

(** [TrimSpace] returns the empty string exactly on white space. *)
Lemma TrimSpace_empty_iff (s : string) :
  strings.TrimSpace s = EmptyString ↔ whitespaceOnly s.
Proof.
  unfold strings.TrimSpace, strings.TrimFunc, whitespaceOnly. split.
  - intros H. apply trim_nil_all_space. apply bytesOf_nil; [| done].
    destruct (trimLeft_split unicode.IsSpace (utf8.runes s)) as (ws & Heq & _).
    destruct (trimRight_split unicode.IsSpace
                (strings.trimLeft unicode.IsSpace (utf8.runes s)))
      as (ws' & Heq' & _).
    eapply Forall_sublist_app; [| apply (runes_raw_nonempty s)].
    rewrite Heq at 1. rewrite Heq' at 1. reflexivity.
  - intros H. by rewrite all_space_trim_nil.
Qed.

Lemma Fields_whitespaceOnly (s : string) :
  whitespaceOnly s → strings.Fields s = [].
Proof. apply fieldsLoop_all_space. Qed.

(** ** Decoding a prefix *)

Lemma first_SZ (b : Z) (sz : nat) (lo hi : Z) :
  utf8.first b = utf8.SZ sz lo hi →
  (sz = 2 ∨ sz = 3 ∨ sz = 4)%nat ∧ utf8.locb <= lo ∧ hi <= utf8.hicb
  ∧ utf8.hicb < b.
Proof.
  unfold utf8.first, utf8.locb, utf8.hicb.
  repeat case_match; intros [= <- <- <-]; lia.
Qed.

Lemma first_not_cont (c : ascii) :
  utf8.first (byte_val c) ≠ utf8.XX → startsRune (String c EmptyString).
Proof.
  unfold utf8.first, startsRune, utf8.locb, utf8.hicb.
  repeat case_match; intros ?; try done; lia.
Qed.

Lemma not_cont_out_of_range (c : ascii) (t : string) (lo hi : Z) :
  startsRune (String c t) → utf8.locb <= lo → hi <= utf8.hicb →
  (byte_val c <? lo) || (hi <? byte_val c) = true.
Proof.
  unfold startsRune. intros [H | H] Hlo Hhi; apply orb_true_iff; [left | right]; lia.
Qed.

(** What follows a string does not change the decoding of its first rune,
    as long as it does not start with a continuation byte. *)
Lemma DecodeRune_app (s b : string) :
  s ≠ EmptyString → startsRune b →
  utf8.DecodeRuneInString (s +:+ b) = utf8.DecodeRuneInString s.
Proof.
  intros Hs Hb. destruct s as [|c0 t0]; [done | clear Hs].
  rewrite str_app_cons. unfold utf8.DecodeRuneInString.
  destruct (utf8.first (byte_val c0)) as [| |sz lo hi] eqn:Hf; try done.
  apply first_SZ in Hf as (Hsz & Hlo & Hhi & _).
  assert (Hcont : ∀ c t, startsRune (String c t) →
            (byte_val c <? utf8.locb) || (utf8.hicb <? byte_val c) = true).
  { intros c t H. by eapply not_cont_out_of_range. }
  assert (Hacc : ∀ c t, startsRune (String c t) →
            (byte_val c <? lo) || (hi <? byte_val c) = true).
  { intros c t H. by eapply not_cont_out_of_range. }
  destruct t0 as [|c1 t1].
  { rewrite str_app_nil_l. destruct b as [|d b'].
    - done.
    - rewrite (Hacc d b' Hb). simpl.
      destruct Hsz as [-> | [-> | ->]]; by repeat case_match. }
  rewrite str_app_cons.
  destruct ((byte_val c1 <? lo) || (hi <? byte_val c1)) eqn:H1.
  { by repeat case_match. }
  destruct Hsz as [-> | [-> | ->]]; [done | |].
  - destruct t1 as [|c2 t2].
    + rewrite str_app_nil_l. destruct b as [|d b']; [done |].
      rewrite (Hcont d b' Hb). by repeat case_match.
    + rewrite !str_app_cons. simpl. done.
  - destruct t1 as [|c2 t2].
    + rewrite str_app_nil_l. destruct b as [|d b']; [done |].
      rewrite (Hcont d b' Hb). by repeat case_match.
    + rewrite !str_app_cons.
      destruct ((byte_val c2 <? utf8.locb) || (utf8.hicb <? byte_val c2)) eqn:H2.
      { by repeat case_match. }
      destruct t2 as [|c3 t3].
      * rewrite str_app_nil_l. destruct b as [|d b']; [done |].
        rewrite (Hcont d b' Hb). by repeat case_match.
      * rewrite !str_app_cons. simpl. done.
Qed.

Lemma str_take_app (n : nat) (a b : string) :
  (n <= String.length a)%nat → str_take n (a +:+ b) = str_take n a.
Proof.
  revert a; induction n as [|n IH]; intros a Hn; [done |].
  destruct a as [|c a]; simpl in Hn; [lia |].
  rewrite str_app_cons. simpl. f_equal. apply IH. lia.
Qed.

Lemma str_drop_app (n : nat) (a b : string) :
  (n <= String.length a)%nat → str_drop n (a +:+ b) = str_drop n a +:+ b.
Proof.
  revert a; induction n as [|n IH]; intros a Hn; [done |].
  destruct a as [|c a]; simpl in Hn; [lia |].
  rewrite str_app_cons. simpl. apply IH. lia.
Qed.

Lemma runes_app (a b : string) :
  startsRune b → utf8.runes (a +:+ b) = utf8.runes a ++ utf8.runes b.
Proof.
  intros Hb. induction a as [| a Ha IH] using runes_ind; [done |].
  destruct a as [|c t]; [done |].
  pose proof (DecodeRune_size (String c t) ltac:(done)) as Hsz.
  pose proof (DecodeRune_app (String c t) b ltac:(done) Hb) as Hd.
  rewrite str_app_cons in *. rewrite !runes_cons, Hd.
  rewrite <- !(str_app_cons c t b).
  rewrite str_take_app, str_drop_app by lia.
  rewrite <- app_comm_cons. f_equal. apply IH.
Qed.

(** A rune other than [RuneError] was decoded from bytes that start a
    sequence. *)
Lemma DecodeRune_startsRune (s : string) :
  (utf8.DecodeRuneInString s).1 ≠ utf8.RuneError → startsRune s.
Proof.
  destruct s as [|c t]; [done |]. intros H.
  assert (utf8.first (byte_val c) ≠ utf8.XX) as Hx.
  { intros Hx. apply H. unfold utf8.DecodeRuneInString. by rewrite Hx. }
  by apply first_not_cont in Hx.
Qed.

Lemma runes_startsRune (s : string) :
  Forall (λ c : Z * string, c.1 ≠ utf8.RuneError → startsRune c.2)
         (utf8.runes s).
Proof.
  induction s as [| s Hs IH] using runes_ind; [constructor |].
  destruct s as [|c t]; [done |].
  rewrite runes_cons. constructor; [| done]. cbn [fst snd].
  intros H%DecodeRune_startsRune.
  pose proof (DecodeRune_size (String c t) ltac:(done)) as Hsz.
  destruct (utf8.DecodeRuneInString (String c t)) as [r [|size]];
    simpl in *; [lia | done].
Qed.

(** The runes of a suffix cut at a rune boundary. *)
Lemma runes_suffix (s : string) (l1 l2 : list (Z * string)) :
  utf8.runes s = l1 ++ l2 → utf8.runes (strings.bytesOf l2) = l2.
Proof.
  revert l1. induction s as [| s Hs IH] using runes_ind; intros l1 Heq.
  - by destruct l1, l2.
  - destruct l1 as [|c1 l1].
    + simpl in Heq. by rewrite <- Heq, bytesOf_runes.
    + destruct s as [|c t]; [done |]. rewrite runes_cons in Heq.
      simplify_eq/=. eauto.
Qed.

(** The runes of a prefix cut in front of a valid rune. *)
Lemma runes_prefix (s : string) (l1 l2 : list (Z * string)) :
  utf8.runes s = l1 ++ l2 →
  Forall (λ c : Z * string, c.1 ≠ utf8.RuneError) l2 →
  utf8.runes (strings.bytesOf l1) = l1.
Proof.
  intros Heq Hl2.
  assert (startsRune (strings.bytesOf l2)) as Hst.
  { destruct l2 as [|c l2]; [done |].
    pose proof (runes_startsRune s) as Hall. rewrite Heq in Hall.
    apply Forall_app in Hall as [_ Hall].
    apply Forall_cons in Hall as [Hc _]. apply Forall_cons in Hl2 as [Hr _].
    specialize (Hc Hr).
    pose proof (runes_raw_nonempty s) as Hne. rewrite Heq in Hne.
    apply Forall_app in Hne as [_ Hne]. apply Forall_cons in Hne as [Hne _].
    unfold strings.bytesOf. simpl.
    destruct c.2 as [|x raw]; [done |]. by rewrite str_app_cons. }
  pose proof (bytesOf_runes s) as Hs. rewrite Heq in Hs.
  unfold strings.bytesOf in Hs. rewrite map_app in Hs.
  assert (∀ a b, str_concat (a ++ b) = str_concat a +:+ str_concat b) as Happ.
  { induction a as [|x a IHa]; intros b; simpl; [done |].
    by rewrite IHa, str_app_assoc. }
  rewrite Happ in Hs.
  pose proof (runes_app (strings.bytesOf l1) (strings.bytesOf l2) Hst) as Hr.
  unfold strings.bytesOf in Hr at 1 2. rewrite Hs, Heq in Hr.
  rewrite (runes_suffix s l1 l2 Heq) in Hr.
  by apply app_inv_tail in Hr.
Qed.

Lemma IsSpace_not_RuneError (r : Z) :
  unicode.IsSpace r = true → r ≠ utf8.RuneError.
Proof. intros H ->. vm_compute in H. done. Qed.

(** Trimming is cutting at rune boundaries. *)
Lemma runes_TrimSpace (s : string) :
  utf8.runes (strings.TrimSpace s) =
  strings.trimRight unicode.IsSpace
    (strings.trimLeft unicode.IsSpace (utf8.runes s)).
Proof.
  unfold strings.TrimSpace, strings.TrimFunc.
  destruct (trimLeft_split unicode.IsSpace (utf8.runes s)) as (ws & Heq & _).
  destruct (trimRight_split unicode.IsSpace
              (strings.trimLeft unicode.IsSpace (utf8.runes s)))
    as (ws' & Heq' & Hws').
  apply runes_suffix in Heq.
  rewrite Heq' in Heq at 2.
  eapply runes_prefix; [exact Heq |].
  eapply Forall_impl; [exact Hws' |]. intros c. apply IsSpace_not_RuneError.
Qed.

Lemma fieldsLoop_trailing f cs ws cur spans :
  Forall (λ c : Z * string, f c.1 = true) ws →
  strings.fieldsLoop f (cs ++ ws) cur spans = strings.fieldsLoop f cs cur spans.
Proof.
  intros Hws. revert cur spans.
  induction cs as [|[r raw] cs IH]; intros cur spans.
  - simpl. destruct Hws as [|[r raw] ws Hr Hws]; [done |].
    simpl in *. rewrite Hr.
    pose proof (fieldsLoop_spaces f ws [] ) as Hsp. rewrite app_nil_r in Hsp.
    destruct cur; by rewrite Hsp.
  - simpl. destruct (f r), cur; apply IH.
Qed.

(** Leading and trailing white space does not change the fields. *)
Lemma Fields_TrimSpace (s : string) :
  strings.Fields (strings.TrimSpace s) = strings.Fields s.
Proof.
  unfold strings.Fields, strings.FieldsFunc. rewrite runes_TrimSpace.
  destruct (trimLeft_split unicode.IsSpace (utf8.runes s)) as (ws & Heq & Hws).
  destruct (trimRight_split unicode.IsSpace
              (strings.trimLeft unicode.IsSpace (utf8.runes s)))
    as (ws' & Heq' & Hws').
  rewrite Heq at 2. rewrite fieldsLoop_spaces by done.
  rewrite Heq' at 2. by rewrite fieldsLoop_trailing.
Qed.

(** ** White space around a string *)

(** What follows a validly encoded rune does not change its decoding. *)
Lemma DecodeRune_app_valid (s b : string) :
  (utf8.DecodeRuneInString s).1 ≠ utf8.RuneError →
  utf8.DecodeRuneInString (s +:+ b) = utf8.DecodeRuneInString s.
Proof.
  destruct s as [|c0 t0]; [done |].
  rewrite str_app_cons. unfold utf8.DecodeRuneInString.
  destruct (utf8.first (byte_val c0)) as [| |sz lo hi] eqn:Hf; try done.
  apply first_SZ in Hf as (Hsz & _).
  cbn [String.length]. rewrite str_app_length.
  destruct (Nat.ltb_spec (S (String.length t0)) sz) as [| Hlen]; [done |].
  destruct (Nat.ltb_spec (S (String.length t0 + String.length b)) sz);
    [lia |].
  destruct t0 as [|c1 t1]; [simpl in Hlen; lia |].
  rewrite str_app_cons.
  destruct ((byte_val c1 <? lo) || (hi <? byte_val c1)); [done |].
  destruct Hsz as [-> | [-> | ->]]; [done | |].
  - destruct t1 as [|c2 t2]; [simpl in Hlen; lia |]. by rewrite str_app_cons.
  - destruct t1 as [|c2 t2]; [simpl in Hlen; lia |]. rewrite str_app_cons.
    destruct ((byte_val c2 <? utf8.locb) || (utf8.hicb <? byte_val c2));
      [done |].
    destruct t2 as [|c3 t3]; [simpl in Hlen; lia |]. by rewrite str_app_cons.
Qed.

Lemma runes_app_valid (a b : string) :
  Forall (λ c : Z * string, c.1 ≠ utf8.RuneError) (utf8.runes a) →
  utf8.runes (a +:+ b) = utf8.runes a ++ utf8.runes b.
Proof.
  induction a as [| a Ha IH] using runes_ind; [done |].
  destruct a as [|c t]; [done |]. intros Hvalid.
  rewrite runes_cons in Hvalid. apply Forall_cons in Hvalid as [Hr Hvalid].
  cbn [fst] in Hr.
  pose proof (DecodeRune_size (String c t) ltac:(done)) as Hsz.
  pose proof (DecodeRune_app_valid (String c t) b Hr) as Hd.
  rewrite str_app_cons in *. rewrite !runes_cons, Hd.
  rewrite <- !(str_app_cons c t b).
  rewrite str_take_app, str_drop_app by lia.
  rewrite <- app_comm_cons. f_equal. by apply IH.
Qed.

Lemma whitespaceOnly_valid (ws : string) :
  whitespaceOnly ws →
  Forall (λ c : Z * string, c.1 ≠ utf8.RuneError) (utf8.runes ws).
Proof.
  intros Hws. eapply Forall_impl; [exact Hws |].
  intros c. apply IsSpace_not_RuneError.
Qed.

Lemma whitespaceOnly_startsRune (ws : string) :
  whitespaceOnly ws → startsRune ws.
Proof.
  intros Hws. destruct ws as [|c t]; [done |].
  apply DecodeRune_startsRune. unfold whitespaceOnly in Hws.
  rewrite runes_cons in Hws. apply Forall_cons in Hws as [Hr _].
  by apply IsSpace_not_RuneError.
Qed.

(** White space put before and after a string does not change its
    fields. *)
Lemma Fields_padded (ws1 s ws2 : string) :
  whitespaceOnly ws1 → whitespaceOnly ws2 →
  strings.Fields (ws1 +:+ s +:+ ws2) = strings.Fields s.
Proof.
  intros H1 H2. unfold strings.Fields, strings.FieldsFunc.
  rewrite runes_app_valid by by apply whitespaceOnly_valid.
  rewrite runes_app by by apply whitespaceOnly_startsRune.
  rewrite fieldsLoop_spaces by done. by rewrite fieldsLoop_trailing.
Qed.

(** ** The word counters *)

(** The guard of [getTotalWords] only fires when there is no field. *)
Lemma getTotalWords_Fields (input : string) :
  getTotalWords input = Z.of_nat (length (strings.Fields input)).
Proof.
  unfold getTotalWords.
  destruct (String.eqb_spec (strings.TrimSpace input) EmptyString) as [He | _];
    [| done].
  apply TrimSpace_empty_iff in He. by rewrite Fields_whitespaceOnly.
Qed.

(** C9: the two word counters are extensionally equal: for every input
    string, [utils.GetTotalWords] and the [getTotalWords] of the review
    handler return the same value; the guard on the trimmed input never
    changes the result. *)
Theorem word_counters_agree (input : string) :
  GetTotalWords input = getTotalWords input.
Proof. by rewrite getTotalWords_Fields. Qed.

(** C4: for every input string the word count is the number of maximal
    whitespace-delimited tokens of the string: such a decomposition
    exists, and the count is the length of any of them; trimming the
    input, or putting white space before and after it, does not change
    the count; and the count of an empty or whitespace-only input is 0.
    This holds of both counters. *)
Theorem word_count_is_token_count (input : string) :
  (∃ toks, Tokens unicode.IsSpace (utf8.runes input) toks)
  ∧ (∀ toks, Tokens unicode.IsSpace (utf8.runes input) toks →
       getTotalWords input = Z.of_nat (length toks)
       ∧ GetTotalWords input = Z.of_nat (length toks)
       ∧ strings.Fields input = map strings.bytesOf toks)
  ∧ getTotalWords (strings.TrimSpace input) = getTotalWords input
  ∧ GetTotalWords (strings.TrimSpace input) = GetTotalWords input
  ∧ (∀ ws1 ws2, whitespaceOnly ws1 → whitespaceOnly ws2 →
       getTotalWords (ws1 +:+ input +:+ ws2) = getTotalWords input
       ∧ GetTotalWords (ws1 +:+ input +:+ ws2) = GetTotalWords input)
  ∧ (whitespaceOnly input →
       getTotalWords input = 0 ∧ GetTotalWords input = 0).
Proof.
  split; [apply Tokens_exists |]. split; [| split; [| split; [| split]]].
  - intros toks Htoks. rewrite getTotalWords_Fields. unfold GetTotalWords.
    unfold strings.Fields, strings.FieldsFunc.
    rewrite (fieldsLoop_Tokens _ _ _ Htoks), length_map. done.
  - by rewrite !getTotalWords_Fields, Fields_TrimSpace.
  - unfold GetTotalWords. by rewrite Fields_TrimSpace.
  - intros ws1 ws2 H1 H2. rewrite !getTotalWords_Fields. unfold GetTotalWords.
    by rewrite Fields_padded.
  - intros Hws. rewrite getTotalWords_Fields. unfold GetTotalWords.
    by rewrite Fields_whitespaceOnly.
Qed.

Lemma word_count_is_token_count_witness :
  getTotalWords " xin  chào " = 2
  ∧ GetTotalWords " xin  chào " = 2
  ∧ getTotalWords "   " = 0.
Proof.
  destruct (word_count_is_token_count " xin  chào ") as (_ & Hcount & _).
  destruct (word_count_is_token_count "   ") as (_ & _ & _ & _ & _ & Hws).
  destruct (Hcount [ [(120, "x"); (105, "i"); (110, "n")];
                     [(99, "c"); (104, "h"); (224, "à"); (111, "o")] ])
    as (H1 & H2 & _).
  - change (utf8.runes " xin  chào ") with
      ([(32, " ")] ++ [(120, "x"); (105, "i"); (110, "n")]
       ++ ([(32, " "); (32, " ")] ++ [(99, "c"); (104, "h"); (224, "à"); (111, "o")]
           ++ [(32, " ")])).
    apply Tokens_word; [repeat constructor | done | repeat constructor | |].
    { right. eexists _, _. split; [reflexivity | reflexivity]. }
    apply Tokens_word; [repeat constructor | done | repeat constructor | |].
    { right. eexists _, _. split; [reflexivity | reflexivity]. }
    apply Tokens_end. repeat constructor.
  - split; [exact H1 |]. split; [exact H2 |].
    apply Hws. repeat constructor.
Defined.


(** ** The distribution of question types *)

Lemma distributeLoop_cons baseCount remainder i questionType rest d :
  distributeLoop baseCount remainder i (questionType :: rest) d =
  distributeLoop baseCount remainder (i + 1) rest
    (<[questionType := share baseCount remainder i]> d).
Proof.
  cbn [distributeLoop]. unfold share. f_equal.
  destruct (i <? remainder).
  - rewrite lookup_insert_eq. simpl. by rewrite insert_insert_eq.
  - by rewrite Z.add_0_r.
Qed.

Lemma distributeLoop_lookup_notin baseCount remainder i types d t :
  t ∉ types →
  distributeLoop baseCount remainder i types d !! t = d !! t.
Proof.
  revert i d. induction types as [|q rest IH]; intros i d Hnot; [done |].
  rewrite distributeLoop_cons. apply not_elem_of_cons in Hnot as [Hne Hnot].
  rewrite IH by done. by rewrite lookup_insert_ne.
Qed.

(** Without repeated types, the type at index [j] receives its share. *)
Lemma distributeLoop_lookup baseCount remainder i types d (j : nat) t :
  NoDup types → types !! j = Some t →
  distributeLoop baseCount remainder i types d !! t
  = Some (share baseCount remainder (i + Z.of_nat j)).
Proof.
  revert i d j. induction types as [|q rest IH]; intros i d j Hnd Hj; [done |].
  apply NoDup_cons in Hnd as [Hq Hnd]. rewrite distributeLoop_cons.
  destruct j as [|j]; simpl in Hj.
  - injection Hj as ->. rewrite distributeLoop_lookup_notin by done.
    rewrite lookup_insert_eq. do 2 f_equal. lia.
  - rewrite (IH _ _ j) by done. do 2 f_equal. lia.
Qed.

Lemma distributionTotal_insert (d : gmap string Z) k v :
  d !! k = None →
  distributionTotal (<[k := v]> d) = v + distributionTotal d.
Proof.
  intros Hk. unfold distributionTotal.
  rewrite map_fold_insert_L; [done | | done].
  intros. lia.
Qed.

(** The sum of the shares of the indices [i], ..., [i + n - 1]. *)
Lemma distributeLoop_total baseCount remainder i types d :
  NoDup types → (∀ t, t ∈ types → d !! t = None) →
  distributionTotal (distributeLoop baseCount remainder i types d)
  = distributionTotal d
    + foldr (λ j acc, share baseCount remainder (i + Z.of_nat j) + acc) 0
        (seq 0 (length types)).
Proof.
  revert i d. induction types as [|q rest IH]; intros i d Hnd Hfresh.
  - simpl. lia.
  - apply NoDup_cons in Hnd as [Hq Hnd]. rewrite distributeLoop_cons.
    rewrite IH; [| done |].
    + rewrite distributionTotal_insert by (apply Hfresh; left).
      cbn [length seq foldr]. rewrite Z.add_0_r.
      rewrite <- seq_shift, foldr_fmap.
      assert (∀ l, foldr (λ j acc, share baseCount remainder (i + 1 + Z.of_nat j) + acc) 0 l
                 = foldr (λ j acc, share baseCount remainder (i + Z.of_nat (S j)) + acc) 0 l)
        as ->.
      { induction l as [|x l IHl]; simpl; [done |]. rewrite IHl.
        do 2 f_equal. lia. }
      unfold compose. lia.
    + intros t Ht. rewrite lookup_insert_ne; [apply Hfresh; by right |].
      intros ->. done.
Qed.

Lemma sum_shares baseCount remainder (n : nat) :
  0 <= remainder <= Z.of_nat n →
  foldr (λ j acc, share baseCount remainder (0 + Z.of_nat j) + acc) 0 (seq 0 n)
  = Z.of_nat n * baseCount + remainder.
Proof.
  assert (∀ (m k : nat),
    foldr (λ j acc, share baseCount remainder (0 + Z.of_nat j) + acc) 0 (seq k m)
    = Z.of_nat m * baseCount
      + Z.max 0 (Z.min (Z.of_nat m) (remainder - Z.of_nat k))) as Hgen.
  { induction m as [|m IH]; intros k.
    - simpl. lia.
    - cbn [seq foldr]. rewrite IH. unfold share.
      destruct (Z.ltb_spec (0 + Z.of_nat k) remainder); lia. }
  intros Hr. rewrite Hgen. lia.
Qed.

(** With pairwise distinct types the counts sum to the total and every
    type receives its share. *)
Lemma distributeQuestionTypes_NoDup (types : list string) (total : Z) :
  types ≠ [] → 0 < total → NoDup types →
  ∃ d, distributeQuestionTypes types total = Some d
       ∧ distributionTotal d = total
       ∧ ∀ (j : nat) t, types !! j = Some t →
           d !! t = Some (share (total `quot` Z.of_nat (length types))
                                (total `rem` Z.of_nat (length types))
                                (Z.of_nat j)).
Proof.
  intros Hne Htot Hnd. unfold distributeQuestionTypes.
  assert (0 < Z.of_nat (length types)) as Hn by (destruct types; simpl; [done | lia]).
  destruct (Z.eqb_spec (Z.of_nat (length types)) 0) as [|_]; [lia |].
  eexists. split; [done |]. split.
  - rewrite distributeLoop_total; [| done | intros; apply lookup_empty].
    unfold distributionTotal at 1. rewrite map_fold_empty.
    rewrite sum_shares.
    + pose proof (Z.quot_rem' total (Z.of_nat (length types))). lia.
    + pose proof (Z.rem_bound_pos total (Z.of_nat (length types))). lia.
  - intros j t Hj. by rewrite (distributeLoop_lookup _ _ _ _ _ j).
Qed.

(** C1: on the request for 3 questions whose list of types is
    ["Essay", "Essay"], which [validateRequest] accepts,
    [distributeQuestionTypes] returns the map that gives "Essay" the count
    1: the entry written for the first occurrence (2, the floor 1 and the
    extra one) is overwritten by the second, and the counts sum to 1 and
    not to the 3 questions requested. *)
Theorem distributeQuestionTypes_repeated_type :
  validateRequest repeatedTypeRequest = None
  ∧ distributeQuestionTypes (AssignmentTypes repeatedTypeRequest)
      (TotalQuestions repeatedTypeRequest) = Some {[ "Essay" := 1 ]}
  ∧ distributionTotal {[ "Essay" := 1 ]} = 1
  ∧ share (TotalQuestions repeatedTypeRequest `quot` 2)
          (TotalQuestions repeatedTypeRequest `rem` 2) 0 = 2.
Proof. by vm_compute. Qed.

(** The spec's example: 10 questions over 3 distinct types. *)
Lemma distributeQuestionTypes_10_over_3 (a b c : string) :
  NoDup [a; b; c] →
  ∃ d, distributeQuestionTypes [a; b; c] 10 = Some d
       ∧ distributionTotal d = 10
       ∧ d !! a = Some 4 ∧ d !! b = Some 3 ∧ d !! c = Some 3.
Proof.
  intros Hnd.
  destruct (distributeQuestionTypes_NoDup [a; b; c] 10) as (d & Hd & Hsum & Hl);
    [done | lia | done |].
  exists d. split; [done |]. split; [done |].
  rewrite (Hl 0%nat a), (Hl 1%nat b), (Hl 2%nat c) by done. done.
Qed.

(** The prompt built for the request with the repeated type asks for 3
    questions and distributes 1, whatever the order of the range. *)
Example buildGeminiPrompt_repeated_type (rangeOrder : mapOrder) :
  fairOrder rangeOrder →
  ∃ prompt, buildGeminiPrompt rangeOrder repeatedTypeRequest = Some prompt
    ∧ strings.Contains prompt "Total Questions: 3" = true
    ∧ strings.Contains prompt
        ("QUESTION DISTRIBUTION:" +:+ String (ascii_of_nat 10)
         "- Essay: 1 questions" +:+ String (ascii_of_nat 10) EmptyString)
      = true.
Proof.
  intros Hfair.
  assert (distributeQuestionTypes (AssignmentTypes repeatedTypeRequest)
            (TotalQuestions repeatedTypeRequest) = Some {["Essay" := 1]})
    as Hdist by (by vm_compute).
  assert (rangeOrder {["Essay" := 1]} = [("Essay" : string, 1)]) as Horder.
  { apply Permutation_singleton_r. rewrite (Hfair _).
    by rewrite map_to_list_singleton. }
  unfold buildGeminiPrompt. rewrite Hdist. eexists. split; [reflexivity |].
  unfold quizPromptText, formatTypeDistribution. rewrite Horder.
  split; vm_compute; reflexivity.
Qed.

(** ** Validity of a quiz *)

(** C3: a candidate quiz of type "Multiple Choice" with a non-empty
    question is accepted by [isValidQuiz] if and only if it has at least 2
    options and a correct index that is at least 0 and strictly less than
    the number of options; in particular it is rejected with 1 option and
    accepted with 2 options and the correct index 0. *)
Theorem isValidQuiz_multiple_choice (quiz : Quiz) :
  Type' quiz = "Multiple Choice" →
  Question quiz ≠ EmptyString →
  (isValidQuiz quiz = true ↔
     2 <= Z.of_nat (length (Options quiz))
     ∧ 0 <= CorrectIndex quiz < Z.of_nat (length (Options quiz)))
  ∧ (length (Options quiz) = 1%nat → isValidQuiz quiz = false)
  ∧ (length (Options quiz) = 2%nat → CorrectIndex quiz = 0 →
     isValidQuiz quiz = true).
Proof.
  intros Hty Hq. unfold isValidQuiz. rewrite Hty.
  destruct (String.eqb_spec (Question quiz) EmptyString) as [| _]; [done |].
  cbn [String.eqb Ascii.eqb Bool.eqb].
  assert (∀ n i : Z,
    (2 <=? n) && (0 <=? i) && (i <? n) = true ↔ 2 <= n ∧ 0 <= i < n) as Hiff.
  { intros n i. rewrite !andb_true_iff. lia. }
  split; [apply Hiff |]. split.
  - intros Hlen. apply not_true_is_false. rewrite Hiff, Hlen. lia.
  - intros Hlen Hci. rewrite Hiff, Hlen, Hci. lia.
Qed.

Lemma isValidQuiz_multiple_choice_witness :
  isValidQuiz {| ID := 0; Type' := "Multiple Choice"; Question := "Pick one";
                 Answer := EmptyString; Options := ["yes"; "no"];
                 CorrectIndex := 0; Explanation := EmptyString |} = true
  ∧ isValidQuiz {| ID := 0; Type' := "Multiple Choice"; Question := "Pick one";
                   Answer := EmptyString; Options := ["yes"];
                   CorrectIndex := 0; Explanation := EmptyString |} = false.
Proof.
  split.
  - apply (isValidQuiz_multiple_choice
             {| ID := 0; Type' := "Multiple Choice"; Question := "Pick one";
                Answer := EmptyString; Options := ["yes"; "no"];
                CorrectIndex := 0; Explanation := EmptyString |});
      [reflexivity | discriminate | reflexivity | reflexivity].
  - apply (isValidQuiz_multiple_choice
             {| ID := 0; Type' := "Multiple Choice"; Question := "Pick one";
                Answer := EmptyString; Options := ["yes"];
                CorrectIndex := 0; Explanation := EmptyString |});
      [reflexivity | discriminate | reflexivity].
Defined.

(** What [parseGeminiResponse] keeps is valid and of a requested type:
    the other quizzes of the answer are discarded. *)
Lemma keepQuiz_Some (requestedTypes : list string) (gQuiz : GeminiQuiz)
    (quiz : Quiz) :
  keepQuiz requestedTypes gQuiz = Some quiz →
  isValidQuiz quiz = true ∧ contains requestedTypes (Type' quiz) = true
  ∧ Type' quiz = gType gQuiz
  ∧ Options quiz = json.elems (gOptions gQuiz)
  ∧ CorrectIndex quiz = gCorrectIndex gQuiz.
Proof.
  unfold keepQuiz. cbn [Type'].
  destruct (contains requestedTypes (gType gQuiz)) eqn:Hc; [| done].
  cbn [negb].
  match goal with
  | |- context [isValidQuiz ?q] => destruct (isValidQuiz q) eqn:Hv; [| done]
  end.
  by intros [= <-].
Qed.

Lemma parseGeminiResponse_valid `{unicode.Tables} (response : string)
    (requestedTypes : list string) (quizzes : list Quiz) :
  parseGeminiResponse response requestedTypes = inl quizzes →
  Forall (λ quiz, isValidQuiz quiz = true
                  ∧ contains requestedTypes (Type' quiz) = true) quizzes.
Proof.
  unfold parseGeminiResponse.
  destruct (json.Unmarshal _ _ _) as [geminiData [err |]]; [done |].
  intros [= <-]. apply Forall_forall. intros quiz Hin.
  apply list_elem_of_omap in Hin as (gQuiz & _ & Hkeep).
  by apply keepQuiz_Some in Hkeep as (? & ? & _).
Qed.

(** ** Validation of a review request *)

(** A member that comes twice is stored twice into the same slice: the
    elements of the second list are stored into the elements that the
    first one left, so that the empty object keeps the type and the
    question of the quiz before it. *)
Example parseGeminiResponse_repeated_member :
  @parseGeminiResponse identityTables repeatedQuizzesAnswer ["Essay"]
  = inl [{| ID := 0; Type' := "Essay"; Question := "Q";
            Answer := EmptyString; Options := []; CorrectIndex := 0;
            Explanation := EmptyString |}].
Proof. by vm_compute. Qed.

(** What a list that was cut shorter leaves in the backing array is
    still there for a longer list that follows. *)
Example parseGeminiResponse_spare_elements :
  ∃ quizzes,
    @parseGeminiResponse identityTables thriceQuizzesAnswer ["Essay"]
    = inl quizzes
    ∧ map Question quizzes = ["p"; "b"].
Proof. eexists. split; [vm_compute; reflexivity | reflexivity]. Qed.

Lemma Contains_cons c s sub :
  strings.Contains (String c s) sub
  = strings.HasPrefix (String c s) sub || strings.Contains s sub.
Proof. reflexivity. Qed.

Lemma str_take_all s : str_take (String.length s) s = s.
Proof. induction s as [|c s IH]; simpl; [done | by rewrite IH]. Qed.

Lemma Contains_prefix sub q : strings.Contains (sub +:+ q) sub = true.
Proof.
  assert (strings.HasPrefix (sub +:+ q) sub = true) as Hp.
  { unfold strings.HasPrefix. rewrite str_take_app by done.
    rewrite str_take_all. apply String.eqb_refl. }
  destruct (sub +:+ q); simpl; by rewrite Hp.
Qed.

Lemma Contains_app_r p s sub :
  strings.Contains s sub = true → strings.Contains (p +:+ s) sub = true.
Proof.
  intros Hs. induction p as [|c p IH]; [done |].
  rewrite str_app_cons, Contains_cons, IH. apply orb_true_r.
Qed.

(** C6 as stated fails, whatever the Unicode tables: the request with an
    empty content has a word count of 0, below the minimum, and is
    rejected with the message that the content must not be empty, which
    does not name 10. *)
Lemma rejection_names_bound_fails :
  ¬ ∃ U : unicode.Tables, rejection_names_bound U.
Proof.
  intros [U Hclaim].
  destruct (Hclaim emptyReviewRequest) as [Hmin _].
  destruct Hmin as (msg & Hmsg & Hcontains); [by vm_compute |].
  vm_compute in Hmsg. injection Hmsg as <-. by vm_compute in Hcontains.
Qed.

(** C6, amended: a review request whose trimmed content has a word count
    strictly below 10 or strictly above 1000 is rejected by
    [validateReviewRequest]; when the trimmed content is not empty the
    message names the violated bound (10 below the minimum, 1000 above the
    maximum), and when it is empty the message is the one of the empty
    content.  In particular a review of 5 words is rejected with a message
    naming 10. *)
Theorem validateReviewRequest_word_bounds `{unicode.Tables}
    (request : GenerateCommentRequest) :
  let content := strings.TrimSpace (Content request) in
  let wordCount := getTotalWords content in
  wordCount < MIN_TOTAL_WORDS ∨ MAX_TOTAL_WORDS < wordCount →
  ∃ msg, validateReviewRequest request = Some (errorString msg)
    ∧ ((content = EmptyString
        ∧ msg = "nội dung bài viết không được để trống")
       ∨ (content ≠ EmptyString ∧ wordCount < MIN_TOTAL_WORDS
          ∧ msg = "bài viết phải dài tối thiểu 10 từ"
          ∧ strings.Contains msg (strconv.Itoa MIN_TOTAL_WORDS) = true)
       ∨ (content ≠ EmptyString ∧ MAX_TOTAL_WORDS < wordCount
          ∧ msg = "bài viết không được dài hơn 1000 từ"
          ∧ strings.Contains msg (strconv.Itoa MAX_TOTAL_WORDS) = true)).
Proof.
  intros content wordCount Hout. unfold validateReviewRequest.
  fold content. fold wordCount. clearbody wordCount. clearbody content.
  destruct (String.eqb_spec content EmptyString) as [He | Hne].
  { eexists. split; [reflexivity |]. by left. }
  destruct (Z.ltb_spec wordCount MIN_TOTAL_WORDS) as [Hlt | Hge].
  { eexists. split; [reflexivity |]. right; left.
    split; [exact Hne |]. split; [exact Hlt |].
    split; vm_compute; reflexivity. }
  destruct (Z.ltb_spec MAX_TOTAL_WORDS wordCount) as [Hgt | Hle]; [| lia].
  eexists. split; [reflexivity |]. right; right.
  split; [exact Hne |]. split; [exact Hgt |].
  split; vm_compute; reflexivity.
Qed.

Lemma validateReviewRequest_word_bounds_witness :
  ∃ msg, @validateReviewRequest identityTables fiveWordReviewRequest
         = Some (errorString msg)
         ∧ strings.Contains msg "10" = true.
Proof.
  destruct (@validateReviewRequest_word_bounds identityTables
              fiveWordReviewRequest) as (msg & Hmsg & Hcases).
  - left. by vm_compute.
  - exists msg. split; [exact Hmsg |].
    destruct Hcases as [[Hc _] | [(_ & _ & _ & Hc) | (_ & Hc & _)]].
    + by vm_compute in Hc.
    + exact Hc.
    + by vm_compute in Hc.
Defined.

(** C10 as stated fails, whatever the Unicode tables: the request with an
    empty user level and an empty content is rejected (for its content). *)
Lemma empty_level_accepted_fails :
  ¬ ∃ U : unicode.Tables, empty_level_accepted U.
Proof.
  intros [U Hclaim].
  destruct (Hclaim emptyReviewRequest) as [Hvalid _]; [done |].
  by vm_compute in Hvalid.
Qed.

Lemma reviewPromptText_level (req : GenerateCommentRequest)
    (userLevelDesc category : string) (wordCount : Z)
    (responseLanguagePrompt : string) :
  strings.Contains
    (reviewPromptText req userLevelDesc category wordCount
       responseLanguagePrompt)
    ("- Student's declared level: " +:+ userLevelDesc
     +:+ String (ascii_of_nat 10) "- Writing category: ") = true.
Proof.
  unfold reviewPromptText.
  do 4 apply Contains_app_r.
  match goal with
  | |- strings.Contains (?s1 +:+ _ +:+ ?s2 +:+ ?rest) _ = true =>
    change s1 with
      ((String (ascii_of_nat 10)
          (String (ascii_of_nat 10)
             ("CONTEXT INFORMATION:" +:+ String (ascii_of_nat 10) EmptyString)))
       +:+ "- Student's declared level: ");
    change s2 with
      (String (ascii_of_nat 10) "- Writing category: ")
  end.
  rewrite str_app_assoc. apply Contains_app_r.
  rewrite <- !str_app_assoc. rewrite (str_app_assoc _ userLevelDesc).
  rewrite !str_app_assoc.
  rewrite <- (str_app_assoc "- Student's declared level: ").
  rewrite <- (str_app_assoc ("- Student's declared level: " +:+ userLevelDesc)).
  apply Contains_prefix.
Qed.

(** C10, amended: a review request whose user level is the empty string
    is accepted by [validateReviewRequest] exactly when its trimmed
    content is not empty and has between 10 and 1000 words (the level code
    is checked for non-empty levels only), and [buildReviewPrompt] then
    uses the default level description "intermediate" in the prompt. *)
Theorem empty_level_default `{unicode.Tables} (request : GenerateCommentRequest) :
  UserLevel request = EmptyString →
  let content := strings.TrimSpace (Content request) in
  (validateReviewRequest request = None ↔
     content ≠ EmptyString
     ∧ MIN_TOTAL_WORDS <= getTotalWords content <= MAX_TOTAL_WORDS)
  ∧ userLevelDescOf request = "intermediate"
  ∧ buildReviewPrompt request
    = reviewPromptText request "intermediate" (categoryOf request)
        (getTotalWords (Content request)) (responseLanguagePromptOf request)
  ∧ strings.Contains (buildReviewPrompt request)
      ("- Student's declared level: intermediate"
       +:+ String (ascii_of_nat 10) "- Writing category: ") = true.
Proof.
  intros Hlevel content.
  assert (userLevelDescOf request = "intermediate") as Hdesc.
  { unfold userLevelDescOf. by rewrite Hlevel. }
  split; [| split; [done | split]].
  - unfold validateReviewRequest. fold content. rewrite Hlevel.
    destruct (String.eqb_spec content EmptyString) as [He | Hne].
    { split; [done | by intros [? _]]. }
    destruct (Z.ltb_spec (getTotalWords content) MIN_TOTAL_WORDS).
    { split; [done | lia]. }
    destruct (Z.ltb_spec MAX_TOTAL_WORDS (getTotalWords content)).
    { split; [done | lia]. }
    change (negb (String.eqb EmptyString EmptyString)) with false.
    cbv iota. split; [intros _; split; [done | lia] | done].
  - unfold buildReviewPrompt. by rewrite Hdesc.
  - unfold buildReviewPrompt. rewrite Hdesc.
    apply reviewPromptText_level.
Qed.

Lemma empty_level_default_witness :
  @validateReviewRequest identityTables elevenWordReviewRequest = None
  ∧ @userLevelDescOf identityTables elevenWordReviewRequest = "intermediate".
Proof.
  destruct (@empty_level_default identityTables elevenWordReviewRequest)
    as (Hvalid & Hdesc & _); [reflexivity |].
  split; [| exact Hdesc].
  apply Hvalid. by vm_compute.
Defined.

(** ** The parser of reviews *)

(** When the strict shape is stored without error, the suggestions that
    are returned are never empty. *)
Lemma parseGeminiReviewResponse_strict `{unicode.Tables} (response : string)
    (reviewData : GeminiReviewData) :
  json.Unmarshal (json.storeStruct GeminiReviewData_fields)
    (stripFences response) GeminiReviewData_zero = (reviewData, None) →
  (OverallFeedback reviewData = EmptyString
   ∧ parseGeminiReviewResponse response
     = inr (errorString "missing overall feedback in API response"))
  ∨ (∃ d, parseGeminiReviewResponse response = inl d
          ∧ json.elems (Suggestions d) ≠ []
          ∧ (json.elems (Suggestions reviewData) = [] →
             json.elems (Suggestions d) = [defaultSuggestion])
          ∧ (json.elems (Suggestions reviewData) ≠ [] →
             Suggestions d = Suggestions reviewData)).
Proof.
  intros Hstrict. unfold parseGeminiReviewResponse. rewrite Hstrict.
  destruct (String.eqb_spec (OverallFeedback reviewData) EmptyString) as [He | _].
  { by left. }
  right. eexists. split; [done |]. cbn [Suggestions].
  destruct (json.elems (Suggestions reviewData)) as [|s l] eqn:Hs.
  - split; [done |]. split; [done |]. by intros ?.
  - change (Z.of_nat (length (s :: l)) =? 0) with false. cbv iota.
    rewrite Hs. split; [done |]. split; [done |]. by intros _.
Qed.

(** An empty list of suggestions is returned only through the fallback. *)
Lemma parseGeminiReviewResponse_empty `{unicode.Tables} (response : string)
    (d : GeminiReviewData) :
  parseGeminiReviewResponse response = inl d →
  json.elems (Suggestions d) = [] →
  ∃ reviewData err fallback,
    json.Unmarshal (json.storeStruct GeminiReviewData_fields)
      (stripFences response) GeminiReviewData_zero = (reviewData, Some err)
    ∧ json.Unmarshal (json.storeStruct fallbackReviewData_fields)
        (stripFences response) fallbackReviewData_zero = (fallback, None)
    ∧ json.elems (fSuggestions fallback) = [].
Proof.
  intros Hparse Hempty.
  destruct (json.Unmarshal (json.storeStruct GeminiReviewData_fields)
              (stripFences response) GeminiReviewData_zero)
    as [reviewData [err |]] eqn:Hstrict.
  - unfold parseGeminiReviewResponse in Hparse. rewrite Hstrict in Hparse.
    destruct (json.Unmarshal (json.storeStruct fallbackReviewData_fields)
                (stripFences response) fallbackReviewData_zero)
      as [fallback [err2 |]] eqn:Hloose; [done |].
    injection Hparse as <-. cbn [Suggestions] in Hempty.
    exists reviewData, err, fallback. repeat split; try done.
    by destruct (json.elems (fSuggestions fallback)).
  - destruct (parseGeminiReviewResponse_strict _ _ Hstrict)
      as [[_ Herr] | (d' & Hd' & Hne & _)]; congruence.
Qed.

(** C2: on the answer
    {"overall_feedback":"ok","suggestions":["x"],"suggestions":[]}
    the strict shape is refused (a string where a suggestion record is
    expected), the fallback shape is stored without error with an empty
    list of suggestions, and [parseGeminiReviewResponse] returns a result
    whose list of suggestions is empty: the default suggestion is only
    synthesized on the strict path. *)
Theorem parseGeminiReviewResponse_fallback_empty `{unicode.Tables} :
  (json.Unmarshal (json.storeStruct GeminiReviewData_fields)
     (stripFences duplicateSuggestionsAnswer) GeminiReviewData_zero).2
  = Some UnmarshalTypeError
  ∧ ∃ d, parseGeminiReviewResponse duplicateSuggestionsAnswer = inl d
         ∧ OverallFeedback d = "ok"
         ∧ json.elems (Suggestions d) = [].
Proof.
  split; [by vm_compute |]. eexists. split; [by vm_compute |]. done.
Qed.

(** ** The caches *)

Lemma cache_lookup_fresh (c : gmap string cacheItem) (K : string) (V : any)
    (expiry t : Z) :
  t < expiry →
  cacheHit (<[K := {| Data := V; ExpiresAt := expiry |}]> c) K t = Some V.
Proof.
  intros Ht. unfold cacheHit, After. rewrite lookup_insert_eq.
  cbn [ExpiresAt Data]. destruct (Z.ltb_spec t expiry); [done | lia].
Qed.

Lemma cache_lookup_expired (c : gmap string cacheItem) (K : string) (V : any)
    (expiry t : Z) :
  expiry <= t →
  cacheHit (<[K := {| Data := V; ExpiresAt := expiry |}]> c) K t = None.
Proof.
  intros Ht. unfold cacheHit, After. rewrite lookup_insert_eq.
  cbn [ExpiresAt Data]. destruct (Z.ltb_spec t expiry); [lia | done].
Qed.

Lemma reviewCache_lookup_fresh (c : gmap string reviewCacheItem) (K : string)
    (V : any) (expiry t : Z) :
  t < expiry →
  reviewCacheHit (<[K := {| rData := V; rExpiresAt := expiry |}]> c) K t
  = Some V.
Proof.
  intros Ht. unfold reviewCacheHit, After. rewrite lookup_insert_eq.
  cbn [rExpiresAt rData]. destruct (Z.ltb_spec t expiry); [done | lia].
Qed.

Lemma reviewCache_lookup_expired (c : gmap string reviewCacheItem) (K : string)
    (V : any) (expiry t : Z) :
  expiry <= t →
  reviewCacheHit (<[K := {| rData := V; rExpiresAt := expiry |}]> c) K t
  = None.
Proof.
  intros Ht. unfold reviewCacheHit, After. rewrite lookup_insert_eq.
  cbn [rExpiresAt rData]. destruct (Z.ltb_spec t expiry); [lia | done].
Qed.

(** C8: for every state of the process and every key [K] (stored before
    or not), after [ClearReviewCache] the review cache has no entry for
    [K] and the lookup of [K] is a miss, at any time. *)
Theorem ClearReviewCache_then_miss (st : State) (K : string) (now : Z) :
  ∃ resp st',
    ClearReviewCache st = Done resp st'
    ∧ Status resp = StatusOK
    ∧ reviewCache st' !! K = None
    ∧ reviewCacheHit (reviewCache st') K now = None.
Proof.
  eexists _, _. split; [reflexivity |]. cbn [reviewCache Status].
  unfold reviewCacheHit. by rewrite lookup_empty.
Qed.

(** [ClearReviewCache] leaves the cache of the assignment handler as it
    is: that cache has no clearing operation. *)
Lemma ClearReviewCache_keeps_cache (st : State) :
  ∃ resp st', ClearReviewCache st = Done resp st' ∧ cache st' = cache st.
Proof. by eexists _, _. Qed.

(** ** The generation of quizzes *)

Lemma bind_Done {A B : Type} (m : M A) (f : A → M B) (st st' : State) (b : B) :
  (x ← m; f x) st = Done b st' →
  ∃ a st1, m st = Done a st1 ∧ f a st1 = Done b st'.
Proof.
  unfold mbind, M_bind. destruct (m st) as [a st1 | st1]; [| done].
  intros Hf. by exists a, st1.
Qed.

Lemma mret_Done {A : Type} (a b : A) (st st' : State) :
  (mret a : M A) st = Done b st' → a = b ∧ st = st'.
Proof. unfold mret, M_ret. by intros [= -> ->]. Qed.

Lemma orPanic_Done {A : Type} (o : option A) (a : A) (st st' : State) :
  orPanic o st = Done a st' → o = Some a ∧ st = st'.
Proof. destruct o; [| done]. by intros [-> ->]%mret_Done. Qed.

Lemma sliceListTo_length {A : Type} (l l' : list A) (n : Z) :
  sliceListTo l n = Some l' → Z.of_nat (length l') <= n ∧ l' = take (Z.to_nat n) l.
Proof.
  unfold sliceListTo. destruct (Z.leb_spec 0 n); [| done].
  destruct (Z.leb_spec n (Z.of_nat (length l))); [| done].
  intros [= <-]. rewrite length_take. split; [lia | done].
Qed.

Lemma addIDs_length (quizzes : list Quiz) :
  length (addIDs quizzes) = length quizzes.
Proof. unfold addIDs. by rewrite length_imap. Qed.

Lemma addIDs_lookup (quizzes : list Quiz) (i : nat) (quiz : Quiz) :
  addIDs quizzes !! i = Some quiz →
  ID quiz = Z.of_nat i + 1
  ∧ ∃ q, quizzes !! i = Some q
         ∧ Type' quiz = Type' q ∧ Question quiz = Question q
         ∧ Answer quiz = Answer q ∧ Options quiz = Options q
         ∧ CorrectIndex quiz = CorrectIndex q
         ∧ Explanation quiz = Explanation q.
Proof.
  unfold addIDs. rewrite list_lookup_imap.
  destruct (quizzes !! i) as [q |]; [| done].
  intros [= <-]. split; [done |]. by exists q.
Qed.

(** A response of [generateQuizzesWithGemini], read back: the client
    answered the prompt, the answer parsed, the total is not negative, and
    the response numbers the first quizzes of what the first answer and
    the second call gave. *)
Lemma generateQuizzesWithGemini_inl `{unicode.Tables} GeminiClient rangeOrder
    req st response st' :
  generateQuizzesWithGemini GeminiClient rangeOrder req st
  = Done (inl response) st' →
  ∃ client prompt text quizzes,
    GeminiClient = Some client
    ∧ buildGeminiPrompt rangeOrder req = Some prompt
    ∧ client (callNo st) "gemini-2.0-flash" prompt = inl text
    ∧ parseGeminiResponse text (AssignmentTypes req) = inl quizzes
    ∧ 0 <= TotalQuestions req
    ∧ qrTopic response = Topic req
    ∧ qrLevel response = EnglishLevel req
    ∧ qrTotal response = TotalQuestions req
    ∧ qrGenerated response = Z.of_nat (length (qrQuizzes response))
    ∧ qrQuizzes response
      = addIDs (take (Z.to_nat (TotalQuestions req))
                  (quizzes ++ backfill client req (callNo st) quizzes))
    ∧ callNo st'
      = (if 0 <? TotalQuestions req - Z.of_nat (length quizzes)
         then S (S (callNo st)) else S (callNo st)).
Proof.
  unfold generateQuizzesWithGemini. intros Hgen.
  apply bind_Done in Hgen as (prompt & st0 & [Hprompt <-]%orPanic_Done & Hgen).
  apply bind_Done in Hgen as (geminiResp & st1 & Hcall & Hgen).
  unfold callGeminiAPI, generateContent in Hcall.
  destruct GeminiClient as [client |];
    [| apply mret_Done in Hcall as [<- <-];
       by apply mret_Done in Hgen as [? _]].
  injection Hcall as <- <-.
  destruct (client (callNo st) "gemini-2.0-flash" prompt)
    as [text | err] eqn:Hfirst; [| by apply mret_Done in Hgen as [? _]].
  destruct (parseGeminiResponse text (AssignmentTypes req))
    as [quizzes | err] eqn:Hparse; [| by apply mret_Done in Hgen as [? _]].
  apply bind_Done in Hgen as (quizzes1 & st2 & Hmore & Hgen).
  apply bind_Done in Hgen as (quizzes2 & st3 & Hcut & Hgen).
  apply mret_Done in Hgen as [[= <-] <-].
  cbn [qrTopic qrLevel qrTotal qrGenerated qrQuizzes].
  assert (0 <= TotalQuestions req
          ∧ quizzes2 = take (Z.to_nat (TotalQuestions req)) quizzes1
          ∧ st3 = st2) as (Htotal & -> & ->).
  { destruct (Z.ltb_spec (TotalQuestions req) (Z.of_nat (length quizzes1))).
    - apply orPanic_Done in Hcut as [Hcut <-].
      split; [| by apply sliceListTo_length in Hcut as [_ ->]].
      unfold sliceListTo in Hcut.
      by destruct (Z.leb_spec 0 (TotalQuestions req)).
    - apply mret_Done in Hcut as [<- <-].
      split; [lia |]. by rewrite take_ge by lia. }
  exists client, prompt, text, quizzes.
  do 9 (split; [done |]). unfold backfill.
  destruct (Z.ltb_spec (Z.of_nat (length quizzes)) (TotalQuestions req))
    as [Hshort | Henough].
  - destruct (Z.ltb_spec 0 (TotalQuestions req - Z.of_nat (length quizzes)));
      [| lia].
    apply bind_Done in Hmore as (additional & st4 & Hadd & Hmore).
    unfold generateAdditionalQuizzes in Hadd. cbv zeta in Hadd.
    destruct (Z.leb_spec (TotalQuestions req - Z.of_nat (length quizzes)) 0);
      [lia |].
    apply bind_Done in Hadd as (answer & st5 & Hcall2 & Hadd).
    unfold callGeminiAPI, generateContent in Hcall2.
    injection Hcall2 as <- <-. cbn [callNo] in Hadd.
    destruct (client (S (callNo st)) "gemini-2.0-flash"
                (additionalPromptText req
                   (TotalQuestions req - Z.of_nat (length quizzes))))
      as [text2 | err].
    + apply mret_Done in Hadd as [<- <-].
      destruct (parseGeminiResponse text2 (AssignmentTypes req))
        as [more | err]; apply mret_Done in Hmore as [<- <-];
        [done | by rewrite app_nil_r].
    + apply mret_Done in Hadd as [<- <-].
      apply mret_Done in Hmore as [<- <-]. by rewrite app_nil_r.
  - destruct (Z.ltb_spec 0 (TotalQuestions req - Z.of_nat (length quizzes)));
      [lia |].
    apply mret_Done in Hmore as [<- <-]. by rewrite app_nil_r.
Qed.

(** C7: when [generateQuizzesWithGemini] returns a response (no error and
    no panic), the model has answered the prompt with a text that parses,
    and the quizzes generated are those of that answer followed by those
    that the second call added.  The list of the response has the length
    of what was generated or, when that is more, exactly the number of
    questions requested; [Generated] is its length; and the quiz at
    position [i] (from 0) is the generated quiz at position [i] with the
    identifier [i + 1]. *)
Theorem generateQuizzesWithGemini_ids `{unicode.Tables}
    (GeminiClient : option (nat → string → string → string + error))
    (rangeOrder : mapOrder) (req : GenerateQuizzesRequest) (st st' : State)
    (response : QuizResponse) :
  generateQuizzesWithGemini GeminiClient rangeOrder req st
  = Done (inl response) st' →
  ∃ client prompt text quizzes,
    GeminiClient = Some client
    ∧ buildGeminiPrompt rangeOrder req = Some prompt
    ∧ client (callNo st) "gemini-2.0-flash" prompt = inl text
    ∧ parseGeminiResponse text (AssignmentTypes req) = inl quizzes
    ∧ let generated := quizzes ++ backfill client req (callNo st) quizzes in
      Z.of_nat (length (qrQuizzes response))
      = Z.min (Z.of_nat (length generated)) (TotalQuestions req)
      ∧ Z.of_nat (length (qrQuizzes response)) <= TotalQuestions req
      ∧ qrTotal response = TotalQuestions req
      ∧ qrGenerated response = Z.of_nat (length (qrQuizzes response))
      ∧ ∀ (i : nat) (quiz : Quiz),
          qrQuizzes response !! i = Some quiz →
          ID quiz = Z.of_nat i + 1
          ∧ ∃ q, generated !! i = Some q
                 ∧ Type' quiz = Type' q ∧ Question quiz = Question q
                 ∧ Answer quiz = Answer q ∧ Options quiz = Options q
                 ∧ CorrectIndex quiz = CorrectIndex q
                 ∧ Explanation quiz = Explanation q.
Proof.
  intros Hgen.
  destruct (generateQuizzesWithGemini_inl _ _ _ _ _ _ Hgen)
    as (client & prompt & text & quizzes & Hclient & Hprompt & Hfirst & Hparse
        & Htotal & _ & _ & Hqtotal & Hgenerated & Hquizzes & _).
  exists client, prompt, text, quizzes. do 4 (split; [done |]).
  intros generated. fold generated in Hquizzes.
  assert (Z.of_nat (length (qrQuizzes response))
          = Z.min (Z.of_nat (length generated)) (TotalQuestions req)) as Hlen.
  { rewrite Hquizzes, addIDs_length, length_take. lia. }
  split; [done |]. split; [lia |]. split; [done |]. split; [done |].
  intros i quiz Hi. rewrite Hquizzes in Hi.
  apply addIDs_lookup in Hi as (Hid & q & Hq & Hfields).
  split; [done |]. exists q. split; [| done].
  by apply lookup_take_Some in Hq as [? _].
Qed.

Lemma generateQuizzesWithGemini_ids_witness :
  ∃ response st',
    @generateQuizzesWithGemini identityTables (constantClient threeEssaysAnswer)
      map_to_list twoEssaysRequest initialState = Done (inl response) st'
    ∧ Z.of_nat (length (qrQuizzes response)) <= 2
    ∧ ∀ (i : nat) (quiz : Quiz),
        qrQuizzes response !! i = Some quiz → ID quiz = Z.of_nat i + 1.
Proof.
  assert (∃ response st',
    @generateQuizzesWithGemini identityTables (constantClient threeEssaysAnswer)
      map_to_list twoEssaysRequest initialState = Done (inl response) st')
    as Hrun.
  { vm_compute. eexists _, _. reflexivity. }
  destruct Hrun as (response & st' & Hrun). exists response, st'.
  split; [exact Hrun |].
  destruct (@generateQuizzesWithGemini_ids identityTables _ _ _ _ _ _ Hrun)
    as (client & prompt & text & quizzes & _ & _ & _ & _ & _ & Hlen & _ & _
        & Hids).
  split; [exact Hlen |].
  intros i quiz Hi. destruct (Hids i quiz Hi) as [Hid _]. exact Hid.
Defined.

(** The run of the witness: three essays are returned for two questions,
    the third one is cut and the two that stay are numbered 1 and 2. *)
Example generateQuizzesWithGemini_truncates :
  ∃ response st',
    @generateQuizzesWithGemini identityTables (constantClient threeEssaysAnswer)
      map_to_list twoEssaysRequest initialState = Done (inl response) st'
    ∧ map (λ quiz, (ID quiz, Question quiz)) (qrQuizzes response)
      = [(1, "Describe your last journey."); (2, "Why do people travel?")]
    ∧ callNo st' = 1%nat.
Proof. vm_compute. eexists _, _. done. Qed.

(** ** The handlers and their caches *)

Lemma sameCaches_refl st : sameCaches st st.
Proof. done. Qed.

Lemma sameCaches_trans st1 st2 st3 :
  sameCaches st1 st2 → sameCaches st2 st3 → sameCaches st1 st3.
Proof. intros [? ?] [? ?]. split; congruence. Qed.

Lemma timeNow_Done clock st t st' :
  timeNow clock st = Done t st' →
  t = clock (ticks st) ∧ sameCaches st st' ∧ callNo st' = callNo st
  ∧ ticks st' = S (ticks st).
Proof. by intros [= <- <-]. Qed.

Lemma generateContent_Done GeminiClient model prompt st r st' :
  generateContent GeminiClient model prompt st = Done r st' →
  sameCaches st st' ∧ ticks st' = ticks st.
Proof.
  unfold generateContent. destruct GeminiClient as [client |].
  - by intros [= <- <-].
  - by intros [_ <-]%mret_Done.
Qed.

Lemma generateAdditionalQuizzes_Done `{unicode.Tables} GeminiClient req n st r st' :
  generateAdditionalQuizzes GeminiClient req n st = Done r st' →
  sameCaches st st' ∧ ticks st' = ticks st.
Proof.
  unfold generateAdditionalQuizzes. destruct (_ <=? 0).
  - by intros [_ <-]%mret_Done.
  - intros (resp & st1 & Hcall & Hrest)%bind_Done.
    apply generateContent_Done in Hcall.
    destruct resp; by apply mret_Done in Hrest as [_ <-].
Qed.

Lemma generateQuizzesWithGemini_Done `{unicode.Tables} GeminiClient rangeOrder
    req st r st' :
  generateQuizzesWithGemini GeminiClient rangeOrder req st = Done r st' →
  sameCaches st st' ∧ ticks st' = ticks st.
Proof.
  unfold generateQuizzesWithGemini.
  intros (prompt & st1 & [_ <-]%orPanic_Done & Hgen)%bind_Done.
  apply bind_Done in Hgen as (geminiResp & st2 & Hcall & Hgen).
  apply generateContent_Done in Hcall as [Hc2 Ht2].
  destruct geminiResp as [geminiResp | err];
    [| by apply mret_Done in Hgen as [_ <-]].
  destruct (parseGeminiResponse geminiResp (AssignmentTypes req))
    as [quizzes | err]; [| by apply mret_Done in Hgen as [_ <-]].
  apply bind_Done in Hgen as (quizzes1 & st3 & Hmore & Hgen).
  apply bind_Done in Hgen as (quizzes2 & st4 & Hcut & Hgen).
  apply mret_Done in Hgen as [_ <-].
  assert (sameCaches st2 st3 ∧ ticks st3 = ticks st2) as [Hc3 Ht3].
  { destruct (_ <? TotalQuestions req).
    - apply bind_Done in Hmore as (more & st5 & Hadd & Hmore).
      apply generateAdditionalQuizzes_Done in Hadd.
      destruct more; by apply mret_Done in Hmore as [_ <-].
    - by apply mret_Done in Hmore as [_ <-]. }
  assert (st4 = st3) as ->.
  { destruct (TotalQuestions req <? _).
    - by apply orPanic_Done in Hcut as [_ <-].
    - by apply mret_Done in Hcut as [_ <-]. }
  split; [by eapply sameCaches_trans | congruence].
Qed.

(** A hit of [GenerateAssignment]: the cached value is written as it is,
    and the model is not called. *)
Lemma GenerateAssignment_hit `{unicode.Tables} GeminiClient clock rangeOrder
    request st data :
  validateRequest request = None →
  cacheHit (cache st) (generateCacheKey request) (clock (ticks st)) = Some data →
  ∃ st', GenerateAssignment GeminiClient clock rangeOrder (Some request) st
         = Done {| Status := StatusOK; Header := jsonHeader;
                   Body := bodyJSON data |} st'
         ∧ sameCaches st st' ∧ callNo st' = callNo st.
Proof.
  intros Hvalid Hhit. unfold GenerateAssignment. rewrite Hvalid.
  unfold mbind, M_bind, timeNow, getState. cbn [cache]. rewrite Hhit.
  by eexists.
Qed.

(** A store of [GenerateAssignment]: a response with the status 201 comes
    with the entry of the request in the cache, holding the value that was
    written and expiring 10 minutes after the reading of the clock. *)
Lemma GenerateAssignment_store `{unicode.Tables} GeminiClient clock rangeOrder
    request st resp st' :
  GenerateAssignment GeminiClient clock rangeOrder (Some request) st = Done resp st' →
  Status resp = StatusCreated →
  ∃ quizResponse,
    Body resp = bodyJSON (anyQuizResponse quizResponse)
    ∧ cache st' = <[generateCacheKey request :=
                      {| Data := anyQuizResponse quizResponse;
                         ExpiresAt := clock (ticks st) + 10 * Minute |}]>
                    (cache st)
    ∧ reviewCache st' = reviewCache st
    ∧ ticks st' = S (ticks st).
Proof.
  unfold GenerateAssignment. intros Hrun Hstatus.
  destruct (validateRequest request) as [err |].
  { apply mret_Done in Hrun as [<- _]. done. }
  apply bind_Done in Hrun as (now & st1 & Hnow & Hrun).
  apply timeNow_Done in Hnow as (-> & [Hc1 Hr1] & _ & Ht1).
  apply bind_Done in Hrun as (st1' & st1'' & [= <- <-] & Hrun).
  destruct (cacheHit (cache st1) _ _) as [data |].
  { apply mret_Done in Hrun as [<- _]. done. }
  apply bind_Done in Hrun as (r & st2 & Hgen & Hrun).
  apply generateQuizzesWithGemini_Done in Hgen as [[Hc2 Hr2] Ht2].
  destruct r as [quizResponse | err].
  - apply bind_Done in Hrun as (st2' & st2'' & [= <- <-] & Hrun).
    apply bind_Done in Hrun as ([] & st3 & [= <-] & Hrun).
    apply mret_Done in Hrun as [<- <-]. exists quizResponse.
    cbn [Body cache reviewCache ticks]. repeat split; congruence.
  - apply mret_Done in Hrun as [<- _]. done.
Qed.

(** The round trip through [GenerateAssignment]: after a response with
    the status 201, the same request on the state that was left is served
    from the cache, with the same value, as long as the clock reads less
    than 10 minutes after the reading of the first request. *)
Lemma GenerateAssignment_round_trip `{unicode.Tables} GeminiClient clock
    rangeOrder request
    st resp st' :
  GenerateAssignment GeminiClient clock rangeOrder (Some request) st = Done resp st' →
  Status resp = StatusCreated →
  clock (ticks st') < clock (ticks st) + 10 * Minute →
  ∃ st'', GenerateAssignment GeminiClient clock rangeOrder (Some request) st'
          = Done {| Status := StatusOK; Header := jsonHeader;
                    Body := Body resp |} st''
          ∧ callNo st'' = callNo st'.
Proof.
  intros Hrun Hstatus Hfresh.
  assert (validateRequest request = None) as Hvalid.
  { unfold GenerateAssignment in Hrun.
    destruct (validateRequest request); [| done].
    apply mret_Done in Hrun as [<- _]. done. }
  destruct (GenerateAssignment_store _ _ _ _ _ _ _ Hrun Hstatus)
    as (quizResponse & Hbody & Hcache & _ & _).
  destruct (GenerateAssignment_hit GeminiClient clock rangeOrder request st'
              (anyQuizResponse quizResponse) Hvalid) as (st'' & Hhit & _ & Hcalls).
  - rewrite Hcache.
    apply (cache_lookup_fresh (cache st) (generateCacheKey request)
             (anyQuizResponse quizResponse)). lia.
  - exists st''. by rewrite Hbody.
Qed.

(** A hit of [GenerateReview]: the cached value is written when the key
    has at least 10 bytes; with a shorter key the slice [cacheKey[:10]] of
    the log line panics before anything is written. *)
Lemma GenerateReview_hit `{unicode.Tables} GeminiClient clock request st data :
  validateReviewRequest request = None →
  reviewCacheHit (reviewCache st) (generateReviewCacheKey request)
    (clock (S (ticks st))) = Some data →
  (10 <= str_len (generateReviewCacheKey request) →
   ∃ st', GenerateReview GeminiClient clock (Some request) st
          = Done {| Status := StatusOK; Header := reviewHeader;
                    Body := bodyJSON data |} st'
          ∧ sameCaches st st' ∧ callNo st' = callNo st)
  ∧ (str_len (generateReviewCacheKey request) < 10 →
     ∃ st', GenerateReview GeminiClient clock (Some request) st = Panicked st').
Proof.
  intros Hvalid Hhit. unfold GenerateReview. rewrite Hvalid.
  unfold mbind, M_bind, timeNow, getState. cbn [reviewCache ticks].
  rewrite Hhit. unfold sliceTo. split; intros Hlen.
  - destruct (Z.leb_spec 10 (str_len (generateReviewCacheKey request)));
      [| lia].
    by eexists.
  - destruct (Z.leb_spec 10 (str_len (generateReviewCacheKey request)));
      [lia |].
    by eexists.
Qed.

Lemma generateReviewWithGemini_Done `{unicode.Tables} GeminiClient clock req
    startTime st r st' :
  generateReviewWithGemini GeminiClient clock req startTime st = Done r st' →
  sameCaches st st'.
Proof.
  unfold generateReviewWithGemini.
  intros (geminiResp & st1 & Hcall & Hgen)%bind_Done.
  apply generateContent_Done in Hcall as [Hc1 _].
  destruct geminiResp as [geminiResp | err];
    [| by apply mret_Done in Hgen as [_ <-]].
  destruct (parseGeminiReviewResponse geminiResp) as [reviewData | err];
    [| by apply mret_Done in Hgen as [_ <-]].
  apply bind_Done in Hgen as (since & st2 & Hsince & Hgen).
  apply timeNow_Done in Hsince as (_ & Hc2 & _).
  apply bind_Done in Hgen as (generatedAt & st3 & Hat & Hgen).
  apply timeNow_Done in Hat as (_ & Hc3 & _).
  apply mret_Done in Hgen as [_ <-].
  eauto using sameCaches_trans.
Qed.

(** A store of [GenerateReview]: on a miss, a response with the status
    200 comes with the entry of the request in the review cache, holding
    the value that was written and expiring [CACHE_DURATION] after the
    second reading of the clock. *)
Lemma GenerateReview_store `{unicode.Tables} GeminiClient clock request st
    resp st' :
  reviewCacheHit (reviewCache st) (generateReviewCacheKey request)
    (clock (S (ticks st))) = None →
  GenerateReview GeminiClient clock (Some request) st = Done resp st' →
  Status resp = StatusOK →
  ∃ reviewResponse,
    Body resp = bodyJSON (anyReviewResponse reviewResponse)
    ∧ reviewCache st'
      = <[generateReviewCacheKey request :=
            {| rData := anyReviewResponse reviewResponse;
               rExpiresAt := clock (S (ticks st)) + CACHE_DURATION |}]>
          (reviewCache st)
    ∧ cache st' = cache st.
Proof.
  unfold GenerateReview. intros Hmiss Hrun Hstatus.
  apply bind_Done in Hrun as (startTime & st0 & Hstart & Hrun).
  apply timeNow_Done in Hstart as (_ & [Hc0 Hr0] & _ & Ht0).
  destruct (validateReviewRequest request) as [err |].
  { apply mret_Done in Hrun as [<- _]. done. }
  apply bind_Done in Hrun as (now & st1 & Hnow & Hrun).
  apply timeNow_Done in Hnow as (-> & [Hc1 Hr1] & _ & Ht1).
  apply bind_Done in Hrun as (st1' & st1'' & [= <- <-] & Hrun).
  rewrite Hr1, Hr0, Ht0, Hmiss in Hrun.
  apply bind_Done in Hrun as (r & st2 & Hgen & Hrun).
  apply generateReviewWithGemini_Done in Hgen as [Hc2 Hr2].
  destruct r as [reviewResponse | err].
  - apply bind_Done in Hrun as (st2' & st2'' & [= <- <-] & Hrun).
    apply bind_Done in Hrun as ([] & st3 & [= <-] & Hrun).
    apply mret_Done in Hrun as [<- <-]. exists reviewResponse.
    cbn [Body cache reviewCache]. repeat split; congruence.
  - apply mret_Done in Hrun as [<- _]. done.
Qed.

(** C5: the round trip through the cache of the reviews fails.  The
    first request for a text of eleven words is answered with the status
    200 and its review is stored under the key "4b-11", to expire one hour
    after the second reading of the clock.  When the same request comes
    again one second later, the lookup of the handler finds the entry,
    before its expiry, with the review that was stored; but the handler
    then slices ten bytes from the key for its log line and panics, so
    that the review is not read back. *)
Theorem GenerateReview_round_trip_panics :
  ∃ resp st1 item st2,
    @GenerateReview identityTables (constantClient reviewAnswer) secondsClock
      (Some cachedReviewRequest) initialState = Done resp st1
    ∧ Status resp = StatusOK
    ∧ @generateReviewCacheKey identityTables cachedReviewRequest = "4b-11"
    ∧ reviewCache st1 !! "4b-11" = Some item
    ∧ Body resp = bodyJSON (rData item)
    ∧ rExpiresAt item = secondsClock 1 + CACHE_DURATION
    ∧ secondsClock (S (ticks st1)) < rExpiresAt item
    ∧ reviewCacheHit (reviewCache st1) "4b-11" (secondsClock (S (ticks st1)))
      = Some (rData item)
    ∧ sliceTo "4b-11" 10 = None
    ∧ @GenerateReview identityTables (constantClient reviewAnswer) secondsClock
        (Some cachedReviewRequest) st1 = Panicked st2.
Proof.
  eexists _, _, _, _. split; [vm_compute; reflexivity |].
  split; [reflexivity |]. split; [by vm_compute |].
  split; [vm_compute; reflexivity |]. split; [reflexivity |].
  split; [reflexivity |]. split; [by vm_compute |].
  split; [by vm_compute |]. split; [by vm_compute |].
  vm_compute. reflexivity.
Qed.

(** A run of [GenerateAssignment]: the second request is served from the
    cache with the value of the first. *)
Example GenerateAssignment_twice :
  ∃ resp st1 st2,
    @GenerateAssignment identityTables (constantClient threeEssaysAnswer)
      secondsClock map_to_list (Some twoEssaysRequest) initialState = Done resp st1
    ∧ Status resp = StatusCreated
    ∧ @GenerateAssignment identityTables (constantClient threeEssaysAnswer)
        secondsClock map_to_list (Some twoEssaysRequest) st1
      = Done {| Status := StatusOK; Header := jsonHeader; Body := Body resp |}
          st2
    ∧ callNo st2 = callNo st1.
Proof.
  eexists _, _, _. split; [vm_compute; reflexivity |].
  split; [reflexivity |]. split; [vm_compute; reflexivity | reflexivity].
Qed.

(** A run of the review cache: the entry stored by a first request is a
    hit one second later; after [ClearReviewCache] it is a miss, and the
    same request is generated again by a second call to the model. *)
Example ClearReviewCache_run :
  ∃ resp1 st1 resp2 st2 resp3 st3,
    @GenerateReview identityTables (constantClient reviewAnswer) secondsClock
      (Some cachedReviewRequest) initialState = Done resp1 st1
    ∧ is_Some (reviewCacheHit (reviewCache st1) "4b-11"
                 (secondsClock (S (ticks st1))))
    ∧ ClearReviewCache st1 = Done resp2 st2
    ∧ reviewCacheHit (reviewCache st2) "4b-11" (secondsClock (S (ticks st2)))
      = None
    ∧ @GenerateReview identityTables (constantClient reviewAnswer) secondsClock
        (Some cachedReviewRequest) st2 = Done resp3 st3
    ∧ Status resp3 = StatusOK
    ∧ callNo st1 = 1%nat ∧ callNo st3 = 2%nat.
Proof.
  eexists _, _, _, _, _, _.
  split; [vm_compute; reflexivity |].
  split; [vm_compute; eexists; reflexivity |].
  split; [vm_compute; reflexivity |].
  split; [vm_compute; reflexivity |].
  split; [vm_compute; reflexivity |].
  split; [reflexivity |]. split; reflexivity.
Qed.

(** * Further properties *)

(** ** Trimming *)

Lemma trimLeft_app_spaces f ws l :
  Forall (λ c : Z * string, f c.1 = true) ws →
  strings.trimLeft f (ws ++ l) = strings.trimLeft f l.
Proof.
  induction 1 as [|c ws Hc _ IH]; [done |]. simpl. by rewrite Hc.
Qed.

Lemma trimRight_nonspace f c l :
  f c.1 = false → strings.trimRight f (c :: l) = c :: strings.trimRight f l.
Proof. intros Hc. simpl. rewrite Hc. by destruct (strings.trimRight f l). Qed.

Lemma trimRight_all_space f ws :
  Forall (λ c : Z * string, f c.1 = true) ws → strings.trimRight f ws = [].
Proof.
  induction 1 as [|c ws Hc _ IH]; [done |]. simpl. by rewrite IH, Hc.
Qed.

Lemma trimRight_app_spaces f l ws :
  Forall (λ c : Z * string, f c.1 = true) ws →
  strings.trimRight f (l ++ ws) = strings.trimRight f l.
Proof.
  intros Hws. induction l as [|c l IH]; simpl.
  - by apply trimRight_all_space.
  - by rewrite IH.
Qed.

Lemma trim_app_spaces f l ws :
  Forall (λ c : Z * string, f c.1 = true) ws →
  strings.trimRight f (strings.trimLeft f (l ++ ws))
  = strings.trimRight f (strings.trimLeft f l).
Proof.
  intros Hws. induction l as [|c l IH]; simpl.
  - rewrite <- (app_nil_r ws), trimLeft_app_spaces by done. done.
  - destruct (f c.1) eqn:Hc; [done |].
    rewrite app_comm_cons. by apply trimRight_app_spaces.
Qed.

Lemma trimRight_idem f l :
  strings.trimRight f (strings.trimRight f l) = strings.trimRight f l.
Proof.
  induction l as [|c l IH]; [done |]. simpl.
  destruct (strings.trimRight f l) as [|c' l'] eqn:Ht.
  - destruct (f c.1) eqn:Hc; [done |]. simpl. by rewrite Hc.
  - change (strings.trimRight f (c :: c' :: l') = c :: c' :: l').
    simpl. simpl in IH. destruct (strings.trimRight f l'); by rewrite IH.
Qed.

Lemma trim_idem f l :
  strings.trimRight f (strings.trimLeft f
    (strings.trimRight f (strings.trimLeft f l)))
  = strings.trimRight f (strings.trimLeft f l).
Proof.
  induction l as [|c l IH]; [done |]. simpl.
  destruct (f c.1) eqn:Hc; [done |].
  rewrite trimRight_nonspace by done. simpl. rewrite Hc.
  rewrite trimRight_nonspace by done. by rewrite trimRight_idem.
Qed.

(** [TrimSpace] is idempotent. *)
Lemma TrimSpace_idem (s : string) :
  strings.TrimSpace (strings.TrimSpace s) = strings.TrimSpace s.
Proof.
  unfold strings.TrimSpace at 1. unfold strings.TrimFunc.
  rewrite runes_TrimSpace, trim_idem. done.
Qed.

(** White space put before and after a string is trimmed away. *)
Lemma TrimSpace_padded (ws1 s ws2 : string) :
  whitespaceOnly ws1 → whitespaceOnly ws2 →
  strings.TrimSpace (ws1 +:+ s +:+ ws2) = strings.TrimSpace s.
Proof.
  intros H1 H2. unfold strings.TrimSpace, strings.TrimFunc.
  rewrite runes_app_valid by by apply whitespaceOnly_valid.
  rewrite runes_app by by apply whitespaceOnly_startsRune.
  rewrite trimLeft_app_spaces by done. by rewrite trim_app_spaces.
Qed.

Lemma TrimSpace_whitespaceOnly (s : string) :
  whitespaceOnly (strings.TrimSpace s) ↔ whitespaceOnly s.
Proof.
  rewrite <- !TrimSpace_empty_iff. by rewrite TrimSpace_idem.
Qed.

(** ** The assignment handler *)

Lemma validateRequest_None (request : GenerateQuizzesRequest) :
  validateRequest request = None ↔
    ¬ whitespaceOnly (Topic request)
    ∧ GetTotalWords (Topic request) <= 10
    ∧ 1 <= TotalQuestions request <= 50
    ∧ 1 <= Z.of_nat (length (AssignmentTypes request))
        <= TotalQuestions request.
Proof.
  unfold validateRequest, GetTotalWords.
  rewrite Fields_TrimSpace, <- TrimSpace_empty_iff.
  destruct (String.eqb_spec (strings.TrimSpace (Topic request)) EmptyString)
    as [He | Hne].
  { split; [done | by intros [? _]]. }
  destruct (Z.ltb_spec 10 (Z.of_nat (length (strings.Fields (Topic request))))).
  { split; [done | lia]. }
  destruct (Z.ltb_spec (TotalQuestions request) 1).
  { split; [done | lia]. }
  destruct (Z.ltb_spec 50 (TotalQuestions request)).
  { split; [done | lia]. }
  cbn [orb].
  destruct (Z.ltb_spec (TotalQuestions request)
              (Z.of_nat (length (AssignmentTypes request)))).
  { split; [done | lia]. }
  destruct (Z.eqb_spec (Z.of_nat (length (AssignmentTypes request))) 0).
  { split; [done | lia]. }
  split; [intros _ | done]. repeat split; try done; lia.
Qed.

(** X1: [validateRequest] accepts a request exactly when its topic is not
    made of white space only and has at most 10 words, the total is
    between 1 and 50, and the number of types is between 1 and the total;
    the words are those of the topic as it was sent, the white space
    around it does not count. *)
Theorem validateRequest_accepts (request : GenerateQuizzesRequest) :
  validateRequest request = None ↔
    ¬ whitespaceOnly (Topic request)
    ∧ GetTotalWords (Topic request) <= 10
    ∧ 1 <= TotalQuestions request <= 50
    ∧ 1 <= Z.of_nat (length (AssignmentTypes request))
        <= TotalQuestions request.
Proof. apply validateRequest_None. Qed.

(** ** The distribution, whatever the list of types *)

Lemma distributeLoop_lookup_last baseCount remainder i types d t c :
  distributeLoop baseCount remainder i types d !! t = Some c →
  ((t ∉ types) ∧ d !! t = Some c)
  ∨ ∃ j : nat, types !! j = Some t
      ∧ c = share baseCount remainder (i + Z.of_nat j)
      ∧ ∀ k : nat, (j < k)%nat → types !! k ≠ Some t.
Proof.
  revert i d. induction types as [|q rest IH]; intros i d Hl.
  - left. split; [apply not_elem_of_nil | done].
  - rewrite distributeLoop_cons in Hl.
    destruct (IH _ _ Hl) as [[Hnot Hd] | (j & Hj & Hc & Hlast)].
    + destruct (decide (q = t)) as [-> | Hne].
      * rewrite lookup_insert_eq in Hd. injection Hd as <-.
        right. exists 0%nat. split; [done |]. split; [f_equal; lia |].
        intros [|k] Hk; [lia |]. simpl. intros Hin.
        apply Hnot. by eapply list_elem_of_lookup_2.
      * rewrite lookup_insert_ne in Hd by done. left. split; [| done].
        by apply not_elem_of_cons.
    + right. exists (S j). split; [done |]. split; [rewrite Hc; f_equal; lia |].
      intros [|k] Hk; [lia |]. simpl. apply Hlast. lia.
Qed.

Lemma distributeLoop_lookup_in baseCount remainder i types d t :
  t ∈ types →
  is_Some (distributeLoop baseCount remainder i types d !! t).
Proof.
  revert i d. induction types as [|q rest IH]; intros i d Hin.
  { by apply elem_of_nil in Hin. }
  rewrite distributeLoop_cons.
  destruct (decide (t ∈ rest)) as [Hr | Hr]; [by apply IH |].
  rewrite distributeLoop_lookup_notin by done.
  apply elem_of_cons in Hin as [-> | Hin]; [| done].
  rewrite lookup_insert_eq. by eexists.
Qed.

Lemma distribution_entries (types : list string) (total : Z)
    (d : gmap string Z) :
  distributeQuestionTypes types total = Some d →
  let n := Z.of_nat (length types) in
  (∀ t, is_Some (d !! t) ↔ t ∈ types)
  ∧ ∀ t c, d !! t = Some c →
      ∃ j : nat, types !! j = Some t
        ∧ c = share (total `quot` n) (total `rem` n) (Z.of_nat j)
        ∧ (c = total `quot` n ∨ c = total `quot` n + 1)
        ∧ ∀ k : nat, (j < k)%nat → types !! k ≠ Some t.
Proof.
  intros Hd n. unfold distributeQuestionTypes in Hd. fold n in Hd.
  destruct (n =? 0); [done |]. injection Hd as <-.
  assert (∀ t c,
    distributeLoop (total `quot` n) (total `rem` n) 0 types ∅ !! t = Some c →
    ∃ j : nat, types !! j = Some t
      ∧ c = share (total `quot` n) (total `rem` n) (Z.of_nat j)
      ∧ ∀ k : nat, (j < k)%nat → types !! k ≠ Some t) as Hlast.
  { intros t c Hl.
    apply distributeLoop_lookup_last in Hl as [[_ He] | (j & Hj & Hc & Hk)].
    - by rewrite lookup_empty in He.
    - exists j. by rewrite Z.add_0_l in Hc. }
  split.
  - intros t. split.
    + intros [c Hc]. apply Hlast in Hc as (j & Hj & _).
      by eapply list_elem_of_lookup_2.
    + apply distributeLoop_lookup_in.
  - intros t c Hc. apply Hlast in Hc as (j & Hj & -> & Hk).
    exists j. repeat split; try done.
    unfold share. destruct (_ <? _); [right | left]; lia.
Qed.

(** X2: whatever the list of types (repeated names included), the map
    that [distributeQuestionTypes] returns has an entry for exactly the
    types of the list, and the count of a type is the share of its last
    occurrence in the list: the floor of the division, plus one when that
    occurrence is among the first [total mod n] positions. *)
Theorem distributeQuestionTypes_entries (types : list string) (total : Z)
    (d : gmap string Z) :
  distributeQuestionTypes types total = Some d →
  let n := Z.of_nat (length types) in
  (∀ t, is_Some (d !! t) ↔ t ∈ types)
  ∧ ∀ t c, d !! t = Some c →
      ∃ j : nat, types !! j = Some t
        ∧ c = share (total `quot` n) (total `rem` n) (Z.of_nat j)
        ∧ (c = total `quot` n ∨ c = total `quot` n + 1)
        ∧ ∀ k : nat, (j < k)%nat → types !! k ≠ Some t.
Proof. apply distribution_entries. Qed.

Lemma distributeQuestionTypes_entries_witness :
  ∃ d, distributeQuestionTypes ["Essay"; "Short Answer"; "Essay"] 5 = Some d
       ∧ (is_Some (d !! "Essay") ↔ "Essay" ∈ ["Essay"; "Short Answer"; "Essay"])
       ∧ ∀ c, d !! "Essay" = Some c → c = 1 ∨ c = 2.
Proof.
  assert (∃ d, distributeQuestionTypes ["Essay"; "Short Answer"; "Essay"] 5
               = Some d) as [d Hd] by (eexists; reflexivity).
  exists d. split; [exact Hd |].
  destruct (distributeQuestionTypes_entries _ _ _ Hd) as [Hdom Hval].
  split; [apply Hdom |].
  intros c Hc. destruct (Hval _ _ Hc) as (j & _ & _ & Hcases & _).
  exact Hcases.
Defined.

(** X3: for pairwise distinct types and a positive total, the counts sum
    to the total, two counts never differ by more than one, and when there
    are no more types than questions (as [validateRequest] demands) every
    type receives at least one question. *)
Theorem distributeQuestionTypes_even (types : list string) (total : Z) :
  NoDup types → types ≠ [] → 0 < total →
  ∃ d, distributeQuestionTypes types total = Some d
    ∧ distributionTotal d = total
    ∧ (∀ t1 c1 t2 c2, d !! t1 = Some c1 → d !! t2 = Some c2 →
         -1 <= c1 - c2 <= 1)
    ∧ (Z.of_nat (length types) <= total →
       ∀ t c, d !! t = Some c → 1 <= c).
Proof.
  intros Hnd Hne Htot.
  destruct (distributeQuestionTypes_NoDup types total Hne Htot Hnd)
    as (d & Hd & Hsum & _).
  exists d. split; [done |]. split; [done |].
  destruct (distribution_entries _ _ _ Hd) as [_ Hval].
  split.
  - intros t1 c1 t2 c2 H1 H2.
    destruct (Hval _ _ H1) as (_ & _ & _ & Hc1 & _).
    destruct (Hval _ _ H2) as (_ & _ & _ & Hc2 & _). lia.
  - intros Hlen t c Hc. destruct (Hval _ _ Hc) as (_ & _ & _ & Hc1 & _).
    assert (0 < Z.of_nat (length types))
      by (destruct types; simpl; [done | lia]).
    assert (1 <= total `quot` Z.of_nat (length types)).
    { apply Z.quot_le_lower_bound; lia. }
    lia.
Qed.

Lemma distributeQuestionTypes_even_witness :
  ∃ d, distributeQuestionTypes (AssignmentTypes climateRequest)
         (TotalQuestions climateRequest) = Some d
    ∧ distributionTotal d = 3
    ∧ ∀ t c, d !! t = Some c → 1 <= c.
Proof.
  destruct (distributeQuestionTypes_even (AssignmentTypes climateRequest)
              (TotalQuestions climateRequest))
    as (d & Hd & Hsum & _ & Hpos).
  - apply NoDup_cons. split; [| apply NoDup_singleton].
    intros Hin. apply list_elem_of_singleton in Hin. discriminate.
  - discriminate.
  - reflexivity.
  - exists d. split; [exact Hd |]. split; [exact Hsum |].
    apply Hpos. vm_compute. discriminate.
Defined.

(** ** Runs of the assignment handler *)

Lemma bind_run {A B : Type} (m : M A) (f : A → M B) (st st1 : State) (a : A) :
  m st = Done a st1 → (x ← m; f x) st = f a st1.
Proof. unfold mbind, M_bind. by intros ->. Qed.

Lemma generateContent_run GeminiClient model prompt st :
  ∃ r st', generateContent GeminiClient model prompt st = Done r st'
    ∧ sameCaches st st' ∧ ticks st' = ticks st
    ∧ (callNo st <= callNo st' <= S (callNo st))%nat
    ∧ (GeminiClient = None → callNo st' = callNo st ∧ ∃ err, r = inr err).
Proof.
  unfold generateContent. destruct GeminiClient as [client |].
  - eexists _, _. split; [reflexivity |]. cbn. repeat split; try done; lia.
  - eexists _, _. split; [reflexivity |]. repeat split; try done; try lia.
    by eexists.
Qed.

Lemma generateAdditionalQuizzes_run `{unicode.Tables} GeminiClient req n st :
  ∃ r st', generateAdditionalQuizzes GeminiClient req n st = Done r st'
    ∧ sameCaches st st' ∧ ticks st' = ticks st
    ∧ (callNo st <= callNo st' <= S (callNo st))%nat
    ∧ (TotalQuestions req <= n → r = inl [] ∧ callNo st' = callNo st).
Proof.
  unfold generateAdditionalQuizzes.
  destruct (Z.leb_spec (TotalQuestions req - n) 0).
  - eexists _, _. split; [reflexivity |]. repeat split; try done; lia.
  - destruct (generateContent_run GeminiClient "gemini-2.0-flash"
                (additionalPromptText req (TotalQuestions req - n)) st)
      as (r & st1 & Hcall & Hc & Ht & Hn & _).
    unfold callGeminiAPI. rewrite (bind_run _ _ _ _ _ Hcall).
    destruct r; eexists _, _; (split; [reflexivity |]);
      (split; [done |]); (split; [done |]); (split; [lia |]);
      intros; lia.
Qed.

(** With at least one type and a total that is not negative,
    [generateQuizzesWithGemini] returns: it does not panic. *)
Lemma generateQuizzesWithGemini_run `{unicode.Tables} GeminiClient rangeOrder
    req st :
  AssignmentTypes req ≠ [] → 0 <= TotalQuestions req →
  ∃ r st', generateQuizzesWithGemini GeminiClient rangeOrder req st = Done r st'
    ∧ sameCaches st st' ∧ ticks st' = ticks st
    ∧ (callNo st <= callNo st' <= callNo st + 2)%nat
    ∧ (GeminiClient = None → callNo st' = callNo st ∧ ∃ err, r = inr err).
Proof.
  intros Htypes Htotal. unfold generateQuizzesWithGemini.
  assert (∃ prompt, buildGeminiPrompt rangeOrder req = Some prompt) as [prompt Hprompt].
  { unfold buildGeminiPrompt, distributeQuestionTypes.
    destruct (Z.eqb_spec (Z.of_nat (length (AssignmentTypes req))) 0) as [He |].
    - destruct (AssignmentTypes req); [done | simpl in He; lia].
    - by eexists. }
  rewrite Hprompt. cbn [orPanic].
  rewrite (bind_run (mret prompt) _ st st prompt) by done.
  destruct (generateContent_run GeminiClient "gemini-2.0-flash" prompt st)
    as (r & st1 & Hcall & Hc1 & Ht1 & Hn1 & Hnil).
  unfold callGeminiAPI at 1. rewrite (bind_run _ _ _ _ _ Hcall).
  destruct r as [geminiResp | err].
  2:{ eexists _, _. split; [reflexivity |].
      split; [done |]. split; [done |]. split; [lia |].
      intros Hnone. split; [by apply Hnil | by eexists]. }
  assert (GeminiClient ≠ None) as Hsome.
  { intros Hnone. by destruct (Hnil Hnone) as (_ & ? & ?). }
  destruct (parseGeminiResponse geminiResp (AssignmentTypes req))
    as [quizzes | err].
  2:{ eexists _, _. split; [reflexivity |].
      split; [done |]. split; [done |]. split; [lia | done]. }
  assert (∃ quizzes1 st2,
    (if Z.of_nat (length quizzes) <? TotalQuestions req
     then additionalQuizzes ←
            generateAdditionalQuizzes GeminiClient req
              (Z.of_nat (length quizzes));
          match additionalQuizzes with
          | inl more => mret (quizzes ++ more)
          | inr _ => mret quizzes
          end
     else mret quizzes) st1 = Done quizzes1 st2
    ∧ sameCaches st1 st2 ∧ ticks st2 = ticks st1
    ∧ (callNo st1 <= callNo st2 <= S (callNo st1))%nat)
    as (quizzes1 & st2 & Hmore & Hc2 & Ht2 & Hn2).
  { destruct (_ <? TotalQuestions req).
    - destruct (generateAdditionalQuizzes_run GeminiClient req
                  (Z.of_nat (length quizzes)) st1)
        as (more & st2 & Hadd & Hc2 & Ht2 & Hn2 & _).
      rewrite (bind_run _ _ _ _ _ Hadd).
      destruct more; eexists _, _; (split; [reflexivity |]); done.
    - eexists _, _. split; [reflexivity |]. repeat split; try done; lia. }
  rewrite (bind_run _ _ _ _ _ Hmore).
  assert (∃ quizzes2,
    (if TotalQuestions req <? Z.of_nat (length quizzes1)
     then orPanic (sliceListTo quizzes1 (TotalQuestions req))
     else mret quizzes1) st2 = Done quizzes2 st2) as [quizzes2 Hcut].
  { destruct (Z.ltb_spec (TotalQuestions req) (Z.of_nat (length quizzes1))).
    - unfold sliceListTo.
      destruct (Z.leb_spec 0 (TotalQuestions req)); [| lia].
      destruct (Z.leb_spec (TotalQuestions req) (Z.of_nat (length quizzes1)));
        [| lia].
      by eexists.
    - by eexists. }
  rewrite (bind_run _ _ _ _ _ Hcut).
  eexists _, _. split; [reflexivity |].
  split; [by eapply sameCaches_trans |]. split; [congruence |].
  split; [lia | done].
Qed.

Lemma contains_spec (slice : list string) (item : string) :
  contains slice item = true ↔ item ∈ slice.
Proof.
  induction slice as [| s rest IH]; cbn [contains].
  - split; [done | intros Hin; inversion Hin].
  - destruct (String.eqb_spec s item) as [-> | Hne].
    + split; [intros _; apply list_elem_of_here | done].
    + rewrite IH. split; [apply list_elem_of_further |].
      intros Hin. inversion Hin; [congruence | done].
Qed.

Lemma isValidQuiz_types (quiz : Quiz) :
  isValidQuiz quiz = true →
  Question quiz ≠ EmptyString
  ∧ Type' quiz ∈ ["Multiple Choice"; "Fill in the Blank"; "Short Answer";
                  "Essay"].
Proof.
  unfold isValidQuiz.
  destruct (String.eqb_spec (Question quiz) EmptyString); [done |].
  intros Hv. split; [done |].
  destruct (String.eqb_spec (Type' quiz) "Multiple Choice") as [-> |];
    [set_solver |].
  destruct (String.eqb_spec (Type' quiz) "Fill in the Blank") as [-> |];
    [set_solver |].
  destruct (String.eqb_spec (Type' quiz) "Short Answer") as [-> |];
    [set_solver |].
  destruct (String.eqb_spec (Type' quiz) "Essay") as [-> |];
    [set_solver | done].
Qed.

Lemma keepQuiz_kept `{unicode.Tables} requestedTypes gQuiz quiz :
  keepQuiz requestedTypes gQuiz = Some quiz → keptQuiz requestedTypes quiz.
Proof.
  intros Hkeep.
  destruct (keepQuiz_Some _ _ _ Hkeep) as (Hv & Hc & _).
  destruct (isValidQuiz_types _ Hv) as [Hq Ht].
  apply contains_spec in Hc.
  unfold keepQuiz in Hkeep.
  destruct (negb (contains _ _)); [done |].
  destruct (negb (isValidQuiz _)); [done |].
  injection Hkeep as <-. cbn [Question Answer Explanation] in *.
  repeat split; try done; apply TrimSpace_idem.
Qed.

Lemma keptQuiz_ID `{unicode.Tables} requestedTypes quiz (i : Z) :
  keptQuiz requestedTypes quiz →
  keptQuiz requestedTypes
    {| ID := i; Type' := Type' quiz; Question := Question quiz;
       Answer := Answer quiz; Options := Options quiz;
       CorrectIndex := CorrectIndex quiz; Explanation := Explanation quiz |}.
Proof. by destruct quiz. Qed.

Lemma parseGeminiResponse_kept `{unicode.Tables} response requestedTypes quizzes :
  parseGeminiResponse response requestedTypes = inl quizzes →
  Forall (keptQuiz requestedTypes) quizzes.
Proof.
  unfold parseGeminiResponse.
  destruct (json.Unmarshal _ _ _) as [geminiData [err |]]; [done |].
  intros [= <-]. apply Forall_forall. intros quiz Hin.
  apply list_elem_of_omap in Hin as (gQuiz & _ & Hkeep).
  by eapply keepQuiz_kept.
Qed.

Lemma addIDs_kept `{unicode.Tables} requestedTypes quizzes :
  Forall (keptQuiz requestedTypes) quizzes →
  Forall (keptQuiz requestedTypes) (addIDs quizzes).
Proof.
  intros Hall. apply Forall_lookup. intros i quiz Hi.
  unfold addIDs in Hi. rewrite list_lookup_imap in Hi.
  destruct (quizzes !! i) as [quiz0 |] eqn:Hq; [| done].
  injection Hi as <-. apply keptQuiz_ID.
  by eapply (proj1 (Forall_lookup _ _) Hall).
Qed.

Lemma sliceListTo_kept {A : Type} (P : A → Prop) (l l' : list A) (n : Z) :
  sliceListTo l n = Some l' → Forall P l → Forall P l'.
Proof.
  unfold sliceListTo. destruct (0 <=? n); [| done].
  destruct (n <=? _); [| done]. intros [= <-]. apply Forall_take.
Qed.

(** X4: every quiz that [generateQuizzesWithGemini] returns passes
    [isValidQuiz], has one of the types of the request, which is one of
    the four known types, and has a question that is not empty and has no
    white space around it; the response repeats the topic and the level of
    the request. *)
Theorem generateQuizzesWithGemini_quizzes_valid `{unicode.Tables}
    (GeminiClient : option (nat → string → string → string + error))
    (rangeOrder : mapOrder) (req : GenerateQuizzesRequest) (st st' : State)
    (response : QuizResponse) :
  generateQuizzesWithGemini GeminiClient rangeOrder req st
  = Done (inl response) st' →
  qrTopic response = Topic req
  ∧ qrLevel response = EnglishLevel req
  ∧ ∀ quiz, quiz ∈ qrQuizzes response →
      isValidQuiz quiz = true
      ∧ Type' quiz ∈ AssignmentTypes req
      ∧ Type' quiz ∈ ["Multiple Choice"; "Fill in the Blank"; "Short Answer";
                      "Essay"]
      ∧ Question quiz ≠ EmptyString
      ∧ strings.TrimSpace (Question quiz) = Question quiz.
Proof.
  unfold generateQuizzesWithGemini. intros Hgen.
  apply bind_Done in Hgen as (prompt & st1 & _ & Hgen).
  apply bind_Done in Hgen as (geminiResp & st2 & _ & Hgen).
  destruct geminiResp as [geminiResp | err];
    [| by apply mret_Done in Hgen as [? _]].
  destruct (parseGeminiResponse geminiResp (AssignmentTypes req))
    as [quizzes | err] eqn:Hparse; [| by apply mret_Done in Hgen as [? _]].
  apply parseGeminiResponse_kept in Hparse.
  apply bind_Done in Hgen as (quizzes1 & st3 & Hmore & Hgen).
  apply bind_Done in Hgen as (quizzes2 & st4 & Hcut & Hgen).
  apply mret_Done in Hgen as [[= <-] _]. cbn [qrQuizzes qrTopic qrLevel].
  split; [done |]. split; [done |].
  assert (Forall (keptQuiz (AssignmentTypes req)) quizzes1) as H1.
  { destruct (_ <? TotalQuestions req).
    - apply bind_Done in Hmore as (more & st5 & Hadd & Hmore).
      destruct more as [more | err].
      + apply mret_Done in Hmore as [<- _]. apply Forall_app. split; [done |].
        unfold generateAdditionalQuizzes in Hadd.
        destruct (_ <=? 0).
        * apply mret_Done in Hadd as [[= <-] _]. constructor.
        * apply bind_Done in Hadd as (resp & st6 & _ & Hadd).
          destruct resp as [resp | err]; apply mret_Done in Hadd as [Hadd _];
            [| done].
          by eapply parseGeminiResponse_kept.
      + by apply mret_Done in Hmore as [<- _].
    - by apply mret_Done in Hmore as [<- _]. }
  assert (Forall (keptQuiz (AssignmentTypes req)) quizzes2) as H2.
  { destruct (TotalQuestions req <? _).
    - apply orPanic_Done in Hcut as [Hcut _]. by eapply sliceListTo_kept.
    - by apply mret_Done in Hcut as [<- _]. }
  intros quiz Hin.
  apply addIDs_kept in H2.
  destruct (proj1 (Forall_forall _ _) H2 quiz Hin) as (? & ? & ? & ? & ? & _).
  done.
Qed.

Lemma generateQuizzesWithGemini_quizzes_valid_witness :
  ∃ response st',
    @generateQuizzesWithGemini identityTables (constantClient threeEssaysAnswer)
      map_to_list twoEssaysRequest initialState = Done (inl response) st'
    ∧ qrTopic response = "Travel"
    ∧ ∀ quiz, quiz ∈ qrQuizzes response →
        isValidQuiz quiz = true ∧ Type' quiz ∈ ["Essay"].
Proof.
  assert (∃ response st',
    @generateQuizzesWithGemini identityTables (constantClient threeEssaysAnswer)
      map_to_list twoEssaysRequest initialState = Done (inl response) st') as Hrun.
  { vm_compute. eexists _, _. reflexivity. }
  destruct Hrun as (response & st' & Hrun). exists response, st'.
  split; [exact Hrun |].
  destruct (@generateQuizzesWithGemini_quizzes_valid identityTables
              _ _ _ _ _ _ Hrun) as (Htopic & _ & Hall).
  split; [exact Htopic |].
  intros quiz Hin. destruct (Hall quiz Hin) as (Hv & Ht & _).
  split; [exact Hv | exact Ht].
Defined.

(** The runs of [GenerateAssignment], case by case. *)
Lemma GenerateAssignment_cases `{unicode.Tables} GeminiClient clock rangeOrder
    decoded st :
  (∃ msg, GenerateAssignment GeminiClient clock rangeOrder decoded st
          = Done (httpError ∅ msg StatusBadRequest) st
          ∧ (decoded = None
             ∨ ∃ request err, decoded = Some request
                 ∧ validateRequest request = Some err))
  ∨ ∃ request, decoded = Some request ∧ validateRequest request = None
      ∧ ((∃ data, cacheHit (cache st) (generateCacheKey request)
                    (clock (ticks st)) = Some data
            ∧ GenerateAssignment GeminiClient clock rangeOrder decoded st
              = Done {| Status := StatusOK; Header := jsonHeader;
                        Body := bodyJSON data |} (afterTick st))
         ∨ (cacheHit (cache st) (generateCacheKey request) (clock (ticks st))
            = None
            ∧ ∃ r st2,
                generateQuizzesWithGemini GeminiClient rangeOrder request (afterTick st)
                = Done r st2
                ∧ sameCaches st st2 ∧ ticks st2 = S (ticks st)
                ∧ (callNo st <= callNo st2 <= callNo st + 2)%nat
                ∧ (GeminiClient = None →
                   callNo st2 = callNo st ∧ ∃ err, r = inr err)
                ∧ match r with
                  | inr _ =>
                    GenerateAssignment GeminiClient clock rangeOrder decoded st
                    = Done (httpError ∅ "Failed to generate quizzes"
                              StatusInternalServerError) st2
                  | inl quizResponse =>
                    GenerateAssignment GeminiClient clock rangeOrder decoded st
                    = Done {| Status := StatusCreated; Header := jsonHeader;
                              Body := bodyJSON (anyQuizResponse quizResponse) |}
                        {| cache :=
                             <[generateCacheKey request :=
                                 {| Data := anyQuizResponse quizResponse;
                                    ExpiresAt :=
                                      clock (ticks st) + 10 * Minute |}]>
                               (cache st);
                           reviewCache := reviewCache st;
                           callNo := callNo st2; ticks := S (ticks st) |}
                  end)).
Proof.
  destruct decoded as [request |]; [| left; eexists; split; [done | by left]].
  destruct (validateRequest request) as [err |] eqn:Hvalid.
  { left. exists (errorText err). unfold GenerateAssignment. rewrite Hvalid.
    split; [done | right; by eexists _, _]. }
  right. exists request. split; [done |]. split; [done |].
  unfold GenerateAssignment. rewrite Hvalid.
  rewrite (bind_run (timeNow clock) _ st (afterTick st) (clock (ticks st)))
    by done.
  rewrite (bind_run getState _ (afterTick st) (afterTick st) (afterTick st))
    by done.
  cbn [afterTick cache].
  destruct (cacheHit (cache st) _ _) as [data |] eqn:Hhit.
  { left. by exists data. }
  right. split; [done |].
  apply validateRequest_None in Hvalid as (_ & _ & Htotal & Htypes).
  destruct (generateQuizzesWithGemini_run GeminiClient rangeOrder request (afterTick st))
    as (r & st2 & Hgen & [Hc Hr] & Ht & Hn & Hnil).
  { intros Hnil. rewrite Hnil in Htypes. simpl in Htypes. lia. }
  { lia. }
  exists r, st2. split; [done |]. split; [done |]. split; [done |].
  split; [done |]. split; [done |].
  fold (afterTick st). rewrite (bind_run _ _ _ _ _ Hgen).
  destruct r as [quizResponse | err]; [| done].
  rewrite (bind_run getState _ st2 st2 st2) by done.
  unfold mbind, M_bind, setCache. cbn in Hc, Hr, Ht.
  rewrite Hc, Hr, Ht. done.
Qed.

(** X5: [GenerateAssignment] always answers, whatever the body, the
    state, the client and the clock: it never panics, and its status is
    200, 201, 400 or 500.  It calls the model at most twice and not at all
    for a 400 or a 200; a 400 leaves the whole state as it was, clock
    included; only a 201 changes the cache, no entry is ever removed, and
    the cache of the reviews is never touched. *)
Theorem GenerateAssignment_responds `{unicode.Tables}
    (GeminiClient : option (nat → string → string → string + error))
    (clock : nat → Z) (rangeOrder : mapOrder)
    (decoded : option GenerateQuizzesRequest) (st : State) :
  ∃ resp st',
    GenerateAssignment GeminiClient clock rangeOrder decoded st = Done resp st'
    ∧ Status resp ∈ [StatusOK; StatusCreated; StatusBadRequest;
                     StatusInternalServerError]
    ∧ (callNo st <= callNo st' <= callNo st + 2)%nat
    ∧ (Status resp = StatusBadRequest → st' = st)
    ∧ (Status resp = StatusOK → callNo st' = callNo st)
    ∧ (Status resp ≠ StatusCreated → cache st' = cache st)
    ∧ (∀ key, is_Some (cache st !! key) → is_Some (cache st' !! key))
    ∧ reviewCache st' = reviewCache st.
Proof.
  destruct (GenerateAssignment_cases GeminiClient clock rangeOrder decoded st)
    as [(msg & Hrun & _)
       | (request & _ & _ & [(data & _ & Hrun)
                            | (_ & r & st2 & _ & [Hc Hr] & _ & Hn & _ & Hrun)])].
  - eexists _, _. split; [exact Hrun |]. cbn [Status httpError].
    split; [in_list |]. split; [lia |]. done.
  - eexists _, _. split; [exact Hrun |].
    cbn [Status afterTick callNo cache reviewCache].
    split; [in_list |]. split; [lia |]. done.
  - destruct r as [quizResponse | err]; rewrite Hrun; eexists _, _;
      (split; [done |]); cbn [Status httpError callNo cache reviewCache].
    + split; [in_list |]. split; [lia |]. split; [done |].
      split; [done |]. split; [done |]. split; [| done].
      intros key Hkey.
      destruct (decide (generateCacheKey request = key)) as [<- |].
      * rewrite lookup_insert_eq. by eexists.
      * by rewrite lookup_insert_ne.
    + split; [in_list |]. split; [lia |]. split; [done |].
      split; [done |]. split; [done |]. split; [| done].
      intros key. by rewrite Hc.
Qed.

(** X6: after [GenerateAssignment] has answered a request with a 201,
    take any later state whose cache still holds, under the key of that
    request, the entry that the 201 left (the state that the 201 left is
    one).  A valid request with the same key is then answered with the
    status 200, the same body and no call to the model when the clock
    reads less than 10 minutes after the reading of the first request,
    and is not answered with 200 when the clock reads 10 minutes or more
    after it. *)
Theorem GenerateAssignment_same_key `{unicode.Tables}
    (GeminiClient : option (nat → string → string → string + error))
    (clock : nat → Z) (rangeOrder rangeOrder2 : mapOrder)
    (request request2 : GenerateQuizzesRequest)
    (st st' st2 : State) (resp : Response) :
  GenerateAssignment GeminiClient clock rangeOrder (Some request) st
  = Done resp st' →
  Status resp = StatusCreated →
  validateRequest request2 = None →
  generateCacheKey request2 = generateCacheKey request →
  cache st2 !! generateCacheKey request = cache st' !! generateCacheKey request →
  ∃ resp2 st3,
    GenerateAssignment GeminiClient clock rangeOrder2 (Some request2) st2
    = Done resp2 st3
    ∧ (clock (ticks st2) < clock (ticks st) + 10 * Minute →
       resp2 = {| Status := StatusOK; Header := jsonHeader;
                  Body := Body resp |}
       ∧ callNo st3 = callNo st2 ∧ cache st3 = cache st2)
    ∧ (clock (ticks st) + 10 * Minute <= clock (ticks st2) →
       Status resp2 ≠ StatusOK).
Proof.
  intros Hrun Hstatus Hvalid2 Hkey Hentry.
  destruct (GenerateAssignment_store _ _ _ _ _ _ _ Hrun Hstatus)
    as (quizResponse & Hbody & Hcache & _ & _).
  assert (cacheHit (cache st2) (generateCacheKey request2) (clock (ticks st2))
          = if clock (ticks st2) <? clock (ticks st) + 10 * Minute
            then Some (anyQuizResponse quizResponse) else None) as Hlookup.
  { unfold cacheHit. rewrite Hkey, Hentry, Hcache, lookup_insert_eq. done. }
  destruct (GenerateAssignment_cases GeminiClient clock rangeOrder2
              (Some request2) st2)
    as [(msg & _ & [| (r2 & err & [= <-] & Herr)])
       | (r2 & [= <-] & _ & [(data & Hhit & Hrun2)
                            | (Hmiss & r & st4 & _ & _ & _ & _ & _ & Hrun2)])];
    [done | congruence | |].
  - rewrite Hlookup in Hhit.
    destruct (Z.ltb_spec (clock (ticks st2)) (clock (ticks st) + 10 * Minute));
      [| done].
    injection Hhit as <-. eexists _, _. split; [exact Hrun2 |].
    split; [| lia]. intros _. by rewrite Hbody.
  - rewrite Hlookup in Hmiss.
    destruct (Z.ltb_spec (clock (ticks st2)) (clock (ticks st) + 10 * Minute));
      [done |].
    destruct r as [quizResponse2 | err]; eexists _, _;
      (split; [exact Hrun2 |]); (split; [lia | done]).
Qed.

Lemma GenerateAssignment_same_key_witness :
  ∃ resp st' resp2 st'',
    @GenerateAssignment identityTables (constantClient threeEssaysAnswer)
      secondsClock map_to_list (Some twoEssaysRequest) initialState
    = Done resp st'
    ∧ @GenerateAssignment identityTables (constantClient threeEssaysAnswer)
        secondsClock map_to_list (Some capitalsRequest) st' = Done resp2 st''
    ∧ resp2 = {| Status := StatusOK; Header := jsonHeader;
                 Body := Body resp |}
    ∧ callNo st'' = callNo st'.
Proof.
  assert (∃ resp st',
    @GenerateAssignment identityTables (constantClient threeEssaysAnswer)
      secondsClock map_to_list (Some twoEssaysRequest) initialState
    = Done resp st'
    ∧ Status resp = StatusCreated
    ∧ secondsClock (ticks st')
      < secondsClock (ticks initialState) + 10 * Minute) as Hrun.
  { eexists _, _. split; [vm_compute; reflexivity |].
    split; [reflexivity | vm_compute; reflexivity]. }
  destruct Hrun as (resp & st' & Hrun & Hstatus & Hfresh).
  destruct (@GenerateAssignment_same_key identityTables
              (constantClient threeEssaysAnswer) secondsClock
              map_to_list map_to_list
              twoEssaysRequest capitalsRequest initialState st' st' resp
              Hrun Hstatus)
    as (resp2 & st'' & Hrun2 & Hhit & _);
    [vm_compute; reflexivity | vm_compute; reflexivity | reflexivity |].
  exists resp, st', resp2, st''.
  destruct (Hhit Hfresh) as (Hresp & Hcalls & _).
  split; [exact Hrun |]. split; [exact Hrun2 |].
  split; [exact Hresp | exact Hcalls].
Defined.

(** X7: without a client ([internal.GeminiClient] is nil), a valid
    request that misses the cache is answered with the status 500 and the
    text "Failed to generate quizzes"; nothing is stored and the model is
    not called. *)
Theorem GenerateAssignment_no_client `{unicode.Tables} (clock : nat → Z)
    (rangeOrder : mapOrder)
    (request : GenerateQuizzesRequest) (st : State) :
  validateRequest request = None →
  cacheHit (cache st) (generateCacheKey request) (clock (ticks st)) = None →
  ∃ st', GenerateAssignment None clock rangeOrder (Some request) st
         = Done (httpError ∅ "Failed to generate quizzes"
                   StatusInternalServerError) st'
         ∧ cache st' = cache st ∧ callNo st' = callNo st.
Proof.
  intros Hvalid Hmiss.
  destruct (GenerateAssignment_cases None clock rangeOrder (Some request) st)
    as [(msg & _ & [| (r2 & err & [= <-] & Herr)])
       | (r2 & [= <-] & _ & [(data & Hhit & _)
                            | (_ & r & st2 & _ & [Hc _] & _ & _ & Hnil & Hrun)])];
    [done | congruence | congruence |].
  destruct (Hnil eq_refl) as (Hcalls & err & ->).
  by exists st2.
Qed.

Lemma GenerateAssignment_no_client_witness :
  ∃ st', @GenerateAssignment identityTables None secondsClock map_to_list
           (Some twoEssaysRequest) initialState
         = Done (httpError ∅ "Failed to generate quizzes"
                   StatusInternalServerError) st'
         ∧ cache st' = cache initialState.
Proof.
  destruct (@GenerateAssignment_no_client identityTables secondsClock
              map_to_list twoEssaysRequest initialState)
    as (st' & Hrun & Hcache & _);
    [vm_compute; reflexivity | vm_compute; reflexivity |].
  exists st'. split; [exact Hrun | exact Hcache].
Defined.

(** ** The validation of a review request *)

Lemma getTotalWords_TrimSpace (input : string) :
  getTotalWords (strings.TrimSpace input) = getTotalWords input.
Proof. by rewrite !getTotalWords_Fields, Fields_TrimSpace. Qed.

Lemma reviewEnglishLevels_lookup (code : string) :
  is_Some (reviewEnglishLevels !! code)
  ↔ code ∈ ["A1"; "A2"; "B1"; "B2"; "C1"; "C2"].
Proof.
  unfold reviewEnglishLevels.
  rewrite !list_to_map_cons, list_to_map_nil.
  rewrite !lookup_insert_is_Some, lookup_empty, is_Some_alt.
  rewrite !elem_of_cons, elem_of_nil. split.
  - intros [<- | [_ [<- | [_ [<- | [_ [<- | [_ [<- | [_ [<- | [_ []]]]]]]]]]]]];
      tauto.
  - intros [-> | [-> | [-> | [-> | [-> | [-> | []]]]]]];
      repeat first [by left | right; split; [done |]].
Qed.

Lemma validateReviewRequest_None `{unicode.Tables}
    (request : GenerateCommentRequest) :
  validateReviewRequest request = None ↔
    MIN_TOTAL_WORDS <= getTotalWords (Content request) <= MAX_TOTAL_WORDS
    ∧ (UserLevel request = EmptyString
       ∨ strings.ToUpper (UserLevel request)
         ∈ ["A1"; "A2"; "B1"; "B2"; "C1"; "C2"]).
Proof.
  unfold validateReviewRequest. rewrite getTotalWords_TrimSpace.
  destruct (String.eqb_spec (strings.TrimSpace (Content request)) EmptyString)
    as [He | Hne].
  { split; [done |]. intros [[Hmin _] _]. unfold getTotalWords in Hmin.
    rewrite He in Hmin. by vm_compute in Hmin. }
  destruct (Z.ltb_spec (getTotalWords (Content request)) MIN_TOTAL_WORDS).
  { split; [done | lia]. }
  destruct (Z.ltb_spec MAX_TOTAL_WORDS (getTotalWords (Content request))).
  { split; [done | lia]. }
  destruct (String.eqb_spec (UserLevel request) EmptyString) as [Hl | Hl];
    cbn [negb].
  { split; [intros _; split; [lia | by left] | done]. }
  pose proof (reviewEnglishLevels_lookup (strings.ToUpper (UserLevel request)))
    as Hlookup.
  destruct (reviewEnglishLevels !! strings.ToUpper (UserLevel request))
    as [level |].
  - split; [intros _ | done]. split; [lia |]. right. apply Hlookup. by eexists.
  - split; [done |]. intros [_ [? | Hin]]; [done |].
    apply Hlookup in Hin. by destruct Hin.
Qed.

(** X8: [validateReviewRequest] accepts a request exactly when its
    content, as it was sent, has between 10 and 1000 words and its level
    is empty or is, once in upper case, one of A1, A2, B1, B2, C1, C2. *)
Theorem validateReviewRequest_accepts `{unicode.Tables}
    (request : GenerateCommentRequest) :
  validateReviewRequest request = None ↔
    10 <= getTotalWords (Content request) <= 1000
    ∧ (UserLevel request = EmptyString
       ∨ strings.ToUpper (UserLevel request)
         ∈ ["A1"; "A2"; "B1"; "B2"; "C1"; "C2"]).
Proof. apply validateReviewRequest_None. Qed.

(** X9: for a request that [validateReviewRequest] accepts with a level
    that is not empty, the prompt never falls back to "intermediate": it
    names the entry of [reviewEnglishLevels] for the level in upper case,
    and the word count that it states is between 10 and 1000. *)
Theorem accepted_level_in_prompt `{unicode.Tables}
    (request : GenerateCommentRequest) :
  validateReviewRequest request = None →
  UserLevel request ≠ EmptyString →
  ∃ level,
    reviewEnglishLevels !! strings.ToUpper (UserLevel request) = Some level
    ∧ level ≠ "intermediate"
    ∧ buildReviewPrompt request
      = reviewPromptText request level (categoryOf request)
          (getTotalWords (Content request)) (responseLanguagePromptOf request)
    ∧ 10 <= getTotalWords (Content request) <= 1000
    ∧ strings.Contains (buildReviewPrompt request)
        ("- Student's declared level: " +:+ level
         +:+ String (ascii_of_nat 10) "- Writing category: ") = true.
Proof.
  intros Hvalid Hlevel.
  apply validateReviewRequest_None in Hvalid as [Hwords [He | Hin]]; [done |].
  apply reviewEnglishLevels_lookup in Hin as [level Hlookup].
  assert (userLevelDescOf request = level) as Hdesc.
  { unfold userLevelDescOf. rewrite Hlookup.
    by destruct (String.eqb_spec (UserLevel request) EmptyString). }
  exists level. split; [done |]. split.
  { intros ->. revert Hlookup. generalize (strings.ToUpper (UserLevel request)).
    intros code. unfold reviewEnglishLevels.
    rewrite !list_to_map_cons, list_to_map_nil.
    rewrite !lookup_insert_Some, lookup_empty. intuition congruence. }
  unfold buildReviewPrompt. rewrite Hdesc. split; [done |].
  split; [done |]. apply reviewPromptText_level.
Qed.

Lemma accepted_level_in_prompt_witness :
  ∃ level,
    reviewEnglishLevels !! @strings.ToUpper identityTables "b1" = Some level
    ∧ strings.Contains (@buildReviewPrompt identityTables cachedReviewRequest)
        ("- Student's declared level: " +:+ level
         +:+ String (ascii_of_nat 10) "- Writing category: ") = true.
Proof.
  destruct (@accepted_level_in_prompt identityTables cachedReviewRequest)
    as (level & Hlookup & _ & _ & _ & Hprompt);
    [vm_compute; reflexivity | discriminate |].
  exists level. split; [exact Hlookup | exact Hprompt].
Defined.

(** ** The cleaning of the answers of the model *)

Lemma trimRight_last f l c :
  f c.1 = false → strings.trimRight f (l ++ [c]) = l ++ [c].
Proof.
  intros Hc. induction l as [| a l IH].
  - simpl. by rewrite Hc.
  - cbn [app strings.trimRight]. rewrite IH. by destruct l.
Qed.

Lemma TrimSpace_fixed (s : string) c0 l0 l1 c1 :
  utf8.runes s = c0 :: l0 → unicode.IsSpace c0.1 = false →
  utf8.runes s = l1 ++ [c1] → unicode.IsSpace c1.1 = false →
  strings.TrimSpace s = s.
Proof.
  intros H0 Hc0 H1 Hc1. unfold strings.TrimSpace, strings.TrimFunc.
  assert (strings.trimLeft unicode.IsSpace (utf8.runes s) = utf8.runes s) as ->.
  { rewrite H0. simpl. by rewrite Hc0. }
  rewrite H1, trimRight_last by done. rewrite <- H1. apply bytesOf_runes.
Qed.

Lemma str_drop_all (s : string) : str_drop (String.length s) s = EmptyString.
Proof. induction s; [done | by simpl]. Qed.

Lemma TrimPrefix_app (pre s : string) : strings.TrimPrefix (pre +:+ s) pre = s.
Proof.
  unfold strings.TrimPrefix, strings.HasPrefix.
  rewrite str_take_app, str_take_all, String.eqb_refl by done.
  by rewrite str_drop_app, str_drop_all.
Qed.

Lemma TrimSuffix_app (s suf : string) : strings.TrimSuffix (s +:+ suf) suf = s.
Proof.
  unfold strings.TrimSuffix, strings.HasSuffix. rewrite str_app_length.
  replace (String.length s + String.length suf - String.length suf)%nat
    with (String.length s) by lia.
  rewrite str_drop_app, str_drop_all by done.
  rewrite str_take_app, str_take_all by done.
  rewrite str_app_nil_l, String.eqb_refl.
  by destruct (Nat.leb_spec (String.length suf)
                 (String.length s + String.length suf)); [| lia].
Qed.

Lemma TrimSpace_fenced (body : string) :
  strings.TrimSpace ("```json" +:+ body +:+ "```")
  = "```json" +:+ body +:+ "```".
Proof.
  assert (utf8.runes "`" = [(96, "`" : string)]) as Htick by by vm_compute.
  eapply (TrimSpace_fixed _ _ _ _ (96, "`" : string)).
  - change ("```json" +:+ body +:+ "```")
      with (String "`" ("``json" +:+ body +:+ "```")).
    apply runes_cons.
  - by vm_compute.
  - change ("```json" +:+ body +:+ "```")
      with ("```json" +:+ (body +:+ ("``" +:+ "`"))).
    rewrite <- !str_app_assoc. rewrite runes_app by (left; by vm_compute).
    by rewrite Htick.
  - by vm_compute.
Qed.

(** X10: the cleaning that both parsers start with takes the fences of a
    code block away: the text ```json BODY ```, with any white space
    before and after it, is cleaned to BODY without the white space
    around it. *)
Theorem stripFences_fenced (ws1 body ws2 : string) :
  whitespaceOnly ws1 → whitespaceOnly ws2 →
  stripFences (ws1 +:+ ("```json" +:+ body +:+ "```") +:+ ws2)
  = strings.TrimSpace body.
Proof.
  intros H1 H2. unfold stripFences.
  rewrite TrimSpace_padded, TrimSpace_fenced by done.
  by rewrite TrimPrefix_app, TrimSuffix_app.
Qed.

Lemma stripFences_fenced_witness :
  stripFences (" " +:+ ("```json" +:+ " {} " +:+ "```")
               +:+ String (ascii_of_nat 10) EmptyString)
  = strings.TrimSpace " {} ".
Proof.
  apply stripFences_fenced; unfold whitespaceOnly; vm_compute;
    by repeat constructor.
Defined.

(** ** The parser of reviews, whatever the answer *)

(** X11: a review that [parseGeminiReviewResponse] returns either has
    an estimated level, a feedback and a list of suggestions that are all
    non-empty, or comes from the fallback shape, after the strict shape
    was refused, and then its suggestions carry a text only: their
    category, issue, example and priority are empty. *)
Theorem parseGeminiReviewResponse_result `{unicode.Tables} (response : string)
    (d : GeminiReviewData) :
  parseGeminiReviewResponse response = inl d →
  (EstimatedLevel d ≠ EmptyString ∧ OverallFeedback d ≠ EmptyString
   ∧ json.elems (Suggestions d) ≠ [])
  ∨ ((∃ reviewData err,
        json.Unmarshal (json.storeStruct GeminiReviewData_fields)
          (stripFences response) GeminiReviewData_zero
        = (reviewData, Some err))
     ∧ Forall (λ s, sCategory s = EmptyString ∧ Issue s = EmptyString
                    ∧ Example s = EmptyString ∧ Priority s = EmptyString)
              (json.elems (Suggestions d))).
Proof.
  unfold parseGeminiReviewResponse.
  destruct (json.Unmarshal (json.storeStruct GeminiReviewData_fields)
              (stripFences response) GeminiReviewData_zero)
    as [reviewData [err |]] eqn:Hstrict.
  - destruct (json.Unmarshal (json.storeStruct fallbackReviewData_fields)
                (stripFences response) fallbackReviewData_zero)
      as [fallback [err2 |]]; [done |].
    intros [= <-]. right. split; [by eexists _, _ |]. cbn [Suggestions].
    apply Forall_forall. intros s (text & -> & _)%list_elem_of_fmap. done.
  - destruct (String.eqb_spec (OverallFeedback reviewData) EmptyString)
      as [| Hfeedback]; [done |].
    intros [= <-]. left.
    cbn [EstimatedLevel OverallFeedback Suggestions].
    split; [| split; [done |]].
    + by destruct (String.eqb_spec (EstimatedLevel reviewData) EmptyString).
    + destruct (json.elems (Suggestions reviewData)) as [| s l] eqn:Hs;
        [done |].
      change (Z.of_nat (length (s :: l)) =? 0) with false. cbv iota.
      by rewrite Hs.
Qed.

Lemma parseGeminiReviewResponse_result_witness :
  ∃ d, @parseGeminiReviewResponse identityTables reviewAnswer = inl d
       ∧ ((EstimatedLevel d ≠ EmptyString ∧ OverallFeedback d ≠ EmptyString
           ∧ json.elems (Suggestions d) ≠ [])
          ∨ Forall (λ s, sCategory s = EmptyString ∧ Issue s = EmptyString
                         ∧ Example s = EmptyString ∧ Priority s = EmptyString)
                   (json.elems (Suggestions d))).
Proof.
  assert (∃ d, @parseGeminiReviewResponse identityTables reviewAnswer = inl d)
    as [d Hparse].
  { eexists. vm_compute. reflexivity. }
  exists d. split; [exact Hparse |].
  destruct (@parseGeminiReviewResponse_result identityTables _ _ Hparse)
    as [Hstrict | [_ Hloose]]; [by left | by right].
Defined.

(** ** Runs of the review handler *)

Lemma generateReviewWithGemini_run `{unicode.Tables} GeminiClient clock req
    startTime st :
  ∃ r st',
    generateReviewWithGemini GeminiClient clock req startTime st = Done r st'
    ∧ sameCaches st st'
    ∧ (callNo st <= callNo st' <= S (callNo st))%nat
    ∧ (GeminiClient = None → callNo st' = callNo st ∧ ∃ err, r = inr err)
    ∧ ∀ rr, r = inl rr →
        rrContent rr = Content req ∧ rrUserLevel rr = UserLevel req
        ∧ rrRequirement rr = Requirement req
        ∧ rrWordCount rr = getTotalWords (Content req)
        ∧ rrProcessingTime rr = clock (ticks st) - startTime
        ∧ ticks st' = S (S (ticks st))
        ∧ callNo st' = S (callNo st).
Proof.
  unfold generateReviewWithGemini, callGeminiForReview.
  destruct (generateContent_run GeminiClient "gemini-2.0-flash-exp"
              (buildReviewPrompt req) st)
    as (r & st1 & Hcall & Hc1 & Ht1 & Hn1 & Hnil).
  rewrite (bind_run _ _ _ _ _ Hcall).
  destruct r as [geminiResp | err].
  2:{ eexists _, _. split; [reflexivity |]. split; [done |].
      split; [lia |]. split; [| done].
      intros Hnone. split; [by apply Hnil | by eexists]. }
  assert (callNo st1 = S (callNo st)) as Hcalled.
  { unfold generateContent in Hcall. destruct GeminiClient; [| done].
    by injection Hcall as _ <-. }
  destruct (parseGeminiReviewResponse geminiResp) as [reviewData | err].
  2:{ eexists _, _. split; [reflexivity |]. split; [done |].
      split; [lia |]. split; [| done].
      intros Hnone. by destruct (Hnil Hnone) as (_ & ? & ?). }
  eexists _, _. split; [reflexivity |].
  cbn [callNo ticks]. destruct Hc1 as [Hc Hr].
  split; [by split |]. split; [lia |]. split.
  { intros Hnone. by destruct (Hnil Hnone) as (_ & ? & ?). }
  intros rr [= <-].
  cbn [rrContent rrUserLevel rrRequirement rrWordCount rrProcessingTime].
  rewrite Ht1. done.
Qed.

(** The runs of [GenerateReview], case by case. *)
Lemma GenerateReview_cases `{unicode.Tables} GeminiClient clock decoded st :
  (∃ msg, GenerateReview GeminiClient clock decoded st
          = Done (httpError reviewHeader msg StatusBadRequest) (afterTick st)
          ∧ (decoded = None
             ∨ ∃ request err, decoded = Some request
                 ∧ validateReviewRequest request = Some err))
  ∨ ∃ request, decoded = Some request ∧ validateReviewRequest request = None
      ∧ ((∃ data, reviewCacheHit (reviewCache st)
                    (generateReviewCacheKey request) (clock (S (ticks st)))
                  = Some data
            ∧ ((10 <= str_len (generateReviewCacheKey request)
                ∧ GenerateReview GeminiClient clock decoded st
                  = Done {| Status := StatusOK; Header := reviewHeader;
                            Body := bodyJSON data |}
                      (afterTick (afterTick st)))
               ∨ (str_len (generateReviewCacheKey request) < 10
                  ∧ GenerateReview GeminiClient clock decoded st
                    = Panicked (afterTick (afterTick st)))))
         ∨ (reviewCacheHit (reviewCache st) (generateReviewCacheKey request)
              (clock (S (ticks st))) = None
            ∧ ∃ r st3,
                generateReviewWithGemini GeminiClient clock request
                  (clock (ticks st)) (afterTick (afterTick st)) = Done r st3
                ∧ sameCaches st st3
                ∧ (callNo st <= callNo st3 <= S (callNo st))%nat
                ∧ (GeminiClient = None →
                   callNo st3 = callNo st ∧ ∃ err, r = inr err)
                ∧ match r with
                  | inr _ =>
                    GenerateReview GeminiClient clock decoded st
                    = Done {| Status := StatusServiceUnavailable;
                              Header := reviewHeader;
                              Body := bodyJSONMap unavailableMessage |} st3
                  | inl rr =>
                    GenerateReview GeminiClient clock decoded st
                    = Done {| Status := StatusOK; Header := reviewHeader;
                              Body := bodyJSON (anyReviewResponse rr) |}
                        {| cache := cache st;
                           reviewCache :=
                             <[generateReviewCacheKey request :=
                                 {| rData := anyReviewResponse rr;
                                    rExpiresAt :=
                                      clock (S (ticks st)) + CACHE_DURATION |}]>
                               (reviewCache st);
                           callNo := S (callNo st);
                           ticks := S (S (S (S (ticks st)))) |}
                    ∧ rrContent rr = Content request
                    ∧ rrUserLevel rr = UserLevel request
                    ∧ rrRequirement rr = Requirement request
                    ∧ rrWordCount rr = getTotalWords (Content request)
                    ∧ rrProcessingTime rr
                      = clock (S (S (ticks st))) - clock (ticks st)
                  end)).
Proof.
  unfold GenerateReview.
  rewrite (bind_run (timeNow clock) _ st (afterTick st) (clock (ticks st)))
    by done.
  destruct decoded as [request |]; [| left; eexists; split; [done | by left]].
  destruct (validateReviewRequest request) as [err |] eqn:Hvalid.
  { left. exists (errorText err). split; [done | right; by eexists _, _]. }
  right. exists request. split; [done |]. split; [done |].
  rewrite (bind_run (timeNow clock) _ (afterTick st) (afterTick (afterTick st))
             (clock (S (ticks st)))) by done.
  rewrite (bind_run getState _ (afterTick (afterTick st))
             (afterTick (afterTick st)) (afterTick (afterTick st))) by done.
  cbn [afterTick reviewCache].
  destruct (reviewCacheHit (reviewCache st) _ _) as [data |] eqn:Hhit.
  { left. exists data. split; [done |]. unfold sliceTo.
    destruct (Z.leb_spec 10 (str_len (generateReviewCacheKey request))).
    - left. by split.
    - right. by split. }
  right. split; [done |].
  destruct (generateReviewWithGemini_run GeminiClient clock request
              (clock (ticks st)) (afterTick (afterTick st)))
    as (r & st3 & Hgen & [Hc Hr] & Hn & Hnil & Hrr).
  exists r, st3. split; [done |]. split; [done |]. split; [done |].
  split; [done |].
  fold (afterTick st). fold (afterTick (afterTick st)).
  rewrite (bind_run _ _ _ _ _ Hgen).
  destruct r as [rr | err]; [| done].
  destruct (Hrr rr eq_refl) as (? & ? & ? & ? & ? & Ht & Hcalled).
  rewrite (bind_run getState _ st3 st3 st3) by done.
  unfold mbind, M_bind, setReviewCache. cbn in Hc, Hr, Ht, Hcalled.
  rewrite Hc, Hr, Ht, Hcalled. done.
Qed.

(** X12: [GenerateReview] either answers with the status 200, 400 or
    503, or panics; it panics if and only if the request is valid and
    hits the cache under a key that is shorter than the ten bytes that the
    log line slices from it.  When it answers it has called the model at
    most once, and not at all for a 400, it has left the cache of the
    assignments alone, it has removed no entry of the cache of the reviews
    and has changed that cache only with a 200; when it panics both caches
    are as they were. *)
Theorem GenerateReview_outcomes `{unicode.Tables}
    (GeminiClient : option (nat → string → string → string + error))
    (clock : nat → Z) (decoded : option GenerateCommentRequest) (st : State) :
  ((∃ st', GenerateReview GeminiClient clock decoded st = Panicked st')
   ↔ ∃ request data,
       decoded = Some request ∧ validateReviewRequest request = None
       ∧ reviewCacheHit (reviewCache st) (generateReviewCacheKey request)
           (clock (S (ticks st))) = Some data
       ∧ str_len (generateReviewCacheKey request) < 10)
  ∧ match GenerateReview GeminiClient clock decoded st with
    | Done resp st' =>
      Status resp ∈ [StatusOK; StatusBadRequest; StatusServiceUnavailable]
      ∧ cache st' = cache st
      ∧ (callNo st <= callNo st' <= S (callNo st))%nat
      ∧ (Status resp = StatusBadRequest → callNo st' = callNo st)
      ∧ (Status resp ≠ StatusOK → reviewCache st' = reviewCache st)
      ∧ (∀ key, is_Some (reviewCache st !! key) →
                is_Some (reviewCache st' !! key))
    | Panicked st' => sameCaches st st'
    end.
Proof.
  destruct (GenerateReview_cases GeminiClient clock decoded st)
    as [(msg & Hrun & Hwhy)
       | (request & Hdec & Hvalid
          & [(data & Hhit & [[Hlen Hrun] | [Hlen Hrun]])
            | (Hmiss & r & st3 & _ & [Hc Hr] & Hn & _ & Hrun)])].
  - rewrite Hrun. split.
    + split; [by intros [? ?] |].
      intros (request & data & -> & Hvalid & _).
      destruct Hwhy as [| (r2 & err & [= <-] & Herr)]; congruence.
    + cbn [Status httpError afterTick cache reviewCache callNo].
      split; [in_list |]. split; [done |]. split; [lia |]. done.
  - rewrite Hrun. split.
    + split; [by intros [? ?] |].
      intros (request2 & data2 & Hdec2 & _ & _ & Hshort).
      rewrite Hdec in Hdec2. injection Hdec2 as <-. lia.
    + cbn [Status afterTick cache reviewCache callNo].
      split; [in_list |]. split; [done |]. split; [lia |]. done.
  - rewrite Hrun. split; [| done].
    split; [intros _; by exists request, data | by eexists].
  - assert (¬ ∃ request2 data2,
              decoded = Some request2 ∧ validateReviewRequest request2 = None
              ∧ reviewCacheHit (reviewCache st)
                  (generateReviewCacheKey request2) (clock (S (ticks st)))
                = Some data2
              ∧ str_len (generateReviewCacheKey request2) < 10) as Hno.
    { intros (request2 & data2 & Hdec2 & _ & Hhit2 & _).
      rewrite Hdec in Hdec2. injection Hdec2 as <-. congruence. }
    destruct r as [rr | err].
    + destruct Hrun as [Hrun _]. rewrite Hrun. split.
      { split; [by intros [? ?] | by intros ?]. }
      cbn [Status cache reviewCache callNo].
      split; [in_list |]. split; [done |]. split; [lia |].
      split; [done |]. split; [done |]. intros key Hkey.
      destruct (decide (generateReviewCacheKey request = key)) as [<- |].
      * rewrite lookup_insert_eq. by eexists.
      * by rewrite lookup_insert_ne.
    + rewrite Hrun. split.
      { split; [by intros [? ?] | by intros ?]. }
      cbn [Status].
      split; [in_list |]. split; [done |]. split; [done |].
      split; [done |]. split; [done |]. intros key. by rewrite Hr.
Qed.

(** ** The keys of the review cache *)

Lemma checkFrom_spec (check : Z → bool) (fuel : nat) (n k : Z) :
  checkFrom check fuel n = true → n <= k < n + Z.of_nat fuel →
  check k = true.
Proof.
  revert n. induction fuel as [| fuel IH]; intros n Hall Hk; [lia |].
  cbn [checkFrom] in Hall. apply andb_true_iff in Hall as [Hn Hrest].
  destruct (decide (k = n)) as [-> | Hne]; [done |].
  apply (IH (n + 1)); [done | lia].
Qed.

Lemma FormatHex_length (n : Z) :
  0 <= n < 65536 → str_len (strconv.FormatHex n) <= 4.
Proof.
  intros Hn.
  assert (checkFrom (λ k, str_len (strconv.FormatHex k) <=? 4)
            (Z.to_nat 65536) 0 = true) as Hall by (vm_compute; reflexivity).
  apply Z.leb_le.
  apply (checkFrom_spec _ _ _ n Hall). lia.
Qed.

Lemma Itoa_length (n : Z) :
  0 <= n < 10000 → str_len (strconv.Itoa n) <= 4.
Proof.
  intros Hn.
  assert (checkFrom (λ k, str_len (strconv.Itoa k) <=? 4)
            (Z.to_nat 10000) 0 = true) as Hall by (vm_compute; reflexivity).
  apply Z.leb_le.
  apply (checkFrom_spec _ _ _ n Hall). lia.
Qed.

Lemma str_len_app (a b : string) : str_len (a +:+ b) = str_len a + str_len b.
Proof. unfold str_len. rewrite str_app_length. lia. Qed.

Lemma getTotalWords_nonneg (input : string) : 0 <= getTotalWords input.
Proof. rewrite getTotalWords_Fields. lia. Qed.

(** The key of a request that passes the validation is shorter than ten
    bytes as long as the text that it measures has less than 65536
    bytes. *)
Lemma generateReviewCacheKey_short `{unicode.Tables}
    (request : GenerateCommentRequest) :
  validateReviewRequest request = None →
  str_len (reviewKeyText request) < 65536 →
  str_len (generateReviewCacheKey request) < 10.
Proof.
  intros Hvalid Hlen. apply validateReviewRequest_None in Hvalid as [Hwords _].
  unfold MIN_TOTAL_WORDS, MAX_TOTAL_WORDS in Hwords.
  unfold generateReviewCacheKey. fold (reviewKeyText request).
  rewrite !str_len_app.
  pose proof (FormatHex_length (str_len (reviewKeyText request))) as Hhex.
  pose proof (Itoa_length (getTotalWords (Content request))) as Hdec.
  change (str_len "-") with 1. unfold str_len in Hhex at 1. lia.
Qed.

(** X13: for a request that passes the validation and whose key text
    (content in lower case, level, requirement and category, joined by
    hyphens) has less than 65536 bytes, the cache key has less than ten
    bytes, so that [GenerateReview] panics exactly when the request hits
    the cache: such a request is never served from the cache. *)
Theorem GenerateReview_hit_panics `{unicode.Tables}
    (GeminiClient : option (nat → string → string → string + error))
    (clock : nat → Z) (request : GenerateCommentRequest) (st : State) :
  validateReviewRequest request = None →
  str_len (reviewKeyText request) < 65536 →
  str_len (generateReviewCacheKey request) < 10
  ∧ (is_Some (reviewCacheHit (reviewCache st) (generateReviewCacheKey request)
                (clock (S (ticks st))))
     ↔ ∃ st', GenerateReview GeminiClient clock (Some request) st
              = Panicked st').
Proof.
  intros Hvalid Hlen.
  pose proof (generateReviewCacheKey_short request Hvalid Hlen) as Hshort.
  split; [done |].
  destruct (GenerateReview_cases GeminiClient clock (Some request) st)
    as [(msg & _ & [| (r2 & err & [= <-] & Herr)])
       | (r2 & [= <-] & _
          & [(data & Hhit & [[Hlong _] | [_ Hrun]])
            | (Hmiss & r & st3 & _ & _ & _ & _ & Hrun)])];
    [done | congruence | lia | |].
  - rewrite Hhit. split; [by eexists | by eexists].
  - rewrite Hmiss. split; [by intros [? ?] |]. intros [st' Hpanic].
    destruct r as [rr | err]; [destruct Hrun as [Hrun _] |]; congruence.
Qed.

Lemma GenerateReview_hit_panics_witness :
  ∃ resp st1 st2,
    @GenerateReview identityTables (constantClient reviewAnswer) secondsClock
      (Some cachedReviewRequest) initialState = Done resp st1
    ∧ @GenerateReview identityTables (constantClient reviewAnswer) secondsClock
        (Some cachedReviewRequest) st1 = Panicked st2.
Proof.
  assert (∃ resp st1,
    @GenerateReview identityTables (constantClient reviewAnswer) secondsClock
      (Some cachedReviewRequest) initialState = Done resp st1
    ∧ is_Some (reviewCacheHit (reviewCache st1)
                 (@generateReviewCacheKey identityTables cachedReviewRequest)
                 (secondsClock (S (ticks st1))))) as Hrun.
  { eexists _, _. split; [vm_compute; reflexivity |].
    eexists. vm_compute. reflexivity. }
  destruct Hrun as (resp & st1 & Hrun & Hhit).
  destruct (@GenerateReview_hit_panics identityTables
              (constantClient reviewAnswer) secondsClock cachedReviewRequest
              st1) as [_ Hpanics];
    [vm_compute; reflexivity | vm_compute; reflexivity |].
  destruct (proj1 Hpanics Hhit) as [st2 Hrun2].
  exists resp, st1, st2. split; [exact Hrun | exact Hrun2].
Defined.

(** X14: when a request misses the cache and [GenerateReview] answers
    with the status 200, the body is a review that repeats the content,
    the level and the requirement of the request, counts between 10 and
    1000 words, and gives as processing time the difference between the
    third and the first reading of the clock; the review is in the cache
    under the key of the request, where a lookup finds it at every time
    less than one hour after the second reading. *)
Theorem GenerateReview_fresh `{unicode.Tables}
    (GeminiClient : option (nat → string → string → string + error))
    (clock : nat → Z) (request : GenerateCommentRequest) (st st' : State)
    (resp : Response) :
  reviewCacheHit (reviewCache st) (generateReviewCacheKey request)
    (clock (S (ticks st))) = None →
  GenerateReview GeminiClient clock (Some request) st = Done resp st' →
  Status resp = StatusOK →
  ∃ rr, Body resp = bodyJSON (anyReviewResponse rr)
    ∧ rrContent rr = Content request
    ∧ rrUserLevel rr = UserLevel request
    ∧ rrRequirement rr = Requirement request
    ∧ 10 <= rrWordCount rr <= 1000
    ∧ rrWordCount rr = getTotalWords (Content request)
    ∧ rrProcessingTime rr = clock (S (S (ticks st))) - clock (ticks st)
    ∧ callNo st' = S (callNo st)
    ∧ ∀ t, t < clock (S (ticks st)) + 60 * Minute →
        reviewCacheHit (reviewCache st') (generateReviewCacheKey request) t
        = Some (anyReviewResponse rr).
Proof.
  intros Hmiss Hrun Hstatus.
  destruct (GenerateReview_cases GeminiClient clock (Some request) st)
    as [(msg & Hrun' & _)
       | (r2 & [= <-] & Hvalid
          & [(data & Hhit & _)
            | (_ & r & st3 & _ & _ & _ & _ & Hrun')])].
  - rewrite Hrun' in Hrun. injection Hrun as <- _. done.
  - congruence.
  - destruct r as [rr | err].
    + destruct Hrun' as (Hrun' & Hcontent & Hlevel & Hreq & Hwords & Htime).
      rewrite Hrun' in Hrun. injection Hrun as <- <-. exists rr.
      apply validateReviewRequest_None in Hvalid as [Hbounds _].
      unfold MIN_TOTAL_WORDS, MAX_TOTAL_WORDS in Hbounds.
      cbn [Body callNo reviewCache].
      split; [done |]. split; [done |]. split; [done |]. split; [done |].
      split; [lia |]. split; [done |]. split; [done |]. split; [done |].
      intros t Ht. apply reviewCache_lookup_fresh.
      unfold CACHE_DURATION, Hour. lia.
    + rewrite Hrun' in Hrun. injection Hrun as <- _. done.
Qed.

Lemma GenerateReview_fresh_witness :
  ∃ resp st' rr,
    @GenerateReview identityTables (constantClient reviewAnswer) secondsClock
      (Some cachedReviewRequest) initialState = Done resp st'
    ∧ Body resp = bodyJSON (anyReviewResponse rr)
    ∧ rrContent rr = Content cachedReviewRequest
    ∧ 10 <= rrWordCount rr <= 1000.
Proof.
  assert (∃ resp st',
    @GenerateReview identityTables (constantClient reviewAnswer) secondsClock
      (Some cachedReviewRequest) initialState = Done resp st'
    ∧ Status resp = StatusOK) as Hrun.
  { eexists _, _. split; [vm_compute; reflexivity | reflexivity]. }
  destruct Hrun as (resp & st' & Hrun & Hstatus).
  destruct (@GenerateReview_fresh identityTables
              (constantClient reviewAnswer) secondsClock cachedReviewRequest
              initialState st' resp)
    as (rr & Hbody & Hcontent & _ & _ & Hwords & _);
    [vm_compute; reflexivity | exact Hrun | exact Hstatus |].
  exists resp, st', rr.
  split; [exact Hrun |]. split; [exact Hbody |].
  split; [exact Hcontent | exact Hwords].
Defined.

(** ** What the validation protects *)

(** X15: [generateQuizzesWithGemini] panics on a request without types,
    on the division by their number, before the model is called; on
    a request with at least one type and a total that is not negative it
    returns, with at most two calls to the model and with both caches as
    they were.  Both conditions are among those that [validateRequest]
    checks. *)
Theorem generateQuizzesWithGemini_panics `{unicode.Tables}
    (GeminiClient : option (nat → string → string → string + error))
    (rangeOrder : mapOrder) (req : GenerateQuizzesRequest) (st : State) :
  (AssignmentTypes req = [] →
   generateQuizzesWithGemini GeminiClient rangeOrder req st = Panicked st)
  ∧ (AssignmentTypes req ≠ [] → 0 <= TotalQuestions req →
     ∃ r st', generateQuizzesWithGemini GeminiClient rangeOrder req st = Done r st'
       ∧ sameCaches st st'
       ∧ (callNo st <= callNo st' <= callNo st + 2)%nat)
  ∧ (validateRequest req = None →
     AssignmentTypes req ≠ [] ∧ 0 <= TotalQuestions req).
Proof.
  split; [| split].
  - intros Hnil. unfold generateQuizzesWithGemini, buildGeminiPrompt.
    by rewrite Hnil.
  - intros Htypes Htotal.
    destruct (generateQuizzesWithGemini_run GeminiClient rangeOrder req st Htypes Htotal)
      as (r & st' & Hrun & Hc & _ & Hn & _).
    by exists r, st'.
  - intros (_ & _ & Htotal & Htypes)%validateRequest_None. split; [| lia].
    intros Hnil. rewrite Hnil in Htypes. simpl in Htypes. lia.
Qed.

(** ** The tables *)

Lemma assignmentTypes_lookup (a : Z) (name : string) :
  assignmentTypes !! a = Some name ↔
    (a = 1 ∧ name = "Multiple Choice") ∨ (a = 2 ∧ name = "Fill in the Blank")
    ∨ (a = 3 ∧ name = "Short Answer") ∨ (a = 4 ∧ name = "Essay").
Proof.
  unfold assignmentTypes.
  rewrite !list_to_map_cons, list_to_map_nil.
  rewrite !lookup_insert_Some, lookup_empty. intuition congruence.
Qed.

Lemma englishLevels_lookup (k : Z) (name : string) :
  englishLevels !! k = Some name ↔
    (k = 1 ∧ name = "A1 - Beginner") ∨ (k = 2 ∧ name = "A2 - Elementary")
    ∨ (k = 3 ∧ name = "B1 - Intermediate")
    ∨ (k = 4 ∧ name = "B2 - Upper Intermediate")
    ∨ (k = 5 ∧ name = "C1 - Advanced") ∨ (k = 6 ∧ name = "C2 - Proficient").
Proof.
  unfold englishLevels.
  rewrite !list_to_map_cons, list_to_map_nil.
  rewrite !lookup_insert_Some, lookup_empty. intuition congruence.
Qed.

(** X16: the types that [isValidQuiz] accepts are the names that
    [GetAssignmentTypes] serves: a valid quiz has for type an entry of
    [assignmentTypes], under a number from 1 to 4 that
    [entities.AssignmentType.String] prints as the same name; and every
    name of the table is the type of some valid quiz. *)
Theorem isValidQuiz_type_served (name : string) :
  (∃ quiz, isValidQuiz quiz = true ∧ Type' quiz = name)
  ↔ ∃ a, 1 <= a <= 4 ∧ assignmentTypes !! a = Some name
         ∧ entities.AssignmentType_String a = name.
Proof.
  split.
  - intros (quiz & Hvalid & <-).
    destruct (isValidQuiz_types quiz Hvalid) as [_ Hin].
    rewrite !elem_of_cons, elem_of_nil in Hin.
    destruct Hin as [-> | [-> | [-> | [-> | []]]]];
      [exists 1 | exists 2 | exists 3 | exists 4];
      (split; [lia |]); split; by vm_compute.
  - intros (a & _ & Hlookup & _). apply assignmentTypes_lookup in Hlookup.
    exists {| ID := 0; Type' := name; Question := "?"; Answer := "!";
              Options := ["a"; "b"]; CorrectIndex := 0;
              Explanation := EmptyString |}.
    split; [| done].
    destruct Hlookup as [[_ ->] | [[_ ->] | [[_ ->] | [_ ->]]]]; by vm_compute.
Qed.

(** X17: every level that [GetEnglishLevels] serves, under a number
    from 1 to 6, is the name that [entities.EnglishLevel.String] prints
    for that number, has a difficulty in [difficultyMapping], so that the
    prompt of the quizzes does not fall back to "intermediate level", and
    is the entry of [reviewEnglishLevels] for its first two letters. *)
Theorem englishLevels_consistent (k : Z) (name : string) :
  englishLevels !! k = Some name →
  1 <= k <= 6
  ∧ entities.EnglishLevel_String k = name
  ∧ is_Some (difficultyMapping !! name)
  ∧ reviewEnglishLevels !! str_take 2 name = Some name.
Proof.
  intros Hlookup. apply englishLevels_lookup in Hlookup.
  destruct Hlookup
    as [[-> ->] | [[-> ->] | [[-> ->] | [[-> ->] | [[-> ->] | [-> ->]]]]]];
    (split; [lia |]); (split; [by vm_compute |]);
    (split; [eexists; by vm_compute | by vm_compute]).
Qed.

Lemma englishLevels_consistent_witness :
  is_Some (difficultyMapping !! "B2 - Upper Intermediate")
  ∧ reviewEnglishLevels !! "B2" = Some "B2 - Upper Intermediate".
Proof.
  destruct (englishLevels_consistent 4 "B2 - Upper Intermediate")
    as (_ & _ & Hdifficulty & Hreview); [by vm_compute |].
  split; [exact Hdifficulty | exact Hreview].
Defined.

(** ** The package utils *)

Lemma runes_ascii_cons (c : ascii) (t : string) :
  byte_val c < 0x80 →
  utf8.runes (String c t) = (byte_val c, String c EmptyString) :: utf8.runes t.
Proof.
  intros Hc. rewrite runes_cons.
  assert (utf8.DecodeRuneInString (String c t) = (byte_val c, 1%nat)) as ->.
  { unfold utf8.DecodeRuneInString, utf8.first.
    by destruct (Z.ltb_spec (byte_val c) 128); [| lia]. }
  done.
Qed.

Lemma runes_ascii (s : string) :
  allASCII s = true →
  Forall (λ c : Z * string, c.1 <= unicode.MaxASCII) (utf8.runes s).
Proof.
  induction s as [| c t IH]; [constructor |].
  cbn [allASCII]. intros [Hc Ht]%andb_true_iff. apply Z.ltb_lt in Hc.
  rewrite runes_ascii_cons by done. constructor; [| by apply IH].
  cbn [fst]. unfold unicode.MaxASCII. lia.
Qed.

Lemma isEnglishLoop_spec `{Categories} (cs : list (Z * string)) :
  isEnglishLoop cs = true ↔ Forall (λ c, englishRune c.1) cs.
Proof.
  induction cs as [| [c raw] cs IH]; [by split; [constructor |] |].
  cbn [isEnglishLoop]. rewrite Forall_cons. cbn [fst]. unfold englishRune at 1.
  destruct (Z.ltb_spec unicode.MaxASCII c) as [Hc | Hc].
  - destruct (Is_Letter c); cbn [andb negb].
    { split; [done |]. intros [[? | [? _]] _]; [lia | done]. }
    destruct (unicode.IsSpace c); cbn [andb negb].
    { rewrite IH. split; [intros ?; split; [right |]; auto | by intros [_ ?]]. }
    destruct (Is_Digit c); cbn [andb negb].
    { rewrite IH. split; [intros ?; split; [right |]; auto | by intros [_ ?]]. }
    split; [done |]. intros [[? | [_ [? | ?]]] _]; [lia | done | done].
  - rewrite andb_false_r. cbn [andb]. rewrite IH.
    split; [intros ?; split; [by left | done] | by intros [_ ?]].
Qed.

(** X18: [IsEnglish] accepts a string exactly when each of its runes is
    in ASCII or is, for the Unicode tables, not a letter and a space or a
    digit; so every string of ASCII bytes is accepted, control characters
    included, whatever the tables hold. *)
Theorem IsEnglish_accepts `{Categories} (input : string) :
  (IsEnglish input = true
   ↔ Forall (λ c : Z * string, englishRune c.1) (utf8.runes input))
  ∧ (allASCII input = true → IsEnglish input = true).
Proof.
  split; [apply isEnglishLoop_spec |].
  intros Hascii. apply isEnglishLoop_spec.
  eapply Forall_impl; [by apply runes_ascii |].
  intros c Hc. by left.
Qed.

(** ** The chatbot *)

Lemma GetTotalWords_TrimSpace (input : string) :
  GetTotalWords (strings.TrimSpace input) = GetTotalWords input.
Proof. unfold GetTotalWords. by rewrite Fields_TrimSpace. Qed.

(** X19: [GenerateAnswer] answers every body that decodes with the
    status 200, whatever the query holds: with the message for an empty
    question exactly when the question is made of white space only; with
    the message for a long question exactly when the question, as it was
    sent, has more than 30 words; and otherwise with the sample answer,
    or with the apology when the trimmed question contains "error". *)
Theorem GenerateAnswer_replies (request : Conversation)
    (query : string → string) :
  let reply := GenerateAnswer (Some request) query in
  let question := cQuestion request in
  chatStatus reply = StatusOK
  ∧ (chatBodyOf reply = chatMap [("message", emptyQuestionMessage)]
     ↔ whitespaceOnly question)
  ∧ (chatBodyOf reply = chatMap [("message", longQuestionMessage)]
     ↔ 30 < GetTotalWords question)
  ∧ (chatBodyOf reply = chatJSON {| MessageInMarkdown := busyMessage |}
     ↔ ¬ whitespaceOnly question ∧ GetTotalWords question <= 30
       ∧ strings.Contains (strings.TrimSpace question) "error" = true)
  ∧ (chatBodyOf reply = chatJSON {| MessageInMarkdown := sampleAnswer |}
     ↔ ¬ whitespaceOnly question ∧ GetTotalWords question <= 30
       ∧ strings.Contains (strings.TrimSpace question) "error" = false).
Proof.
  intros reply question. subst reply. unfold GenerateAnswer.
  cbn [cQuestion]. fold question.
  rewrite GetTotalWords_TrimSpace.
  assert (emptyQuestionMessage ≠ longQuestionMessage) as Hmsg1
    by (by vm_compute).
  assert (busyMessage ≠ sampleAnswer) as Hmsg2 by (by vm_compute).
  destruct (String.eqb_spec (strings.TrimSpace question) EmptyString)
    as [He | Hne].
  { apply TrimSpace_empty_iff in He as Hws.
    assert (GetTotalWords question = 0) as Hzero.
    { unfold GetTotalWords. by rewrite Fields_whitespaceOnly. }
    cbn [chatStatus chatBodyOf]. split; [done |].
    split; [done |]. split; [split; [congruence | lia] |].
    split; [split; [done | by intros [? _]] |].
    split; [done | by intros [? _]]. }
  assert (¬ whitespaceOnly question) as Hnws.
  { by rewrite <- TrimSpace_empty_iff. }
  destruct (Z.ltb_spec 30 (GetTotalWords question)) as [Hlong | Hshort].
  { cbn [chatStatus chatBodyOf]. split; [done |].
    split; [split; [congruence | done] |]. split; [done |].
    split; [split; [done | lia] |]. split; [done | lia]. }
  unfold generateChatbotResponse. cbn [cQuestion].
  destruct (strings.Contains (strings.TrimSpace question) "error");
    cbn [chatStatus chatBodyOf]; (split; [done |]);
    (split; [split; [done | done] |]); (split; [split; [done | lia] |]).
  - split; [done |]. split; [congruence | by intros (_ & _ & ?)].
  - split; [split; [congruence | by intros (_ & _ & ?)] | done].
Qed.

(** ** The suggestion of topics *)

Lemma swap_Permutation (topics topics' : list string) (i j : nat) :
  swap topics i j = Some topics' → topics' ≡ₚ topics.
Proof.
  unfold swap.
  destruct (topics !! i) as [x |] eqn:Hi; [| done].
  destruct (topics !! j) as [y |] eqn:Hj; [| done].
  intros [= <-].
  pose proof (lookup_lt_Some _ _ _ Hi) as Hilen.
  pose proof (lookup_lt_Some _ _ _ Hj) as Hjlen.
  apply Permutation_inj. split; [by rewrite !length_insert |].
  exists (λ k, if decide (k = i) then j else if decide (k = j) then i else k).
  split.
  - intros a b. repeat case_decide; intros; subst; congruence.
  - intros k. destruct (decide (k = j)) as [-> | Hkj].
    + rewrite list_lookup_insert_eq by (by rewrite length_insert).
      destruct (decide (j = i)) as [-> |]; [congruence | done].
    + rewrite list_lookup_insert_ne by done.
      destruct (decide (k = i)) as [-> | Hki].
      * by rewrite list_lookup_insert_eq.
      * by rewrite list_lookup_insert_ne.
Qed.

Lemma shuffleLoop_Permutation (int31n : nat → nat → nat) (i k : nat)
    (topics : list string) :
  (∀ k n, (0 < n)%nat → (int31n k n < n)%nat) →
  (i < length topics)%nat →
  ∃ topics', shuffleLoop int31n k i topics = Some topics'
             ∧ topics' ≡ₚ topics.
Proof.
  intros Hgen. revert k topics.
  induction i as [| i IH]; intros k topics Hi; [by eexists |].
  cbn [shuffleLoop].
  pose proof (Hgen k (S i + 1)%nat ltac:(lia)) as Hj.
  destruct (lookup_lt_is_Some_2 topics (S i) Hi) as [x Hx].
  destruct (lookup_lt_is_Some_2 topics (int31n k (S i + 1)%nat) ltac:(lia))
    as [y Hy].
  assert (∃ topics1, swap topics (S i) (int31n k (S i + 1)%nat)
                     = Some topics1) as [topics1 Hswap].
  { unfold swap. rewrite Hx, Hy. by eexists. }
  rewrite Hswap. cbn [mbind option_bind].
  pose proof (swap_Permutation _ _ _ _ Hswap) as Hperm.
  destruct (IH (S k) topics1) as (topics' & Hloop & Hperm').
  { rewrite Hperm. lia. }
  exists topics'. split; [done |]. by rewrite Hperm'.
Qed.

(** X20: whatever the generator answers within its bounds,
    [SuggestTopics] does not panic and suggests five topics that are
    pairwise distinct and come from the pool of twelve: they are the
    first five of a permutation of the pool. *)
Theorem SuggestTopics_distinct (int31n : nat → nat → nat) :
  (∀ k n, (0 < n)%nat → (int31n k n < n)%nat) →
  ∃ suggested rest,
    SuggestTopics int31n = Some suggested
    ∧ suggested ++ rest ≡ₚ topicPool
    ∧ length suggested = 5%nat
    ∧ NoDup suggested
    ∧ ∀ topic, topic ∈ suggested → topic ∈ topicPool.
Proof.
  intros Hgen. unfold SuggestTopics, Shuffle.
  destruct (shuffleLoop_Permutation int31n (length topicPool - 1) 0 topicPool
              Hgen) as (topics & -> & Hperm).
  { simpl. lia. }
  cbn [mbind option_bind].
  assert (length topics = 12%nat) as Hlen by by rewrite Hperm.
  unfold sliceListTo. rewrite Hlen. cbn [Z.leb Z.of_nat andb].
  change (5 <=? Z.of_nat 12) with true. cbn [andb].
  exists (take (Z.to_nat 5) topics), (drop (Z.to_nat 5) topics).
  split; [done |]. rewrite take_drop. split; [done |].
  assert (NoDup topicPool) as Hnodup.
  { apply (bool_decide_unpack _). by vm_compute. }
  rewrite <- Hperm in Hnodup.
  split; [rewrite length_take; rewrite Hlen; by vm_compute |].
  split.
  - rewrite <- (take_drop (Z.to_nat 5) topics) in Hnodup.
    by apply NoDup_app in Hnodup as [? _].
  - intros topic Hin. rewrite <- Hperm.
    rewrite <- (take_drop (Z.to_nat 5) topics). apply elem_of_app. by left.
Qed.

Lemma SuggestTopics_distinct_witness :
  ∃ suggested,
    SuggestTopics (λ k n, (k * 7) `mod` n)%nat = Some suggested
    ∧ length suggested = 5%nat ∧ NoDup suggested.
Proof.
  destruct (SuggestTopics_distinct (λ k n, (k * 7) `mod` n)%nat)
    as (suggested & _ & Hrun & _ & Hlen & Hnodup & _).
  { intros k n Hn. apply Nat.mod_upper_bound. lia. }
  exists suggested. split; [exact Hrun |]. split; [exact Hlen | exact Hnodup].
Defined.

(** ** The second call to the model *)

(** X21: once the first answer of the model parses, whatever it holds,
    [generateQuizzesWithGemini] returns no error.  With a total that is
    not negative it returns a response: when the answer has at least the
    quizzes requested the model is called once and the response numbers
    the first of them; when it has less the model is called a second
    time, for the number that is missing, and the quizzes of the second
    answer come after those of the first, the whole being cut to the
    total; a second call that fails, or whose answer does not parse, adds
    nothing and is not reported.  With a negative total it panics on the
    slice that cuts the quizzes, after the one call. *)
Theorem generateQuizzesWithGemini_second_call `{unicode.Tables}
    (client : nat → string → string → string + error)
    (rangeOrder : mapOrder) (req : GenerateQuizzesRequest) (st : State)
    (prompt text : string) (quizzes : list Quiz) :
  buildGeminiPrompt rangeOrder req = Some prompt →
  client (callNo st) "gemini-2.0-flash" prompt = inl text →
  parseGeminiResponse text (AssignmentTypes req) = inl quizzes →
  let missing := TotalQuestions req - Z.of_nat (length quizzes) in
  let more :=
    if 0 <? missing then
      match client (S (callNo st)) "gemini-2.0-flash"
              (additionalPromptText req missing) with
      | inl text2 =>
        match parseGeminiResponse text2 (AssignmentTypes req) with
        | inl more => more
        | inr _ => []
        end
      | inr _ => []
      end
    else [] in
  (0 <= TotalQuestions req →
   ∃ response st',
     generateQuizzesWithGemini (Some client) rangeOrder req st
     = Done (inl response) st'
     ∧ qrQuizzes response
       = addIDs (take (Z.to_nat (TotalQuestions req)) (quizzes ++ more))
     ∧ Z.of_nat (length (qrQuizzes response))
       = Z.min (Z.of_nat (length (quizzes ++ more))) (TotalQuestions req)
     ∧ callNo st'
       = (if 0 <? missing then S (S (callNo st)) else S (callNo st)))
  ∧ (TotalQuestions req < 0 →
     ∃ st', generateQuizzesWithGemini (Some client) rangeOrder req st
            = Panicked st'
            ∧ callNo st' = S (callNo st)).
Proof.
  intros Hprompt Hfirst Hparse missing more.
  assert (AssignmentTypes req ≠ []) as Htypes.
  { intros Hnil. unfold buildGeminiPrompt in Hprompt.
    by rewrite Hnil in Hprompt. }
  split.
  - intros Htotal.
    destruct (generateQuizzesWithGemini_run (Some client) rangeOrder req st
                Htypes Htotal) as (r & st' & Hrun & _ & _ & _ & _).
    destruct r as [response | err].
    + destruct (generateQuizzesWithGemini_inl _ _ _ _ _ _ Hrun)
        as (client' & prompt' & text' & quizzes' & [= <-] & Hprompt' & Hfirst'
            & Hparse' & _ & _ & _ & _ & _ & Hquizzes & Hcalls).
      rewrite Hprompt in Hprompt'. injection Hprompt' as <-.
      rewrite Hfirst in Hfirst'. injection Hfirst' as <-.
      rewrite Hparse in Hparse'. injection Hparse' as <-.
      exists response, st'. split; [done |].
      unfold backfill in Hquizzes. fold missing in Hquizzes, Hcalls.
      fold more in Hquizzes. split; [done |].
      split; [| by destruct (0 <? missing)].
      rewrite Hquizzes, addIDs_length, length_take. lia.
    + exfalso. unfold generateQuizzesWithGemini in Hrun.
      rewrite Hprompt in Hrun.
      apply bind_Done in Hrun as (prompt' & st0 & [[= <-] <-]%orPanic_Done
                                  & Hrun).
      apply bind_Done in Hrun as (geminiResp & st1 & Hcall & Hrun).
      unfold callGeminiAPI, generateContent in Hcall.
      injection Hcall as <- <-. rewrite Hfirst, Hparse in Hrun.
      apply bind_Done in Hrun as (quizzes1 & st2 & _ & Hrun).
      apply bind_Done in Hrun as (quizzes2 & st3 & _ & Hrun).
      by apply mret_Done in Hrun as [? _].
  - intros Hneg. unfold generateQuizzesWithGemini. rewrite Hprompt.
    cbn [orPanic]. rewrite (bind_run (mret prompt) _ st st prompt) by done.
    erewrite bind_run;
      [| unfold callGeminiAPI, generateContent; by rewrite Hfirst].
    cbv beta iota. rewrite Hparse.
    destruct (Z.ltb_spec (Z.of_nat (length quizzes)) (TotalQuestions req));
      [lia |].
    erewrite bind_run; [| reflexivity].
    destruct (Z.ltb_spec (TotalQuestions req) (Z.of_nat (length quizzes)));
      [| lia].
    unfold sliceListTo.
    destruct (Z.leb_spec 0 (TotalQuestions req)); [lia |].
    eexists. split; [reflexivity | done].
Qed.

Lemma generateQuizzesWithGemini_second_call_witness :
  ∃ response st',
    @generateQuizzesWithGemini identityTables (Some shortThenLongClient)
      map_to_list twoEssaysRequest initialState = Done (inl response) st'
    ∧ map Question (qrQuizzes response)
      = ["What is a journey?"; "Describe your last journey."]
    ∧ callNo st' = 2%nat.
Proof.
  assert (∃ prompt quizzes,
    buildGeminiPrompt map_to_list twoEssaysRequest = Some prompt
    ∧ @parseGeminiResponse identityTables oneEssayAnswer
        (AssignmentTypes twoEssaysRequest) = inl quizzes)
    as (prompt & quizzes & Hprompt & Hparse).
  { eexists _, _. split; [reflexivity | vm_compute; reflexivity]. }
  destruct (@generateQuizzesWithGemini_second_call identityTables
              shortThenLongClient map_to_list twoEssaysRequest initialState
              prompt oneEssayAnswer quizzes Hprompt eq_refl Hparse)
    as [Hdone _].
  destruct Hdone as (response & st' & Hrun & Hquizzes & _ & Hcalls);
    [by vm_compute |].
  exists response, st'. split; [exact Hrun |].
  vm_compute in Hparse. injection Hparse as <-.
  split; [rewrite Hquizzes; vm_compute; reflexivity | exact Hcalls].
Defined.

(** ** Requests that share a key of the review cache *)

(** X22: the key of the review cache is made of the length of the key
    text and of the word count only.  So after [GenerateReview] has
    answered a request with a fresh review, a valid request with another
    content of the same length (below 65536 bytes) and the same number of
    words hits the entry of the first one for one hour, and panics on the
    log line instead of being reviewed. *)
Theorem GenerateReview_collision `{unicode.Tables}
    (GeminiClient : option (nat → string → string → string + error))
    (clock : nat → Z) (request request2 : GenerateCommentRequest)
    (st st' : State) (resp : Response) :
  reviewCacheHit (reviewCache st) (generateReviewCacheKey request)
    (clock (S (ticks st))) = None →
  GenerateReview GeminiClient clock (Some request) st = Done resp st' →
  Status resp = StatusOK →
  validateReviewRequest request2 = None →
  str_len (reviewKeyText request2) = str_len (reviewKeyText request) →
  getTotalWords (Content request2) = getTotalWords (Content request) →
  str_len (reviewKeyText request2) < 65536 →
  clock (S (ticks st')) < clock (S (ticks st)) + 60 * Minute →
  generateReviewCacheKey request2 = generateReviewCacheKey request
  ∧ ∃ st'', GenerateReview GeminiClient clock (Some request2) st'
            = Panicked st''.
Proof.
  intros Hmiss Hrun Hstatus Hvalid2 Hlen Hwords Hshort Hfresh.
  assert (generateReviewCacheKey request2 = generateReviewCacheKey request)
    as Hkey.
  { unfold generateReviewCacheKey. fold (reviewKeyText request2).
    fold (reviewKeyText request). by rewrite Hlen, Hwords. }
  split; [done |].
  destruct (GenerateReview_store _ _ _ _ _ _ Hmiss Hrun Hstatus)
    as (reviewResponse & _ & Hcache & _).
  pose proof (generateReviewCacheKey_short request2 Hvalid2 Hshort) as Hkeylen.
  destruct (GenerateReview_cases GeminiClient clock (Some request2) st')
    as [(msg & _ & [| (r2 & err & [= <-] & Herr)])
       | (r2 & [= <-] & _
          & [(data & _ & [[Hlong _] | [_ Hpanic]])
            | (Hmiss2 & _)])];
    [done | congruence | lia | by eexists |].
  rewrite Hkey, Hcache in Hmiss2.
  rewrite reviewCache_lookup_fresh in Hmiss2; [done |].
  unfold CACHE_DURATION, Hour. lia.
Qed.

Lemma GenerateReview_collision_witness :
  ∃ resp st' st'',
    @GenerateReview identityTables (constantClient reviewAnswer) secondsClock
      (Some cachedReviewRequest) initialState = Done resp st'
    ∧ Content otherReviewRequest ≠ Content cachedReviewRequest
    ∧ @GenerateReview identityTables (constantClient reviewAnswer) secondsClock
        (Some otherReviewRequest) st' = Panicked st''.
Proof.
  assert (∃ resp st',
    @GenerateReview identityTables (constantClient reviewAnswer) secondsClock
      (Some cachedReviewRequest) initialState = Done resp st'
    ∧ Status resp = StatusOK
    ∧ secondsClock (S (ticks st'))
      < secondsClock (S (ticks initialState)) + 60 * Minute) as Hrun.
  { eexists _, _. split; [vm_compute; reflexivity |].
    split; [reflexivity | vm_compute; reflexivity]. }
  destruct Hrun as (resp & st' & Hrun & Hstatus & Hfresh).
  destruct (@GenerateReview_collision identityTables
              (constantClient reviewAnswer) secondsClock cachedReviewRequest
              otherReviewRequest initialState st' resp)
    as [_ [st'' Hpanic]];
    [vm_compute; reflexivity | exact Hrun | exact Hstatus
    | vm_compute; reflexivity | vm_compute; reflexivity
    | vm_compute; reflexivity | vm_compute; reflexivity | exact Hfresh |].
  exists resp, st', st''. split; [exact Hrun |].
  split; [discriminate | exact Hpanic].
Defined.
